(** * client-functions: registration, naming cache, handler compiler,
      build cleanup and the browser dispatch proxy

    A shallow embedding of [mod.ts], [build.ts] and [client.ts].

    Conventions of the embedding.
    - JavaScript numbers that the code keeps integral are [Z]; the 32-bit
      operators [<<] and [|] are written out with their wrap-around.
    - JavaScript strings are [string]; [charCodeAt] is the code of the
      character, so the source texts of the embedding are made of code
      units below 256. The hash itself ([hashCode]) is defined on an
      arbitrary list of code units.
    - An object is the finite map of its own properties. Where the code
      reads a plain object by a computed name ([handlers[fnName]] in the
      cache, [prop in target] in the proxy), a name the object does not own
      is looked up in [objectPrototype], as JavaScript does. A method call
      on a wrapper ([this.register], [this.buildCode]) finds the method of
      the class unless the wrapper owns a property of that name.
    - The module-level variables of [mod.ts] are the fields of [State]; the
      world outside the process (the file system, the transpiler) is a
      [World], which may differ from one call to the next.
    - A function that may throw returns an [Outcome] together with the
      state reached, as a JavaScript exception keeps earlier mutations. *)

From Stdlib Require Import ZArith Ascii String List Lia Bool.
From stdpp Require Import base option gmap strings list fin_maps.

(** ** JavaScript primitives *)
Module Js.

Local Open Scope Z_scope.

(** ToInt32: the signed 32-bit reading of a number. *)
Definition toInt32 (z : Z) : Z := (z + 2 ^ 31) mod 2 ^ 32 - 2 ^ 31.

(** [a << n] *)
Definition shl (a n : Z) : Z := toInt32 (Z.shiftl (toInt32 a) (n mod 32)).

(** [a | b] *)
Definition bor (a b : Z) : Z := toInt32 (Z.lor (toInt32 a) (toInt32 b)).

(** [s.charCodeAt(i)] for every [i] below [s.length], in order. *)
Definition charCodes (s : string) : list Z :=
  map (fun c => Z.of_nat (nat_of_ascii c)) (list_ascii_of_string s).

Definition hexDigit (d : Z) : ascii :=
  match d with
  | 0 => "0" | 1 => "1" | 2 => "2" | 3 => "3" | 4 => "4" | 5 => "5"
  | 6 => "6" | 7 => "7" | 8 => "8" | 9 => "9" | 10 => "a" | 11 => "b"
  | 12 => "c" | 13 => "d" | 14 => "e" | _ => "f"
  end%char.

Fixpoint hexDigits (fuel : nat) (n : Z) (acc : string) : string :=
  match fuel with
  | O => acc
  | S fuel' =>
      let acc' := String (hexDigit (n mod 16)) acc in
      if n <? 16 then acc' else hexDigits fuel' (n / 16) acc'
  end.

(** [n.toString(16)] for an integer [n]. *)
Definition toString16 (n : Z) : string :=
  if n <? 0
  then "-" +:+ hexDigits (S (Z.to_nat (Z.log2 (- n)))) (- n) EmptyString
  else hexDigits (S (Z.to_nat (Z.log2 n))) n EmptyString.

(** Reading a hexadecimal numeral back (used to state that [toString16]
    is the rendering of its argument). *)
Definition hexValue (c : ascii) : option Z :=
  (if Ascii.eqb c "0" then Some 0 else if Ascii.eqb c "1" then Some 1
   else if Ascii.eqb c "2" then Some 2 else if Ascii.eqb c "3" then Some 3
   else if Ascii.eqb c "4" then Some 4 else if Ascii.eqb c "5" then Some 5
   else if Ascii.eqb c "6" then Some 6 else if Ascii.eqb c "7" then Some 7
   else if Ascii.eqb c "8" then Some 8 else if Ascii.eqb c "9" then Some 9
   else if Ascii.eqb c "a" then Some 10 else if Ascii.eqb c "b" then Some 11
   else if Ascii.eqb c "c" then Some 12 else if Ascii.eqb c "d" then Some 13
   else if Ascii.eqb c "e" then Some 14 else if Ascii.eqb c "f" then Some 15
   else None)%char.

Fixpoint parseHex (acc : Z) (s : string) : option Z :=
  match s with
  | EmptyString => Some acc
  | String c s' =>
      match hexValue c with
      | Some d => parseHex (16 * acc + d) s'
      | None => None
      end
  end.

(** The line feed, written [\n] in the sources. *)
Definition newline : string := String "010"%char EmptyString.

(** Truthiness of a string: only the empty string is falsy. *)
Definition truthy (s : string) : bool := negb (String.eqb s EmptyString).

(** [xs.join(sep)] *)
Fixpoint join (sep : string) (xs : list string) : string :=
  match xs with
  | [] => EmptyString
  | [x] => x
  | x :: rest => x +:+ sep +:+ join sep rest
  end.

(** [s.endsWith(suffix)] *)
Definition endsWith (s suffix : string) : bool :=
  let n := String.length s in
  let k := String.length suffix in
  (k <=? n)%nat && String.eqb (String.substring (n - k) k s) suffix.


End Js.

(** The hash loop of the constructor:
    [hash = ((hash << 5) - hash) + str.charCodeAt(i); hash |= 0]. *)
Definition hashStep (hash c : Z) : Z :=
  Js.bor (Js.shl hash 5 - hash + c) 0.

Definition hashCode (codes : list Z) : Z := fold_left hashStep codes 0%Z.

(** The accumulation in the words of the specification: multiply by 31, add
    the code, wrap to 32 bits. *)
Definition hashStep_spec (hash c : Z) : Z := Js.toInt32 (hash * 31 + c).

Definition hashCode_spec (codes : list Z) : Z :=
  fold_left hashStep_spec codes 0%Z.

(** ** Insertion-ordered [Map] *)
Module JsMap.
Section Ordered.
Context {K V : Type} `{EqDecision K}.

(** [m.set(k, v)]: an existing key keeps its position, a new one goes
    last. *)
Fixpoint set (k : K) (v : V) (m : list (K * V)) : list (K * V) :=
  match m with
  | [] => [(k, v)]
  | (k', v') :: rest =>
      if decide (k' = k) then (k, v) :: rest else (k', v') :: set k v rest
  end.
End Ordered.
End JsMap.

(** ** [mod.ts]: values, cache, process state *)

Record JsFunction := { fn_ref : nat; fn_text : string }.

Inductive JsValue :=
| VUndefined
| VString (s : string)
| VFunction (f : JsFunction).

Global Instance JsFunction_eq_dec : EqDecision JsFunction.
Proof. solve_decision. Defined.

Global Instance JsValue_eq_dec : EqDecision JsValue.
Proof. solve_decision. Defined.

(** A string is a value. *)
Coercion VString : string >-> JsValue.

Definition isFunction (v : JsValue) : bool :=
  match v with VFunction _ => true | _ => false end.

(** [`${v}`]: a value rendered in a template literal; for a function this
    is also [v.toString()]. *)
Definition toStr (v : JsValue) : string :=
  match v with
  | VString s => s
  | VFunction f => fn_text f
  | VUndefined => "undefined"
  end.

(** [if (v)] *)
Definition truthyValue (v : JsValue) : bool :=
  match v with
  | VString s => Js.truthy s
  | VFunction _ => true
  | VUndefined => false
  end.

(** An object, as the map of its own properties. *)
Abbreviation JsObject := (gmap string JsValue).

(** [o[k]] for an own property of [o]. *)
Definition prop (o : JsObject) (k : string) : JsValue :=
  default VUndefined (o !! k).

(** [`${o[k]}`]: the property rendered in a template literal; for a
    function this is also [o[k].toString()]. *)
Definition strProp (o : JsObject) (k : string) : string :=
  match o !! k with
  | Some (VString s) => s
  | Some (VFunction f) => fn_text f
  | _ => "undefined"
  end.

(** A function of the host, by the name it was given; its text is what
    [toString] gives for it. *)
Definition nativeFunction (ref : nat) (name : string) : JsValue :=
  VFunction {| fn_ref := ref;
               fn_text := "function " +:+ name +:+ "() { [native code] }" |}.

(** [Object.prototype], from which every plain object inherits: the
    members that ECMAScript gives it on every host. ([__proto__] is not
    among them: Deno, which runs [mod.ts] and [build.ts], removes it; see
    [Client.inTarget] for the browser.) The identities of these functions
    are theirs alone. *)
Definition objectPrototype : JsObject :=
  {[ "constructor" := nativeFunction 1000 "Object";
     "__defineGetter__" := nativeFunction 1001 "__defineGetter__";
     "__defineSetter__" := nativeFunction 1002 "__defineSetter__";
     "hasOwnProperty" := nativeFunction 1003 "hasOwnProperty";
     "__lookupGetter__" := nativeFunction 1004 "__lookupGetter__";
     "__lookupSetter__" := nativeFunction 1005 "__lookupSetter__";
     "isPrototypeOf" := nativeFunction 1006 "isPrototypeOf";
     "propertyIsEnumerable" := nativeFunction 1007 "propertyIsEnumerable";
     "toString" := nativeFunction 1008 "toString";
     "valueOf" := nativeFunction 1009 "valueOf";
     "toLocaleString" := nativeFunction 1010 "toLocaleString" ]}.

(** [o[k]] for a property declared [string | undefined]. *)
Definition optProp (o : JsObject) (k : string) : option string :=
  match o !! k with
  | Some (VString s) => Some s
  | _ => None
  end.

Record FileEntry := {
  mtimeMs : Z;
  handlersOf : gmap string string   (* the [handlers] field of a cache entry *)
}.

(** [handlers[fnName]] on the [handlers] object of a cache entry, a plain
    object: its own entry of that name or, when it has none, the member of
    [Object.prototype] of that name. *)
Definition getHandler (handlers : gmap string string) (fnName : string)
    : option JsValue :=
  match handlers !! fnName with
  | Some filename => Some (VString filename)
  | None => objectPrototype !! fnName
  end.

Record ClientFunctionCacheV1 := {
  version : Z;
  files : gmap string FileEntry
}.

(** What [JSON.parse] gives for the cache file: a
    [Partial<ClientFunctionCacheV1>]. *)
Record ParsedCache := {
  parsed_version : option Z;
  parsed_files : option (gmap string FileEntry)
}.

Record TransformOptions := {
  loader : string;
  format : string;
  target : list string;
  sourcemap : bool;
  minify : option bool    (* [None]: the option is not passed *)
}.

(** esbuild minifies only when [minify] is passed and true. *)
Definition minifies (o : TransformOptions) : bool := default false (minify o).

(** The world outside the process at the time of one call. *)
Record World := {
  (** [JSON.parse(Deno.readTextFileSync(CACHE_PATH))]; [None] when either
      throws or the document is [null]. *)
  readCacheFile : option ParsedCache;
  (** [Deno.statSync(new URL(u)).mtime?.getTime()]; [None] when the call
      throws or the file has no modification time. *)
  statMtime : string -> option Z;
  (** whether [Deno.writeTextFileSync(CACHE_PATH, ...)] succeeds *)
  writeCacheFile : bool;
  (** [esbuild.transform]; [None] when the promise is rejected *)
  esbuildTransform : string -> TransformOptions -> option string;
  (** whether [Deno.writeTextFile(`${publicDir}/${name}`, content)] is
      fulfilled, by [name] and [content] *)
  writeTextFile : string -> string -> bool
}.

Record State := {
  cacheLoaded : bool;
  cacheDirty : bool;
  cacheFlushScheduled : bool;
  cache : ClientFunctionCacheV1;
  sourceFileMtimeMemo : gmap string (option Z);
  (** [handlers], keyed by the identity of the function object *)
  handlers : list (nat * JsObject);
  importsBySourceFileUrl : gmap string (list (string * JsValue));
  (** the [name] property of the function objects seen so far *)
  functionName : gmap nat string;
  (** effects on the outside, oldest first *)
  microtasks : nat;                          (* queued flush callbacks *)
  console : list (list string);              (* arguments of each log call *)
  statCalls : list string;                   (* arguments of [Deno.statSync] *)
  cacheWrites : list ClientFunctionCacheV1;  (* documents written to disk *)
  transformCalls : list (string * TransformOptions)
}.

Definition initialState : State := {|
  cacheLoaded := false; cacheDirty := false; cacheFlushScheduled := false;
  cache := {| version := 1; files := ∅ |};
  sourceFileMtimeMemo := ∅;
  handlers := [];
  importsBySourceFileUrl := ∅;
  functionName := ∅;
  microtasks := 0; console := []; statCalls := []; cacheWrites := [];
  transformCalls := []
|}.

Definition with_cacheLoaded (b : bool) (st : State) : State :=
  {| cacheLoaded := b; cacheDirty := cacheDirty st;
     cacheFlushScheduled := cacheFlushScheduled st; cache := cache st;
     sourceFileMtimeMemo := sourceFileMtimeMemo st; handlers := handlers st;
     importsBySourceFileUrl := importsBySourceFileUrl st;
     functionName := functionName st; microtasks := microtasks st;
     console := console st; statCalls := statCalls st;
     cacheWrites := cacheWrites st; transformCalls := transformCalls st |}.

Definition with_cacheDirty (b : bool) (st : State) : State :=
  {| cacheLoaded := cacheLoaded st; cacheDirty := b;
     cacheFlushScheduled := cacheFlushScheduled st; cache := cache st;
     sourceFileMtimeMemo := sourceFileMtimeMemo st; handlers := handlers st;
     importsBySourceFileUrl := importsBySourceFileUrl st;
     functionName := functionName st; microtasks := microtasks st;
     console := console st; statCalls := statCalls st;
     cacheWrites := cacheWrites st; transformCalls := transformCalls st |}.

Definition with_cacheFlushScheduled (b : bool) (st : State) : State :=
  {| cacheLoaded := cacheLoaded st; cacheDirty := cacheDirty st;
     cacheFlushScheduled := b; cache := cache st;
     sourceFileMtimeMemo := sourceFileMtimeMemo st; handlers := handlers st;
     importsBySourceFileUrl := importsBySourceFileUrl st;
     functionName := functionName st; microtasks := microtasks st;
     console := console st; statCalls := statCalls st;
     cacheWrites := cacheWrites st; transformCalls := transformCalls st |}.

Definition with_cache (c : ClientFunctionCacheV1) (st : State) : State :=
  {| cacheLoaded := cacheLoaded st; cacheDirty := cacheDirty st;
     cacheFlushScheduled := cacheFlushScheduled st; cache := c;
     sourceFileMtimeMemo := sourceFileMtimeMemo st; handlers := handlers st;
     importsBySourceFileUrl := importsBySourceFileUrl st;
     functionName := functionName st; microtasks := microtasks st;
     console := console st; statCalls := statCalls st;
     cacheWrites := cacheWrites st; transformCalls := transformCalls st |}.

Definition with_memo (m : gmap string (option Z)) (st : State) : State :=
  {| cacheLoaded := cacheLoaded st; cacheDirty := cacheDirty st;
     cacheFlushScheduled := cacheFlushScheduled st; cache := cache st;
     sourceFileMtimeMemo := m; handlers := handlers st;
     importsBySourceFileUrl := importsBySourceFileUrl st;
     functionName := functionName st; microtasks := microtasks st;
     console := console st; statCalls := statCalls st;
     cacheWrites := cacheWrites st; transformCalls := transformCalls st |}.

Definition with_handlers (h : list (nat * JsObject)) (st : State) : State :=
  {| cacheLoaded := cacheLoaded st; cacheDirty := cacheDirty st;
     cacheFlushScheduled := cacheFlushScheduled st; cache := cache st;
     sourceFileMtimeMemo := sourceFileMtimeMemo st; handlers := h;
     importsBySourceFileUrl := importsBySourceFileUrl st;
     functionName := functionName st; microtasks := microtasks st;
     console := console st; statCalls := statCalls st;
     cacheWrites := cacheWrites st; transformCalls := transformCalls st |}.

Definition with_imports (i : gmap string (list (string * JsValue)))
    (st : State) : State :=
  {| cacheLoaded := cacheLoaded st; cacheDirty := cacheDirty st;
     cacheFlushScheduled := cacheFlushScheduled st; cache := cache st;
     sourceFileMtimeMemo := sourceFileMtimeMemo st; handlers := handlers st;
     importsBySourceFileUrl := i;
     functionName := functionName st; microtasks := microtasks st;
     console := console st; statCalls := statCalls st;
     cacheWrites := cacheWrites st; transformCalls := transformCalls st |}.

Definition with_functionName (f : gmap nat string) (st : State) : State :=
  {| cacheLoaded := cacheLoaded st; cacheDirty := cacheDirty st;
     cacheFlushScheduled := cacheFlushScheduled st; cache := cache st;
     sourceFileMtimeMemo := sourceFileMtimeMemo st; handlers := handlers st;
     importsBySourceFileUrl := importsBySourceFileUrl st;
     functionName := f; microtasks := microtasks st;
     console := console st; statCalls := statCalls st;
     cacheWrites := cacheWrites st; transformCalls := transformCalls st |}.

Definition with_microtasks (n : nat) (st : State) : State :=
  {| cacheLoaded := cacheLoaded st; cacheDirty := cacheDirty st;
     cacheFlushScheduled := cacheFlushScheduled st; cache := cache st;
     sourceFileMtimeMemo := sourceFileMtimeMemo st; handlers := handlers st;
     importsBySourceFileUrl := importsBySourceFileUrl st;
     functionName := functionName st; microtasks := n;
     console := console st; statCalls := statCalls st;
     cacheWrites := cacheWrites st; transformCalls := transformCalls st |}.

Definition with_console (c : list (list string)) (st : State) : State :=
  {| cacheLoaded := cacheLoaded st; cacheDirty := cacheDirty st;
     cacheFlushScheduled := cacheFlushScheduled st; cache := cache st;
     sourceFileMtimeMemo := sourceFileMtimeMemo st; handlers := handlers st;
     importsBySourceFileUrl := importsBySourceFileUrl st;
     functionName := functionName st; microtasks := microtasks st;
     console := c; statCalls := statCalls st;
     cacheWrites := cacheWrites st; transformCalls := transformCalls st |}.

Definition with_statCalls (c : list string) (st : State) : State :=
  {| cacheLoaded := cacheLoaded st; cacheDirty := cacheDirty st;
     cacheFlushScheduled := cacheFlushScheduled st; cache := cache st;
     sourceFileMtimeMemo := sourceFileMtimeMemo st; handlers := handlers st;
     importsBySourceFileUrl := importsBySourceFileUrl st;
     functionName := functionName st; microtasks := microtasks st;
     console := console st; statCalls := c;
     cacheWrites := cacheWrites st; transformCalls := transformCalls st |}.

Definition with_cacheWrites (c : list ClientFunctionCacheV1)
    (st : State) : State :=
  {| cacheLoaded := cacheLoaded st; cacheDirty := cacheDirty st;
     cacheFlushScheduled := cacheFlushScheduled st; cache := cache st;
     sourceFileMtimeMemo := sourceFileMtimeMemo st; handlers := handlers st;
     importsBySourceFileUrl := importsBySourceFileUrl st;
     functionName := functionName st; microtasks := microtasks st;
     console := console st; statCalls := statCalls st;
     cacheWrites := c; transformCalls := transformCalls st |}.

Definition with_transformCalls (c : list (string * TransformOptions))
    (st : State) : State :=
  {| cacheLoaded := cacheLoaded st; cacheDirty := cacheDirty st;
     cacheFlushScheduled := cacheFlushScheduled st; cache := cache st;
     sourceFileMtimeMemo := sourceFileMtimeMemo st; handlers := handlers st;
     importsBySourceFileUrl := importsBySourceFileUrl st;
     functionName := functionName st; microtasks := microtasks st;
     console := console st; statCalls := statCalls st;
     cacheWrites := cacheWrites st; transformCalls := c |}.

(** ** The monad of the module: state, and exceptions that keep it *)

Inductive Outcome (A : Type) :=
| Return (a : A)
| Throw (message : string).
Arguments Return {A} a.
Arguments Throw {A} message.

Definition M (A : Type) : Type := State -> Outcome A * State.

Definition ret {A} (a : A) : M A := fun st => (Return a, st).
Definition throw {A} (message : string) : M A := fun st => (Throw message, st).
Definition bind {A B} (m : M A) (k : A -> M B) : M B :=
  fun st =>
    match m st with
    | (Return a, st') => k a st'
    | (Throw e, st') => (Throw e, st')
    end.
Definition get : M State := fun st => (Return st, st).
Definition modify (f : State -> State) : M unit := fun st => (Return tt, f st).

Notation "'let!' x ':=' m 'in' k" := (bind m (fun x => k))
  (at level 10, x pattern, m at level 100, k at level 200).
Notation "m ';;' k" := (bind m (fun _ => k))
  (at level 100, k at level 200, right associativity).

(** ** [mod.ts]: the functions *)

Definition validCache (parsed : ParsedCache) : option ClientFunctionCacheV1 :=
  match parsed_version parsed, parsed_files parsed with
  | Some v, Some fs =>
      if (v =? 1)%Z then Some {| version := v; files := fs |} else None
  | _, _ => None
  end.

Definition loadCacheOnce (w : World) : M unit :=
  let! st := get in
  if cacheLoaded st then ret tt
  else
    modify (with_cacheLoaded true) ;;
    match readCacheFile w with
    | Some parsed =>
        match validCache parsed with
        | Some c => modify (with_cache c)
        | None => ret tt
        end
    | None => ret tt   (* ignore missing/invalid cache *)
    end.

Definition scheduleCacheFlush : M unit :=
  let! st := get in
  if negb (cacheDirty st) || cacheFlushScheduled st then ret tt
  else
    modify (with_cacheFlushScheduled true) ;;
    modify (fun st => with_microtasks (S (microtasks st)) st).

(** The callback given to [queueMicrotask], run when its turn comes. *)
Definition runCacheFlush (w : World) : M unit :=
  modify (fun st => with_microtasks (pred (microtasks st)) st) ;;
  modify (with_cacheFlushScheduled false) ;;
  let! st := get in
  if negb (cacheDirty st) then ret tt
  else if writeCacheFile w
  then modify (fun st => with_cacheWrites (cacheWrites st ++ [cache st]) st) ;;
       modify (with_cacheDirty false)
  else ret tt.   (* ignore write errors *)

Definition getSourceFileMtimeMs (w : World) (sourceFileUrl : string)
    : M (option Z) :=
  let! st := get in
  match sourceFileMtimeMemo st !! sourceFileUrl with
  | Some memo => ret memo
  | None =>
      modify (fun st => with_statCalls (statCalls st ++ [sourceFileUrl]) st) ;;
      let value := statMtime w sourceFileUrl in
      modify (fun st =>
        with_memo (<[sourceFileUrl := value]> (sourceFileMtimeMemo st)) st) ;;
      ret value
  end.

(** [getImportRegistry] returns a reference to a [Map] held in
    [importsBySourceFileUrl]; the embedding returns its key, and
    [registrySet] is [registry.set] through that reference. *)
Definition getImportRegistry (sourceFileUrl : option string) : M string :=
  let key := default "__global__" sourceFileUrl in
  let! st := get in
  match importsBySourceFileUrl st !! key with
  | Some _ => ret key
  | None =>
      modify (fun st =>
        with_imports (<[key := []]> (importsBySourceFileUrl st)) st) ;;
      ret key
  end.

Definition registryOf (st : State) (key : string)
    : list (string * JsValue) :=
  default [] (importsBySourceFileUrl st !! key).

Definition registrySet (key name : string) (filename : JsValue) : M unit :=
  modify (fun st =>
    with_imports
      (<[key := JsMap.set name filename (registryOf st key)]>
         (importsBySourceFileUrl st)) st).

(** [if (sourceFileUrl)]: a locator that is present and not empty. *)
Definition locator (sourceFileUrl : option string) : option string :=
  match sourceFileUrl with
  | Some u => if Js.truthy u then Some u else None
  | None => None
  end.

Definition setFileEntry (u : string) (e : FileEntry) : M unit :=
  modify (fun st =>
    with_cache {| version := version (cache st);
                  files := <[u := e]> (files (cache st)) |} st).

(** Lines 145-159 of the constructor: the modification time of the defining
    file, the invalidation of its cache entry, and the lookup. *)
Definition lookupCachedFilename (w : World) (fnName : string)
    (sourceFileUrl : option string) : M (option JsValue * option Z) :=
  match locator sourceFileUrl with
  | Some u =>
      let! sourceMtimeMs := getSourceFileMtimeMs w u in
      match sourceMtimeMs with
      | Some m =>
          let! st := get in
          (match files (cache st) !! u with
           | Some existingEntry =>
               if (mtimeMs existingEntry =? m)%Z then ret tt
               else
                 setFileEntry u {| mtimeMs := m; handlersOf := ∅ |} ;;
                 modify (with_cacheDirty true) ;;
                 scheduleCacheFlush
           | None =>
               setFileEntry u {| mtimeMs := m; handlersOf := ∅ |} ;;
               modify (with_cacheDirty true) ;;
               scheduleCacheFlush
           end) ;;
          let! st := get in
          ret (match files (cache st) !! u with
               | Some e => getHandler (handlersOf e) fnName
               | None => None
               end, Some m)
      | None => ret (None, None)
      end
  | None => ret (None, None)
  end.

(** [if (cachedFilename)] *)
Definition cacheHit (cachedFilename : option JsValue) : option JsValue :=
  match cachedFilename with
  | Some v => if truthyValue v then Some v else None
  | None => None
  end.

Definition hashedFilename (fnName : string) (fn : JsFunction) : string :=
  fnName +:+ "_" +:+
  Js.toString16 (Z.abs (hashCode (Js.charCodes (fn_text fn)))).

(** Lines 161-183 of the constructor. *)
Definition resolveFilename (fnName : string) (fn : JsFunction)
    (sourceFileUrl : option string)
    (cachedFilename : option JsValue) (sourceMtimeMs : option Z)
    : M JsValue :=
  match cacheHit cachedFilename with
  | Some v => ret v
  | None =>
      modify (fun st =>
        with_console
          (console st ++
             [["Generating filename for ClientFunction by hashing: "; fnName]])
          st) ;;
      let resolvedFilename := hashedFilename fnName fn in
      match locator sourceFileUrl, sourceMtimeMs with
      | Some u, Some m =>
          let! st := get in
          let entry :=
            default {| mtimeMs := m; handlersOf := ∅ |}
                    (files (cache st) !! u) in
          setFileEntry u
            {| mtimeMs := mtimeMs entry;
               handlersOf := <[fnName := resolvedFilename]> (handlersOf entry)
            |} ;;
          modify (with_cacheDirty true) ;;
          scheduleCacheFlush ;;
          ret (VString resolvedFilename)
      | _, _ => ret (VString resolvedFilename)
      end
  end.

Definition invocationString (filename : string) : string :=
  "handlers." +:+ filename +:+ "(this, event)".

(** Lines 185-196 of the constructor. *)
Definition finishConstruction (fnName : string) (fn : JsFunction)
    (sourceFileUrl : option string) (resolvedFilename : JsValue)
    : M JsObject :=
  modify (fun st =>
    with_functionName (<[fn_ref fn := fnName]> (functionName st)) st) ;;
  let this : JsObject := ∅ in
  let this := <["fnName" := VString fnName]> this in
  let this := <["fn" := VFunction fn]> this in
  let this := <["filename" := resolvedFilename]> this in
  let this :=
    <["sourceFileUrl" := from_option VString VUndefined sourceFileUrl]> this in
  let this :=
    <[fnName := VString (invocationString (strProp this "filename"))]> this in
  modify (fun st => with_handlers (JsMap.set (fn_ref fn) this (handlers st)) st) ;;
  let! registry := getImportRegistry sourceFileUrl in
  registrySet registry fnName (prop this "filename") ;;
  ret this.

(** [new ClientFunction(fnName, fn, sourceFileUrl)] *)
Definition ClientFunction (w : World) (fnName : string) (fn : JsValue)
    (sourceFileUrl : option string) : M JsObject :=
  match fn with
  | VFunction f =>
      loadCacheOnce w ;;
      let! (cachedFilename, sourceMtimeMs) :=
        lookupCachedFilename w fnName sourceFileUrl in
      let! resolvedFilename :=
        resolveFilename fnName f sourceFileUrl cachedFilename sourceMtimeMs in
      finishConstruction fnName f sourceFileUrl resolvedFilename
  | _ => throw "ClientFunction requires a function"
  end.

(** The method [register] of the class, lines 203-211. *)
Definition registerMethod (this : JsObject) (targetSourceFileUrl : string)
    : M JsObject :=
  let key := targetSourceFileUrl in
  let! registry := getImportRegistry (Some key) in
  registrySet registry (strProp this "fnName") (prop this "filename") ;;
  ret this.

(** [this.name(...)] on a wrapper finds the method [name] of the class
    unless the wrapper owns a property of that name. The only own property
    the constructor can give a wrapper under the name of a method is the
    invocation string of a handler of that name (line 191), and calling a
    string throws a [TypeError]. *)
Definition methodShadowed (this : JsObject) (name : string) : bool :=
  bool_decide (is_Some (this !! name)).

(** [this.register(targetSourceFileUrl)] *)
Definition register (this : JsObject) (targetSourceFileUrl : string)
    : M JsObject :=
  if methodShadowed this "register"
  then throw "TypeError: this.register is not a function"
  else registerMethod this targetSourceFileUrl.

Definition importLine (name filename : string) : string :=
  "import { default as " +:+ name +:+ " } from " +:+
  String "034"%char ("./" +:+ filename +:+ ".js" +:+ String "034"%char ";").

(** The loop of [buildCode] over [registry.entries()]; [selfImport] is the
    test before [continue]. *)
Definition selfImport (this : JsObject) (name : string) (filename : JsValue)
    : bool :=
  bool_decide (VString name = prop this "fnName")
  || bool_decide (filename = prop this "filename").

Fixpoint importLines (this : JsObject) (registry : list (string * JsValue))
    : list string :=
  match registry with
  | [] => []
  | (name, filename) :: rest =>
      if selfImport this name filename then importLines this rest
      else importLine name (toStr filename) :: importLines this rest
  end.

Definition functionCodeOf (this : JsObject)
    (registry : list (string * JsValue)) : string :=
  Js.join Js.newline (importLines this registry) +:+
  Js.newline +:+ "export default " +:+ strProp this "fn".

Definition buildCodeOptions : TransformOptions :=
  {| loader := "ts"; format := "esm"; target := ["esnext"];
     sourcemap := false; minify := None |}.

(** The method [buildCode] of the class, lines 217-247. It declares no
    parameter: an argument given by a caller is dropped. *)
Definition buildCodeMethod (w : World) (this : JsObject) : M string :=
  let! st := get in
  let fnDisplayName :=
    match this !! "fn" with
    | Some (VFunction f) => default "undefined" (functionName st !! fn_ref f)
    | _ => "undefined"
    end in
  modify (fun st =>
    with_console (console st ++ [["Building code for handler: "; fnDisplayName]])
      st) ;;
  let! registry := getImportRegistry (optProp this "sourceFileUrl") in
  let! st := get in
  let functionCode := functionCodeOf this (registryOf st registry) in
  modify (fun st =>
    with_console (console st ++ [["Function code: "; functionCode]]) st) ;;
  modify (fun st =>
    with_transformCalls
      (transformCalls st ++ [(functionCode, buildCodeOptions)]) st) ;;
  match esbuildTransform w functionCode buildCodeOptions with
  | Some code => ret code
  | None =>
      modify (fun st =>
        with_console (console st ++ [["Esbuild transform error: "; "err"]]) st) ;;
      ret functionCode
  end.

(** [this.buildCode(...)] *)
Definition buildCode (w : World) (this : JsObject) : M string :=
  if methodShadowed this "buildCode"
  then throw "TypeError: this.buildCode is not a function"
  else buildCodeMethod w this.

(** ** [build.ts]: the handler files and the cleanup of [buildScriptFiles] *)
Module Build.

Inductive Node :=
| File (content : string)
| Folder.

Definition isFile (n : Node) : bool :=
  match n with File _ => true | Folder => false end.

(** The output directory [publicDir]: its entries by name. *)
Abbreviation Directory := (gmap string Node).

(** Lines 179-201, for one registered handler; a rejected promise is a
    [Throw]. [Deno.stat] is fulfilled on any entry of that name. The task
    resolves to the [filename] of the handler, whatever value that is. *)
Definition buildHandler (w : World) (minify : bool) (handler : JsObject)
    (dir : Directory) : M (JsValue * Directory) :=
  let filename := prop handler "filename" in
  let name := toStr filename +:+ ".js" in
  let fileExists := bool_decide (is_Some (dir !! name)) in
  if fileExists then ret (filename, dir)
  else
    (* [handler.buildCode(minify)] *)
    let! functionCode := buildCode w handler in
    if writeTextFile w name functionCode
    then ret (filename, <[name := File functionCode]> dir)
    else throw "Deno.writeTextFile".




End Build.

(** ** [client.ts]: the handler proxy *)
Module Client.

Inductive PromiseState :=
| Pending
| Fulfilled (scriptContent : nat)   (* the default export, by identity *)
| Rejected.

Inductive PropertyKey :=
| KString (s : string)
| KSymbol (id : nat).

(** One evaluation of [import(specifier)] by the [get] trap. *)
Record Import := {
  specifier : string;
  callFunctionName : string;
  settled : PromiseState
}.

Record Proxy := {
  basePath : string;
  target : gmap string nat;
  imports : list Import       (* every [import()] evaluated, oldest first *)
}.

Definition createHandlerProxy (basePath : string) : Proxy :=
  {| basePath := basePath; target := ∅; imports := [] |}.

(** The two functions the [get] trap can return. *)
Inductive Callable :=
| Direct (prop : string)      (* calls [target[prop]] *)
| Deferred (load : nat).      (* awaits the promise of the import [load] *)

(** What [target] inherits under a name. [target] is a plain object of the
    browser: it inherits the members of [Object.prototype], here by their
    identity, and the accessor [__proto__], which gives [Object.prototype]
    itself, an object that is not a function ([None]). *)
Definition inherited (name : string) : option (option nat) :=
  if String.eqb name "__proto__" then Some None
  else
    match objectPrototype !! name with
    | Some (VFunction f) => Some (Some (fn_ref f))
    | _ => None
    end.

(** [prop in target]: an own property of [target], or an inherited one. *)
Definition inTarget (p : Proxy) (name : string) : bool :=
  bool_decide (is_Some (target p !! name))
  || bool_decide (is_Some (inherited name)).

(** [Reflect.get(target, prop, receiver)], when it is a function, by its
    identity. *)
Definition reflectGet (p : Proxy) (name : string) : option nat :=
  match target p !! name with
  | Some f => Some f
  | None => mjoin (inherited name)
  end.

(** The [get] trap. *)
Definition get (p : Proxy) (prop : PropertyKey) : option Callable * Proxy :=
  match prop with
  | KSymbol _ => (None, p)
  | KString name =>
      if inTarget p name then (Some (Direct name), p)
      else
        let i := {| specifier := basePath p +:+ "/" +:+ name +:+ ".js";
                    callFunctionName := name;
                    settled := Pending |} in
        (Some (Deferred (length (imports p))),
         {| basePath := basePath p; target := target p;
            imports := imports p ++ [i] |})
  end.

(** The host settles the promise of the import [load]; on fulfilment the
    [then] callback stores the default export in [target]. *)
Definition settle (p : Proxy) (load : nat) (result : option nat) : Proxy :=
  match imports p !! load with
  | Some i =>
      match settled i, result with
      | Pending, Some scriptContent =>
          {| basePath := basePath p;
             target := <[callFunctionName i := scriptContent]> (target p);
             imports :=
               <[load := {| specifier := specifier i;
                            callFunctionName := callFunctionName i;
                            settled := Fulfilled scriptContent |}]> (imports p) |}
      | Pending, None =>
          {| basePath := basePath p; target := target p;
             imports :=
               <[load := {| specifier := specifier i;
                            callFunctionName := callFunctionName i;
                            settled := Rejected |}]> (imports p) |}
      | _, _ => p
      end
  | None => p
  end.

(** What an invocation of a callable comes to. *)
Inductive Invocation :=
| Calls (scriptFunction : nat) (thisValue : JsValue) (rest : list JsValue)
| Awaits (load : nat)
| Fails.

Definition invoke (p : Proxy) (c : Callable) (args : list JsValue)
    : Invocation :=
  let thisValue := hd VUndefined args in
  let rest := tl args in
  match c with
  | Direct prop =>
      match reflectGet p prop with
      | Some f => Calls f thisValue rest
      | None => Fails
      end
  | Deferred load =>
      match settled <$> imports p !! load with
      | Some (Fulfilled f) => Calls f thisValue rest
      | Some Pending => Awaits load
      | _ => Fails
      end
  end.

(** [handlers.name(...args)]: a property access, then a call of what it
    returned. *)
Definition invokeByName (p : Proxy) (name : string) (args : list JsValue)
    : Invocation * Proxy :=
  match get p (KString name) with
  | (Some c, p') => (invoke p' c args, p')
  | (None, p') => (Fails, p')
  end.

(** The imports evaluated for one handler name. *)
Definition loadsOf (p : Proxy) (name : string) : list Import :=
  filter (fun i => callFunctionName i = name) (imports p).

End Client.
(** The resolved id of a registration: the constructor up to line 183. *)
Definition resolvedId (w : World) (fnName : string) (fn : JsFunction)
    (sourceFileUrl : option string) : M JsValue :=
  loadCacheOnce w ;;
  let! (cachedFilename, sourceMtimeMs) :=
    lookupCachedFilename w fnName sourceFileUrl in
  resolveFilename fnName fn sourceFileUrl cachedFilename sourceMtimeMs.

(** The value of [cachedFilename] at line 161 of a registration. *)
Definition cachedFilenameAt (w : World) (fnName : string)
    (sourceFileUrl : option string) (st : State) : option JsValue :=
  match (loadCacheOnce w ;; lookupCachedFilename w fnName sourceFileUrl) st with
  | (Return (cachedFilename, _), _) => cachedFilename
  | _ => None
  end.

(** The modification time a registration obtains for a locator: the memo
    when it has an entry, the file system otherwise. *)
Definition observedMtime (w : World) (st : State) (u : string) : option Z :=
  match sourceFileMtimeMemo st !! u with
  | Some memo => memo
  | None => statMtime w u
  end.

Definition hashingLine (fnName : string) : list string :=
  ["Generating filename for ClientFunction by hashing: "; fnName].

(** The cache entry of a file once lines 150-155 have run with the
    modification time [m]. *)
Definition entryAfterLookup (m : Z) (existingEntry : option FileEntry)
    : FileEntry :=
  match existingEntry with
  | Some e =>
      if (mtimeMs e =? m)%Z then e else {| mtimeMs := m; handlersOf := ∅ |}
  | None => {| mtimeMs := m; handlersOf := ∅ |}
  end.

(** The wrapper object built by lines 186-192. *)
Definition wrapperOf (fnName : string) (fn : JsFunction)
    (sourceFileUrl : option string) (resolvedFilename : JsValue) : JsObject :=
  <[fnName := VString (invocationString (toStr resolvedFilename))]>
    (<["sourceFileUrl" := from_option VString VUndefined sourceFileUrl]>
       (<["filename" := resolvedFilename]>
          (<["fn" := VFunction fn]> (<["fnName" := VString fnName]> ∅)))).

(** ** The life of a process *)

(** One event of a process: a registration, an alias registration, a
    handler build, or the turn of a queued cache flush. The world may have
    changed before each of them. *)
Inductive step : State -> State -> Prop :=
| step_ClientFunction w fnName fn sourceFileUrl st out st' :
    ClientFunction w fnName fn sourceFileUrl st = (out, st') -> step st st'
| step_register this targetSourceFileUrl st out st' :
    register this targetSourceFileUrl st = (out, st') -> step st st'
| step_buildCode w this st out st' :
    buildCode w this st = (out, st') -> step st st'
| step_runCacheFlush w st out st' :
    (0 < microtasks st)%nat ->
    runCacheFlush w st = (out, st') -> step st st'.

Definition reachable (st : State) : Prop := rtc step initialState st.

(** ** Notions used in the statements *)

(** [m] returns [a] from [st], leaving [st']: it does not throw. *)
Definition runs {A} (m : M A) (st : State) (a : A) (st' : State) : Prop :=
  m st = (Return a, st').

(** The part of the state the naming cache lives in. *)
Record same_naming (st st' : State) : Prop := {
  same_cacheLoaded : cacheLoaded st' = cacheLoaded st;
  same_cache : cache st' = cache st;
  same_memo : sourceFileMtimeMemo st' = sourceFileMtimeMemo st;
  same_statCalls : statCalls st' = statCalls st;
  same_console : console st' = console st
}.

(** What holds of the memo of modification times in every state a process
    reaches: the memo has an entry exactly for the locators passed to
    [Deno.statSync], none of them twice; nothing is memoized before the
    cache is loaded; and a memoized time is the one the cache records for
    the file. *)
Record naming_invariant (st : State) : Prop := {
  inv_stat_memo :
    forall u, u ∈ statCalls st <-> is_Some (sourceFileMtimeMemo st !! u);
  inv_stat_nodup : NoDup (statCalls st);
  inv_unloaded : cacheLoaded st = false -> sourceFileMtimeMemo st = ∅;
  inv_memo_cache :
    forall u m, sourceFileMtimeMemo st !! u = Some (Some m) ->
      exists e, files (cache st) !! u = Some e /\ mtimeMs e = m
}.

(** A name under which a plain object inherits nothing, whatever the
    host: not the name of a member of [Object.prototype], and not
    [__proto__]. *)
Definition plainName (name : string) : Prop :=
  objectPrototype !! name = None /\ name <> "__proto__".

(** The cache is loaded and its entry for the file [u], under the time the
    memo has for it, gives the value [v] for the handler name [n]: an id it
    holds, or what a plain object inherits under that name. *)
Definition servedFor (u n : string) (v : JsValue) (st : State) : Prop :=
  cacheLoaded st = true
  /\ exists m e,
       sourceFileMtimeMemo st !! u = Some (Some m)
       /\ files (cache st) !! u = Some e
       /\ mtimeMs e = m
       /\ getHandler (handlersOf e) n = Some v.

(** The cache is loaded and holds, for the file [u] and under the time the
    memo has for it, the id [id] of the handler [n]. *)
Definition cachedFor (u n id : string) (st : State) : Prop :=
  cacheLoaded st = true
  /\ exists m e,
       sourceFileMtimeMemo st !! u = Some (Some m)
       /\ files (cache st) !! u = Some e
       /\ mtimeMs e = m
       /\ handlersOf e !! n = Some id.

(** Unfolding of the monad and of the state setters. *)
Ltac unfold_state :=
  cbv [with_cacheLoaded with_cacheDirty with_cacheFlushScheduled with_cache
       with_memo with_handlers with_imports with_functionName with_microtasks
       with_console with_statCalls with_cacheWrites with_transformCalls
       cacheLoaded cacheDirty cacheFlushScheduled cache sourceFileMtimeMemo
       handlers importsBySourceFileUrl functionName microtasks console
       statCalls cacheWrites transformCalls] in *.

Ltac unfold_m := cbv [bind ret modify get throw] in *.


(** ** Concrete worlds and inputs used in the examples *)

Definition worldAt (mtime : option Z) : World :=
  {| readCacheFile := None;
     statMtime := fun _ => mtime;
     writeCacheFile := true;
     esbuildTransform := fun _ _ => None;
     writeTextFile := fun _ _ => true |}.

Definition pingFunction : JsFunction :=
  {| fn_ref := 0; fn_text := "function(){return 1}" |}.

Definition pongFunction : JsFunction :=
  {| fn_ref := 1; fn_text := "function(){return 2}" |}.

Definition pageUrl : string := "file:///app/page.ts".

(** A cache file written by an earlier process, when the page had the
    modification time 1. *)
Definition worldWithOldCache : World :=
  {| readCacheFile :=
       Some {| parsed_version := Some 1%Z;
               parsed_files :=
                 Some {[ pageUrl :=
                           {| mtimeMs := 1;
                              handlersOf := {[ "ping" := "ping_old";
                                               "pong" := "pong_old" ]} |} ]} |};
     statMtime := fun _ => Some 5%Z;
     writeCacheFile := true;
     esbuildTransform := fun _ _ => None;
     writeTextFile := fun _ _ => true |}.

(** The process after the registration of [ping] in [pageUrl], the page
    having the modification time 5. *)
Definition afterPing : State :=
  snd (ClientFunction (worldAt (Some 5%Z)) "ping" (VFunction pingFunction)
         (Some pageUrl) initialState).

(** The process after a registration in [pageUrl] made while the page could
    not be read. *)
Definition afterUnreadable : State :=
  snd (ClientFunction (worldAt None) "pong" (VFunction pongFunction)
         (Some pageUrl) initialState).

(** The process after the registrations of [ping] and [pong] in [pageUrl],
    and the wrapper of [pong]. *)
Definition afterPingPong : State :=
  snd (ClientFunction (worldAt (Some 5%Z)) "pong" (VFunction pongFunction)
         (Some pageUrl) afterPing).

Definition pongWrapper : JsObject :=
  wrapperOf "pong" pongFunction (Some pageUrl)
    (hashedFilename "pong" pongFunction).


(** ** Output directories used in the examples *)



(** ** Invocations through the proxy *)

(** [handlers.name(...)] once for each argument list, in order, with no
    promise settled in between. *)
Fixpoint invokeAll (p : Client.Proxy) (name : string)
    (calls : list (list JsValue)) : list Client.Invocation * Client.Proxy :=
  match calls with
  | [] => ([], p)
  | args :: rest =>
      let '(r, p1) := Client.invokeByName p name args in
      let '(rs, p2) := invokeAll p1 name rest in
      (r :: rs, p2)
  end.

(** ** Further notions: the hash, the cache file, the registries *)

(** The value of the hash loop without any wrapping: the polynomial in 31
    whose coefficients are the code units. *)
Definition hashPolynomial (codes : list Z) : Z :=
  fold_left (fun h c => (h * 31 + c)%Z) codes 0%Z.

Definition isHexDigit (c : ascii) : Prop := is_Some (Js.hexValue c).

(** The cache file after [JSON.stringify(cache, null, 2)] was written and
    read back by [JSON.parse]. *)
Definition writtenDocument (c : ClientFunctionCacheV1) : ParsedCache :=
  {| parsed_version := Some (version c); parsed_files := Some (files c) |}.

(** What one piece of the module may do to the flushing of the cache:
    nothing, or mark the cache dirty and see that one flush is queued. The
    cache stays loaded, its version stays, and nothing is written. *)
Record marks (st st' : State) : Prop := {
  marks_loaded : cacheLoaded st' = cacheLoaded st;
  marks_writes : cacheWrites st' = cacheWrites st;
  marks_version : version (cache st') = version (cache st);
  marks_flush :
    (cache st' = cache st /\ cacheDirty st' = cacheDirty st
     /\ cacheFlushScheduled st' = cacheFlushScheduled st
     /\ microtasks st' = microtasks st)
    \/ (cacheDirty st' = true /\ cacheFlushScheduled st' = true
        /\ microtasks st' =
             if cacheFlushScheduled st then microtasks st
             else S (microtasks st))
}.

(** What holds of the flushing of the cache in every state a process
    reaches. *)
Record flush_invariant (st : State) : Prop := {
  fi_microtasks :
    microtasks st = if cacheFlushScheduled st then 1 else 0;
  fi_unloaded :
    cacheLoaded st = false ->
    cacheWrites st = [] /\ cacheFlushScheduled st = false
    /\ cacheDirty st = false;
  fi_clean :
    cacheDirty st = false ->
    forall c, last (cacheWrites st) = Some c -> c = cache st;
  fi_version : version (cache st) = 1%Z;
  fi_written : Forall (fun c => version c = 1%Z) (cacheWrites st)
}.

(** Nothing that concerns the cache or its flushing is touched. *)
Record same_flush (st st' : State) : Prop := {
  sf_loaded : cacheLoaded st' = cacheLoaded st;
  sf_cache : cache st' = cache st;
  sf_dirty : cacheDirty st' = cacheDirty st;
  sf_scheduled : cacheFlushScheduled st' = cacheFlushScheduled st;
  sf_microtasks : microtasks st' = microtasks st;
  sf_writes : cacheWrites st' = cacheWrites st
}.

(** The registries of the module are left as they are. *)
Record same_registries (st st' : State) : Prop := {
  same_handlers : handlers st' = handlers st;
  same_imports : importsBySourceFileUrl st' = importsBySourceFileUrl st;
  same_functionName : functionName st' = functionName st
}.

(** The process of [afterPing] once its queued flush has run and written
    the cache file, and the world a later process then finds: that cache
    file, and the page with the modification time 5 still. *)
Definition afterPingFlushed : State :=
  snd (runCacheFlush (worldAt (Some 5%Z)) afterPing).

Definition worldAfterRestart : World :=
  {| readCacheFile := Some (writtenDocument (cache afterPing));
     statMtime := fun _ => Some 5%Z;
     writeCacheFile := true;
     esbuildTransform := fun _ _ => None;
     writeTextFile := fun _ _ => true |}.

(** A world whose cache file is of another version. *)
Definition worldWithForeignCache : World :=
  {| readCacheFile :=
       Some {| parsed_version := Some 2%Z;
               parsed_files :=
                 Some {[ pageUrl :=
                           {| mtimeMs := 5;
                              handlersOf := {[ "ping" := "ping_v2" ]} |} ]} |};
     statMtime := fun _ => Some 5%Z;
     writeCacheFile := true;
     esbuildTransform := fun _ _ => None;
     writeTextFile := fun _ _ => true |}.

(** ** [build.ts]: the client scripts and the bootstrap module *)
Module Script.

(** [c.toLowerCase()] for a code unit below 256. *)
Definition toLowerCaseChar (c : ascii) : ascii :=
  let n := nat_of_ascii c in
  if ((65 <=? n) && (n <=? 90))
     || ((192 <=? n) && (n <=? 222) && negb (n =? 215))
  then ascii_of_nat (n + 32) else c.

(** [s.toLowerCase()] *)
Fixpoint toLowerCase (s : string) : string :=
  match s with
  | EmptyString => EmptyString
  | String c s' => String (toLowerCaseChar c) (toLowerCase s')
  end.

(** [s] without its last [k] code units. *)
Definition dropLast (k : nat) (s : string) : string :=
  String.substring 0 (String.length s - k) s.

(** [fileName.replace(/\.(ts|tsx)$/i, empty)]: the pattern can only match
    a suffix of the name, whatever the case of its letters. *)
Definition stripScriptExtension (fileName : string) : string :=
  let lower := toLowerCase fileName in
  if Js.endsWith lower ".tsx" then dropLast 4 fileName
  else if Js.endsWith lower ".ts" then dropLast 3 fileName
  else fileName.

(** [fileName.toLowerCase().endsWith(".tsx") ? "tsx" : "ts"] *)
Definition loaderOf (fileName : string) : string :=
  if Js.endsWith (toLowerCase fileName) ".tsx" then "tsx" else "ts".

(** The file system and the transpiler as one call of a build task finds
    them. [stat] is [Deno.stat(path)] followed by [.mtime?.getTime()]:
    [None] when the promise is rejected, [Some None] when the entry has no
    modification time. *)
Record Env := {
  stat : string -> option (option Z);
  readTextFile : string -> option string;
  transform : string -> TransformOptions -> option string;
  writeTextFile : string -> string -> bool
}.

(** What a build task does to the outside, oldest first. *)
Inductive Effect :=
| Log (args : list string)
| Transform (code : string) (options : TransformOptions)
| WriteTextFile (path content : string).

(** [const log = verbose ? console.log.bind(console) : () => {}] *)
Definition log (verbose : bool) (args : list string) : list Effect :=
  if verbose then [Log args] else [].

Definition scriptOptions (loader : string) (minify : bool)
    : TransformOptions :=
  {| loader := loader; format := "esm"; target := ["esnext"];
     sourcemap := false; minify := Some minify |}.

(** [transpileClientFile(fileName, clientDir, publicDir, verbose, minify)];
    a rejected promise is a [Throw]. *)
Definition transpileClientFile (env : Env) (fileName clientDir publicDir : string)
    (verbose minify : bool) : Outcome string * list Effect :=
  let inPath := clientDir +:+ "/" +:+ fileName in
  let outBaseName := stripScriptExtension fileName in
  let outPath := publicDir +:+ "/" +:+ outBaseName +:+ ".js" in
  match stat env inPath with
  | None => (Throw "Deno.stat", [])
  | Some sourceMtimeMs =>
      let outMtimeMs :=
        match stat env outPath with
        | Some (Some t) => Some t
        | _ => None
        end in
      let upToDate :=
        match sourceMtimeMs, outMtimeMs with
        | Some s, Some o => (s <=? o)%Z
        | _, _ => false
        end in
      if upToDate
      then (Return outBaseName,
            log verbose ["Client script unchanged, skipping: " +:+ outPath])
      else
        match readTextFile env inPath with
        | None => (Throw "Deno.readTextFile", [])
        | Some inputCode =>
            let options := scriptOptions (loaderOf fileName) minify in
            match transform env inputCode options with
            | None => (Throw "esbuild.transform", [Transform inputCode options])
            | Some code =>
                if writeTextFile env outPath code
                then (Return outBaseName,
                      [Transform inputCode options; WriteTextFile outPath code]
                      ++ log verbose ["Client script written: " +:+ outPath])
                else (Throw "Deno.writeTextFile",
                      [Transform inputCode options])
            end
        end
  end.

(** The package as the bootstrap task finds it: the [version] of
    [deno.json] and the text of [client.ts], each [None] when it cannot be
    read. *)
Record Package := {
  packageVersion : option string;
  clientSource : option string
}.

Definition versionComment (version : string) : string :=
  "// @reece/client-functions v" +:+ version.

(** Lines 141-178: the task that builds [client.ts] as
    [clientFunctions.js]. *)
Definition buildClientFunctions (env : Env) (pkg : Package)
    (publicDir : string) (verbose minify : bool)
    : Outcome string * list Effect :=
  let clientFunctionsOut := publicDir +:+ "/clientFunctions.js" in
  match packageVersion pkg with
  | None => (Throw "deno.json", [])
  | Some version =>
      let existingCode := readTextFile env clientFunctionsOut in
      if match existingCode with
         | Some code => String.prefix (versionComment version) code
         | None => false
         end
      then (Return "clientFunctions",
            log verbose ["clientFunctions.js already up to date (v" +:+
                         version +:+ "), skipping."])
      else
        match clientSource pkg with
        | None => (Throw "client.ts", [])
        | Some inputCode =>
            let options := scriptOptions "ts" minify in
            match transform env inputCode options with
            | None => (Throw "esbuild.transform", [Transform inputCode options])
            | Some code =>
                let outputCode :=
                  versionComment version +:+ Js.newline +:+ code in
                if writeTextFile env clientFunctionsOut outputCode
                then (Return "clientFunctions",
                      [Transform inputCode options;
                       WriteTextFile clientFunctionsOut outputCode]
                      ++ log verbose ["clientFunctions.js written: " +:+
                                      clientFunctionsOut])
                else (Throw "Deno.writeTextFile",
                      [Transform inputCode options])
            end
        end
  end.

(** Lines 121-130: the names of the client scripts; [None] is a
    [clientDir] that cannot be read. *)
Definition scanClientFiles (entries : option (list (string * bool)))
    : list string :=
  match entries with
  | None => []
  | Some es =>
      map fst
        (List.filter
           (fun e => snd e
                     && (Js.endsWith (fst e) ".ts" || Js.endsWith (fst e) ".tsx"))
           es)
  end.


End Script.

(** ** A client directory used in the examples *)

(** [./client/app.tsx] was modified at time 10; [outMtime] is what
    [Deno.stat] gives for [./public/app.js], and [bootstrap] the text of
    [./public/clientFunctions.js]. The transpiler returns its input. *)
Definition clientEnv (outMtime : option (option Z)) (bootstrap : option string)
    : Script.Env :=
  {| Script.stat := fun path =>
       if String.eqb path "./client/app.tsx" then Some (Some 10%Z)
       else if String.eqb path "./public/app.js" then outMtime
       else None;
     Script.readTextFile := fun path =>
       if String.eqb path "./client/app.tsx" then Some "export const x = 1;"
       else if String.eqb path "./public/clientFunctions.js" then bootstrap
       else None;
     Script.transform := fun code _ => Some code;
     Script.writeTextFile := fun _ _ => true |}.

Definition examplePackage : Script.Package :=
  {| Script.packageVersion := Some "0.1.0";
     Script.clientSource := Some "setupHandlers();" |}.

(** ** The life of a proxy *)

(** One event of a proxy: a property access, or the settlement of one of
    its imports by the host. *)
Inductive proxyStep : Client.Proxy -> Client.Proxy -> Prop :=
| proxyStep_get p prop : proxyStep p (snd (Client.get p prop))
| proxyStep_settle p load result : proxyStep p (Client.settle p load result).
(** ** Arithmetic of the hash *)

Lemma fold_left_pointwise {A B} (f g : A -> B -> A) (l : list B) :
  (forall a b, f a b = g a b) ->
  forall a, fold_left f l a = fold_left g l a.
Proof.
  intros Hfg. induction l as [|b l IH]; intros a; [reflexivity|].
  cbn [fold_left]. rewrite Hfg. apply IH.
Qed.

Lemma fold_left_invariant {A B} (P : A -> Prop) (f : A -> B -> A) (l : list B) :
  (forall a b, P (f a b)) -> forall a, P a -> P (fold_left f l a).
Proof.
  intros Hf. induction l as [|b l IH]; intros a Ha; [exact Ha|].
  cbn [fold_left]. apply IH, Hf.
Qed.

Section Int32.
Local Open Scope Z_scope.

Lemma toInt32_range z : - 2 ^ 31 <= Js.toInt32 z < 2 ^ 31.
Proof.
  unfold Js.toInt32.
  pose proof (Z.mod_pos_bound (z + 2 ^ 31) (2 ^ 32) ltac:(lia)). lia.
Qed.

Lemma toInt32_small z : - 2 ^ 31 <= z < 2 ^ 31 -> Js.toInt32 z = z.
Proof.
  intros Hz. unfold Js.toInt32. rewrite Z.mod_small; lia.
Qed.

Lemma toInt32_congr a b :
  a mod 2 ^ 32 = b mod 2 ^ 32 -> Js.toInt32 a = Js.toInt32 b.
Proof.
  intros Hab. unfold Js.toInt32.
  rewrite (Z.add_mod a), (Z.add_mod b), Hab by lia. reflexivity.
Qed.

Lemma toInt32_mod a : Js.toInt32 a mod 2 ^ 32 = a mod 2 ^ 32.
Proof.
  unfold Js.toInt32.
  rewrite Zminus_mod, Z.mod_mod, <- Zminus_mod by lia.
  f_equal. lia.
Qed.

Lemma toInt32_idem a : Js.toInt32 (Js.toInt32 a) = Js.toInt32 a.
Proof. apply toInt32_small, toInt32_range. Qed.

Lemma bor_zero a : Js.bor a 0 = Js.toInt32 a.
Proof.
  unfold Js.bor. rewrite (toInt32_small 0) by lia.
  rewrite Z.lor_0_r. apply toInt32_idem.
Qed.

Lemma shl_5 a : Js.shl a 5 = Js.toInt32 (a * 32).
Proof.
  unfold Js.shl. change (5 mod 32) with 5.
  rewrite Z.shiftl_mul_pow2 by lia. change (2 ^ 5) with 32.
  apply toInt32_congr.
  rewrite Z.mul_mod, toInt32_mod, <- Z.mul_mod by lia. reflexivity.
Qed.

Lemma hashStep_is_spec h c : hashStep h c = hashStep_spec h c.
Proof.
  unfold hashStep, hashStep_spec. rewrite bor_zero, shl_5.
  apply toInt32_congr.
  rewrite Z.add_mod, Zminus_mod, toInt32_mod, <- Zminus_mod, <- Z.add_mod by lia.
  f_equal. lia.
Qed.

Lemma hashCode_is_spec codes : hashCode codes = hashCode_spec codes.
Proof. apply fold_left_pointwise, hashStep_is_spec. Qed.

Lemma hashCode_range codes : - 2 ^ 31 <= hashCode codes < 2 ^ 31.
Proof.
  rewrite hashCode_is_spec.
  apply (fold_left_invariant (fun h => - 2 ^ 31 <= h < 2 ^ 31)); [|lia].
  intros h c. apply toInt32_range.
Qed.

End Int32.
Section Hex.
Local Open Scope Z_scope.

Lemma hexValue_hexDigit d : 0 <= d < 16 -> Js.hexValue (Js.hexDigit d) = Some d.
Proof.
  intros Hd.
  assert (Hcases : d = 0 \/ d = 1 \/ d = 2 \/ d = 3 \/ d = 4 \/ d = 5 \/ d = 6
                   \/ d = 7 \/ d = 8 \/ d = 9 \/ d = 10 \/ d = 11 \/ d = 12
                   \/ d = 13 \/ d = 14 \/ d = 15) by lia.
  repeat (destruct Hcases as [-> | Hcases]; [reflexivity|]).
  subst d. reflexivity.
Qed.

Lemma parseHex_hexDigits fuel : forall n acc,
  0 <= n < 16 ^ Z.of_nat fuel ->
  exists d, 0 <= d /\ forall a,
    Js.parseHex a (Js.hexDigits fuel n acc) = Js.parseHex (a * 16 ^ d + n) acc.
Proof.
  induction fuel as [|fuel IH]; intros n acc Hn.
  - simpl in Hn. exists 0. split; [lia|]. intros a. simpl.
    f_equal. lia.
  - cbn [Js.hexDigits]. destruct (n <? 16) eqn:Hlt.
    + apply Z.ltb_lt in Hlt. exists 1. split; [lia|]. intros a.
      cbn [Js.parseHex]. rewrite Z.mod_small by lia.
      rewrite hexValue_hexDigit by lia. f_equal. lia.
    + apply Z.ltb_ge in Hlt.
      destruct (IH (n / 16) (String (Js.hexDigit (n mod 16)) acc)) as (d & Hd & Hparse).
      { split; [apply Z.div_pos; lia|].
        apply Z.div_lt_upper_bound; [lia|].
        rewrite Nat2Z.inj_succ, Z.pow_succ_r in Hn by lia. lia. }
      exists (d + 1). split; [lia|]. intros a.
      rewrite Hparse. cbn [Js.parseHex].
      rewrite hexValue_hexDigit by (apply Z.mod_pos_bound; lia).
      f_equal. rewrite Z.pow_add_r by lia.
      pose proof (Z.div_mod n 16 ltac:(lia)). lia.
Qed.

(** [toString16] renders its argument: reading the numeral back gives it. *)
Lemma parseHex_toString16 n : 0 <= n -> Js.parseHex 0 (Js.toString16 n) = Some n.
Proof.
  intros Hn. unfold Js.toString16.
  destruct (n <? 0) eqn:Hneg; [apply Z.ltb_lt in Hneg; lia|].
  destruct (parseHex_hexDigits (S (Z.to_nat (Z.log2 n))) n EmptyString) as (d & _ & Hparse).
  { split; [lia|].
    rewrite Nat2Z.inj_succ, Z2Nat.id by apply Z.log2_nonneg.
    destruct (Z.eq_dec n 0) as [-> | Hne]; [reflexivity|].
    pose proof (Z.log2_spec n ltac:(lia)) as [_ Hup].
    eapply Z.lt_le_trans; [exact Hup|].
    pose proof (Z.log2_nonneg n).
    change 16 with (2 ^ 4). rewrite <- Z.pow_mul_r by lia.
    apply Z.pow_le_mono_r; lia. }
  rewrite Hparse. reflexivity.
Qed.
End Hex.
Lemma loadCacheOnce_returns w st :
  exists st', loadCacheOnce w st = (Return tt, st')
    /\ cacheLoaded st' = true
    /\ sourceFileMtimeMemo st' = sourceFileMtimeMemo st
    /\ console st' = console st
    /\ statCalls st' = statCalls st
    /\ (cacheLoaded st = true -> st' = st).
Proof.
  unfold loadCacheOnce. unfold_m.
  destruct (cacheLoaded st) eqn:Hl.
  - exists st. repeat split; auto.
  - destruct (readCacheFile w) as [parsed|]; [destruct (validCache parsed)|];
      eexists; (split; [reflexivity|]); repeat split; auto; discriminate.
Qed.
(** ** Running the monad *)

Lemma runs_bind {A B} (m : M A) (k : A -> M B) st a st1 b st2 :
  runs m st a st1 -> runs (k a) st1 b st2 -> runs (bind m k) st b st2.
Proof. unfold runs, bind. intros -> ->. reflexivity. Qed.

Lemma bind_runs {A B} (m : M A) (k : A -> M B) st a st1 :
  runs m st a st1 -> bind m k st = k a st1.
Proof. unfold runs, bind. intros ->. reflexivity. Qed.

Lemma same_naming_refl st : same_naming st st.
Proof. by constructor. Qed.

Lemma same_naming_trans st1 st2 st3 :
  same_naming st1 st2 -> same_naming st2 st3 -> same_naming st1 st3.
Proof. intros [] []. constructor; congruence. Qed.

Lemma scheduleCacheFlush_runs st :
  exists st', runs scheduleCacheFlush st tt st' /\ same_naming st st'
    /\ cacheDirty st' = cacheDirty st.
Proof.
  unfold runs, scheduleCacheFlush. unfold_m.
  destruct (negb (cacheDirty st) || cacheFlushScheduled st);
    eexists; (split; [reflexivity|]); split; try reflexivity; by constructor.
Qed.

Lemma getImportRegistry_runs url st :
  exists st', runs (getImportRegistry url) st (default "__global__" url) st'
    /\ same_naming st st' /\ handlers st' = handlers st.
Proof.
  unfold runs, getImportRegistry. unfold_m.
  destruct (importsBySourceFileUrl st !! default "__global__" url);
    eexists; (split; [reflexivity|]); split; try reflexivity; by constructor.
Qed.

Lemma registrySet_runs key name filename st :
  exists st', runs (registrySet key name filename) st tt st'
    /\ same_naming st st' /\ handlers st' = handlers st.
Proof.
  unfold runs, registrySet. unfold_m.
  eexists; (split; [reflexivity|]); split; try reflexivity; by constructor.
Qed.

Lemma getSourceFileMtimeMs_memo w u st v :
  sourceFileMtimeMemo st !! u = Some v ->
  runs (getSourceFileMtimeMs w u) st v st.
Proof.
  intros Hm. unfold runs, getSourceFileMtimeMs. unfold_m.
  unfold_state. destruct st; simpl in *. rewrite Hm. reflexivity.
Qed.

Lemma getSourceFileMtimeMs_fresh w u st :
  sourceFileMtimeMemo st !! u = None ->
  exists st', runs (getSourceFileMtimeMs w u) st (statMtime w u) st'
    /\ cacheLoaded st' = cacheLoaded st /\ cache st' = cache st
    /\ console st' = console st
    /\ sourceFileMtimeMemo st' = <[u := statMtime w u]> (sourceFileMtimeMemo st)
    /\ statCalls st' = statCalls st ++ [u].
Proof.
  intros Hm. unfold runs, getSourceFileMtimeMs. unfold_m.
  destruct st; simpl in *. rewrite Hm.
  eexists; split; [reflexivity|]. by repeat split.
Qed.

Lemma getSourceFileMtimeMs_runs w u st :
  exists st', runs (getSourceFileMtimeMs w u) st (observedMtime w st u) st'
    /\ cacheLoaded st' = cacheLoaded st /\ cache st' = cache st
    /\ console st' = console st
    /\ sourceFileMtimeMemo st' !! u = Some (observedMtime w st u)
    /\ (forall u', u' <> u ->
          sourceFileMtimeMemo st' !! u' = sourceFileMtimeMemo st !! u')
    /\ (is_Some (sourceFileMtimeMemo st !! u) -> st' = st)
    /\ (sourceFileMtimeMemo st !! u = None ->
          statCalls st' = statCalls st ++ [u]
          /\ sourceFileMtimeMemo st' = <[u := statMtime w u]> (sourceFileMtimeMemo st)).
Proof.
  unfold observedMtime.
  destruct (sourceFileMtimeMemo st !! u) as [v|] eqn:Hm.
  - exists st. split; [by apply getSourceFileMtimeMs_memo|].
    repeat split; auto; discriminate.
  - destruct (getSourceFileMtimeMs_fresh w u st Hm)
      as (st' & Hrun & Hl & Hc & Hcon & Hmemo & Hstat).
    exists st'. split; [exact Hrun|]. repeat split; auto.
    + rewrite Hmemo. apply lookup_insert_eq.
    + intros u' Hne. rewrite Hmemo. by apply lookup_insert_ne.
    + intros [? ?]; discriminate.
Qed.
Lemma lookupCachedFilename_no_locator w n url st :
  locator url = None ->
  runs (lookupCachedFilename w n url) st (None, None) st.
Proof.
  intros Hloc. unfold runs, lookupCachedFilename. rewrite Hloc. reflexivity.
Qed.

Lemma setFileEntry_runs u e st :
  exists st', runs (setFileEntry u e) st tt st'
    /\ cacheLoaded st' = cacheLoaded st
    /\ sourceFileMtimeMemo st' = sourceFileMtimeMemo st
    /\ statCalls st' = statCalls st /\ console st' = console st
    /\ files (cache st') = <[u := e]> (files (cache st)).
Proof.
  unfold runs, setFileEntry. unfold_m.
  eexists; split; [reflexivity|]. by repeat split.
Qed.

Lemma set_dirty_runs b st :
  exists st', runs (modify (with_cacheDirty b)) st tt st' /\ same_naming st st'.
Proof.
  unfold runs. unfold_m. eexists; split; [reflexivity|]. by constructor.
Qed.

(** Storing an entry, marking the cache dirty and scheduling the flush. *)
Lemma store_entry_runs u e st :
  exists st',
    runs (setFileEntry u e ;; modify (with_cacheDirty true) ;; scheduleCacheFlush)
         st tt st'
    /\ cacheLoaded st' = cacheLoaded st
    /\ sourceFileMtimeMemo st' = sourceFileMtimeMemo st
    /\ statCalls st' = statCalls st /\ console st' = console st
    /\ files (cache st') = <[u := e]> (files (cache st)).
Proof.
  destruct (setFileEntry_runs u e st) as (st1 & R1 & L1 & M1 & S1 & C1 & F1).
  destruct (set_dirty_runs true st1) as (st2 & R2 & [L2 K2 M2 S2 C2]).
  destruct (scheduleCacheFlush_runs st2) as (st3 & R3 & [L3 K3 M3 S3 C3] & _).
  exists st3. split.
  - eapply runs_bind; [exact R1|]. eapply runs_bind; [exact R2|]. exact R3.
  - repeat split; congruence.
Qed.

Lemma lookupCachedFilename_runs w n url u st :
  locator url = Some u ->
  exists c st',
    runs (lookupCachedFilename w n url) st (c, observedMtime w st u) st'
    /\ cacheLoaded st' = cacheLoaded st
    /\ console st' = console st
    /\ sourceFileMtimeMemo st' !! u = Some (observedMtime w st u)
    /\ (forall u', u' <> u ->
          sourceFileMtimeMemo st' !! u' = sourceFileMtimeMemo st !! u')
    /\ (is_Some (sourceFileMtimeMemo st !! u) ->
          statCalls st' = statCalls st
          /\ sourceFileMtimeMemo st' = sourceFileMtimeMemo st)
    /\ (sourceFileMtimeMemo st !! u = None ->
          statCalls st' = statCalls st ++ [u]
          /\ sourceFileMtimeMemo st' =
               <[u := statMtime w u]> (sourceFileMtimeMemo st))
    /\ match observedMtime w st u with
       | Some m =>
           files (cache st') =
             <[u := entryAfterLookup m (files (cache st) !! u)]> (files (cache st))
           /\ c = getHandler
                    (handlersOf (entryAfterLookup m (files (cache st) !! u))) n
       | None => c = None /\ files (cache st') = files (cache st)
       end.
Proof.
  intros Hloc.
  destruct (getSourceFileMtimeMs_runs w u st)
    as (st1 & R1 & L1 & K1 & C1 & M1 & Mo1 & Same1 & Fresh1).
  unfold lookupCachedFilename. rewrite Hloc.
  destruct (observedMtime w st u) as [m|] eqn:Hobs.
  - (* a modification time was obtained *)
    set (e' := entryAfterLookup m (files (cache st) !! u)).
    assert (Hinval : exists st2,
      runs (match files (cache st1) !! u with
            | Some existingEntry =>
                if (mtimeMs existingEntry =? m)%Z then ret tt
                else setFileEntry u {| mtimeMs := m; handlersOf := ∅ |} ;;
                     modify (with_cacheDirty true) ;; scheduleCacheFlush
            | None =>
                setFileEntry u {| mtimeMs := m; handlersOf := ∅ |} ;;
                modify (with_cacheDirty true) ;; scheduleCacheFlush
            end) st1 tt st2
      /\ cacheLoaded st2 = cacheLoaded st1
      /\ sourceFileMtimeMemo st2 = sourceFileMtimeMemo st1
      /\ statCalls st2 = statCalls st1 /\ console st2 = console st1
      /\ files (cache st2) = <[u := e']> (files (cache st))).
    { subst e'. rewrite K1.
      destruct (files (cache st) !! u) as [e|] eqn:He; simpl.
      - destruct (mtimeMs e =? m)%Z eqn:Hm.
        + exists st1. repeat split; auto.
          rewrite K1. symmetry. by apply insert_id.
        + destruct (store_entry_runs u {| mtimeMs := m; handlersOf := ∅ |} st1)
            as (st2 & R2 & ? & ? & ? & ? & F2).
          exists st2. repeat split; auto. by rewrite F2, K1.
      - destruct (store_entry_runs u {| mtimeMs := m; handlersOf := ∅ |} st1)
          as (st2 & R2 & ? & ? & ? & ? & F2).
        exists st2. repeat split; auto. by rewrite F2, K1. }
    destruct Hinval as (st2 & R2 & L2 & M2 & S2 & C2 & F2).
    exists (getHandler (handlersOf e') n), st2. split.
    { eapply runs_bind; [exact R1|]. cbv beta iota.
      unfold runs. unfold bind at 1, get at 1.
      rewrite (bind_runs _ _ _ _ _ R2).
      unfold bind, get, ret. rewrite F2, lookup_insert_eq. reflexivity. }
    split; [congruence|]. split; [congruence|].
    split; [by rewrite M2|].
    split; [by intros u' Hne; rewrite M2; apply Mo1|].
    split.
    { intros Hsome. rewrite (Same1 Hsome) in *. split; congruence. }
    split.
    { intros Hnone. destruct (Fresh1 Hnone). split; congruence. }
    split; [exact F2|reflexivity].
  - exists None, st1. split.
    { eapply runs_bind; [exact R1|]. reflexivity. }
    split; [congruence|]. split; [congruence|].
    split; [exact M1|]. split; [exact Mo1|].
    split.
    { intros Hsome. by rewrite (Same1 Hsome). }
    split; [exact Fresh1|].
    split; [reflexivity|by rewrite K1].
Qed.
Lemma resolveFilename_hit n f url c m s st :
  cacheHit c = Some s -> runs (resolveFilename n f url c m) st s st.
Proof. intros Hhit. unfold runs, resolveFilename. by rewrite Hhit. Qed.

Lemma log_hashing_runs n st :
  exists st',
    runs (modify (fun st => with_console (console st ++ [hashingLine n]) st))
         st tt st'
    /\ cacheLoaded st' = cacheLoaded st /\ cache st' = cache st
    /\ sourceFileMtimeMemo st' = sourceFileMtimeMemo st
    /\ statCalls st' = statCalls st
    /\ console st' = console st ++ [hashingLine n].
Proof.
  unfold runs. unfold_m. eexists; split; [reflexivity|]. by repeat split.
Qed.

Lemma resolveFilename_miss n f url c m st :
  cacheHit c = None ->
  exists st',
    runs (resolveFilename n f url c m) st (hashedFilename n f) st'
    /\ cacheLoaded st' = cacheLoaded st
    /\ sourceFileMtimeMemo st' = sourceFileMtimeMemo st
    /\ statCalls st' = statCalls st
    /\ console st' = console st ++ [hashingLine n]
    /\ files (cache st') =
         match locator url, m with
         | Some u, Some mt =>
             let entry := default {| mtimeMs := mt; handlersOf := ∅ |}
                                  (files (cache st) !! u) in
             <[u := {| mtimeMs := mtimeMs entry;
                       handlersOf :=
                         <[n := hashedFilename n f]> (handlersOf entry) |}]>
               (files (cache st))
         | _, _ => files (cache st)
         end.
Proof.
  intros Hmiss. unfold resolveFilename. rewrite Hmiss.
  destruct (log_hashing_runs n st) as (st1 & R1 & L1 & K1 & M1 & S1 & C1).
  fold (hashingLine n).
  destruct (locator url) as [u|] eqn:Hloc; [destruct m as [mt|]|].
  - destruct (store_entry_runs u
      {| mtimeMs := mtimeMs (default {| mtimeMs := mt; handlersOf := ∅ |}
                               (files (cache st1) !! u));
         handlersOf := <[n := hashedFilename n f]>
           (handlersOf (default {| mtimeMs := mt; handlersOf := ∅ |}
                          (files (cache st1) !! u))) |} st1)
      as (st2 & R2 & L2 & M2 & S2 & C2 & F2).
    exists st2. split.
    { eapply runs_bind; [exact R1|].
      unfold runs. unfold bind at 1, get at 1.
      unfold runs in R2. unfold bind in R2 |- *.
      destruct (setFileEntry _ _ st1) as [[[]|] stx]; try discriminate.
      destruct (modify (with_cacheDirty true) stx) as [[[]|] sty];
        try discriminate.
      rewrite R2. reflexivity. }
    repeat split; congruence.
  - exists st1. split; [eapply runs_bind; [exact R1|reflexivity]|].
    repeat split; congruence.
  - exists st1. split; [eapply runs_bind; [exact R1|reflexivity]|].
    repeat split; congruence.
Qed.

Lemma strProp_toStr o k : strProp o k = toStr (prop o k).
Proof. unfold strProp, prop. by destruct (o !! k) as [[]|]. Qed.

Lemma strProp_wrapper_filename n f url (id : JsValue) :
  strProp (<["sourceFileUrl" := from_option VString VUndefined url]>
             (<["filename" := id]>
                (<["fn" := VFunction f]> (<["fnName" := VString n]> ∅))))
          "filename" = toStr id.
Proof.
  rewrite strProp_toStr. unfold prop.
  rewrite lookup_insert_ne by discriminate.
  by rewrite lookup_insert_eq.
Qed.

Lemma finishConstruction_runs n f url id st :
  exists st',
    runs (finishConstruction n f url id) st (wrapperOf n f url id) st'
    /\ same_naming st st'
    /\ handlers st' = JsMap.set (fn_ref f) (wrapperOf n f url id) (handlers st).
Proof.
  unfold finishConstruction. cbv zeta.
  rewrite strProp_wrapper_filename. fold (wrapperOf n f url id).
  set (this := wrapperOf n f url id).
  destruct (getImportRegistry_runs url
    (with_handlers (JsMap.set (fn_ref f) this (handlers st))
       (with_functionName (<[fn_ref f := n]> (functionName st)) st)))
    as (st1 & R1 & N1 & H1).
  destruct (registrySet_runs (default "__global__" url) n (prop this "filename") st1)
    as (st2 & R2 & N2 & H2).
  exists st2. split.
  { unfold runs. unfold bind at 1, modify at 1. unfold bind at 1, modify at 1.
    rewrite (bind_runs _ _ _ _ _ R1). rewrite (bind_runs _ _ _ _ _ R2).
    reflexivity. }
  split.
  - eapply same_naming_trans; [|exact N2].
    eapply same_naming_trans; [|exact N1]. by constructor.
  - rewrite H2, H1. reflexivity.
Qed.

Lemma ClientFunction_resolvedId w n f url st :
  ClientFunction w n (VFunction f) url st =
  (let! id := resolvedId w n f url in finishConstruction n f url id) st.
Proof.
  unfold ClientFunction, resolvedId, bind.
  destruct (loadCacheOnce w st) as [[[]|] st1]; [|reflexivity].
  destruct (lookupCachedFilename w n url st1) as [[[c m]|] st2]; reflexivity.
Qed.
Lemma runs_det {A} (m : M A) st a st' b st'' :
  runs m st a st' -> runs m st b st'' -> a = b /\ st' = st''.
Proof. unfold runs. intros -> [= -> ->]. by split. Qed.

Lemma cachedFilenameAt_runs w n url st st0 c m st1 :
  runs (loadCacheOnce w) st tt st0 ->
  runs (lookupCachedFilename w n url) st0 (c, m) st1 ->
  cachedFilenameAt w n url st = c.
Proof.
  intros R0 R1. unfold cachedFilenameAt.
  rewrite (bind_runs _ _ _ _ _ R0). unfold runs in R1. by rewrite R1.
Qed.

Lemma registration_runs w n f url st st0 c m st1 id st2 this st3 :
  runs (loadCacheOnce w) st tt st0 ->
  runs (lookupCachedFilename w n url) st0 (c, m) st1 ->
  runs (resolveFilename n f url c m) st1 id st2 ->
  runs (finishConstruction n f url id) st2 this st3 ->
  runs (resolvedId w n f url) st id st2
  /\ runs (ClientFunction w n (VFunction f) url) st this st3.
Proof.
  intros R0 R1 R2 R3.
  assert (Rid : runs (resolvedId w n f url) st id st2).
  { unfold resolvedId. eapply runs_bind; [exact R0|].
    eapply runs_bind; [exact R1|]. exact R2. }
  split; [exact Rid|].
  unfold runs. rewrite ClientFunction_resolvedId.
  rewrite (bind_runs _ _ _ _ _ Rid). exact R3.
Qed.

Lemma wrapperOf_invocation n f url id :
  wrapperOf n f url id !! n = Some (VString (invocationString (toStr id))).
Proof. unfold wrapperOf. apply lookup_insert_eq. Qed.


Lemma wrapperOf_filename n f url id :
  n <> "filename" -> wrapperOf n f url id !! "filename" = Some id.
Proof.
  intros Hn. unfold wrapperOf.
  rewrite lookup_insert_ne by done.
  rewrite lookup_insert_ne by discriminate.
  apply lookup_insert_eq.
Qed.

(** A registration for which [handlers[fnName]] gives nothing truthy, and
    any registration without a defining-file locator, resolves to the
    handler name, an underscore and the hexadecimal rendering of the
    absolute value of the 32-bit hash [hash*31 + charCode] of the function's
    source text. The hashing is logged (the id is recomputed), the
    invocation string of the wrapper is built from that id, and without a
    locator nothing is stored in the cache. *)
Lemma miss_is_hashed w fnName f sourceFileUrl st :
  locator sourceFileUrl = None
  \/ cacheHit (cachedFilenameAt w fnName sourceFileUrl st) = None ->
  let id :=
    fnName +:+ "_" +:+
    Js.toString16 (Z.abs (hashCode_spec (Js.charCodes (fn_text f)))) in
  exists st1 this st2,
    runs (resolvedId w fnName f sourceFileUrl) st id st1
    /\ runs (ClientFunction w fnName (VFunction f) sourceFileUrl) st this st2
    /\ this !! fnName = Some (VString ("handlers." +:+ id +:+ "(this, event)"))
    /\ console st2 = console st ++ [hashingLine fnName]
    /\ Js.parseHex 0
         (Js.toString16 (Z.abs (hashCode_spec (Js.charCodes (fn_text f))))) =
       Some (Z.abs (hashCode_spec (Js.charCodes (fn_text f))))
    /\ (locator sourceFileUrl = None ->
        cache st2 = cache (snd (loadCacheOnce w st))).
Proof.
  intros Hmiss id.
  destruct (loadCacheOnce_returns w st) as (st0 & R0 & _ & _ & C0 & _ & _).
  assert (Hlook : exists c m st1,
    runs (lookupCachedFilename w fnName sourceFileUrl) st0 (c, m) st1
    /\ console st1 = console st0
    /\ (locator sourceFileUrl = None -> c = None /\ st1 = st0)).
  { destruct (locator sourceFileUrl) as [u|] eqn:Hloc.
    - destruct (lookupCachedFilename_runs w fnName sourceFileUrl u st0 Hloc)
        as (c & st1 & R1 & _ & C1 & _).
      exists c, (observedMtime w st0 u), st1. repeat split; auto; discriminate.
    - exists None, None, st0. split; [|by auto].
      by apply lookupCachedFilename_no_locator. }
  destruct Hlook as (c & m & st1 & R1 & C1 & Hnoloc).
  assert (Hc : cacheHit c = None).
  { destruct Hmiss as [Hloc | Hmiss].
    - by destruct (Hnoloc Hloc) as [-> _].
    - by rewrite (cachedFilenameAt_runs _ _ _ _ _ _ _ _ R0 R1) in Hmiss. }
  destruct (resolveFilename_miss fnName f sourceFileUrl c m st1 Hc)
    as (st2 & R2 & _ & _ & _ & C2 & F2).
  destruct (finishConstruction_runs fnName f sourceFileUrl
              (hashedFilename fnName f) st2) as (st3 & R3 & [_ K3 _ _ C3] & _).
  destruct (registration_runs _ _ _ _ _ _ _ _ _ _ _ _ _ R0 R1 R2 R3)
    as [Rid Rnew].
  assert (Hid : hashedFilename fnName f = id).
  { unfold hashedFilename, id. by rewrite hashCode_is_spec. }
  rewrite Hid in *.
  exists st2, (wrapperOf fnName f sourceFileUrl id), st3.
  split; [exact Rid|]. split; [exact Rnew|].
  split; [apply wrapperOf_invocation|].
  split; [congruence|].
  split; [apply parseHex_toString16, Z.abs_nonneg|].
  intros Hloc. destruct (Hnoloc Hloc) as [_ ->].
  rewrite Hloc in F2. unfold runs in R0. rewrite R0. simpl.
  rewrite K3.
  (* without a locator [resolveFilename] leaves the cache as it is *)
  clear -R2 Hc Hloc. unfold runs, resolveFilename in R2.
  rewrite Hc, Hloc in R2. unfold_m. by injection R2 as _ <-.
Qed.

(** C10. A second argument that is not a function makes the constructor
    throw with the state exactly as it was: handler map, import registries,
    cache, dirty flag, memo and scheduled flushes are all untouched. *)
Theorem C10_rejection_leaves_state w fnName fn sourceFileUrl st :
  isFunction fn = false ->
  ClientFunction w fnName fn sourceFileUrl st =
  (Throw "ClientFunction requires a function", st).
Proof. intros Hfn. destruct fn; [reflexivity|reflexivity|discriminate]. Qed.

(** C10 on a string given as second argument, in a process that has
    already registered [ping]. *)
Lemma C10_witness :
  ClientFunction (worldAt (Some 5%Z)) "ping" (VString "not a function")
    (Some pageUrl) afterPing =
  (Throw "ClientFunction requires a function", afterPing).
Proof. apply C10_rejection_leaves_state. reflexivity. Defined.
Lemma entryAfterLookup_mtime m old : mtimeMs (entryAfterLookup m old) = m.
Proof.
  unfold entryAfterLookup. destruct old as [e|]; [|reflexivity].
  destruct (mtimeMs e =? m)%Z eqn:He; [by apply Z.eqb_eq|reflexivity].
Qed.

Lemma entryAfterLookup_same m e :
  mtimeMs e = m -> entryAfterLookup m (Some e) = e.
Proof. intros <-. unfold entryAfterLookup. by rewrite Z.eqb_refl. Qed.

Lemma entryAfterLookup_stale m e :
  mtimeMs e <> m ->
  entryAfterLookup m (Some e) = {| mtimeMs := m; handlersOf := ∅ |}.
Proof.
  intros Hne. unfold entryAfterLookup.
  by destruct (Z.eqb_spec (mtimeMs e) m).
Qed.

Lemma truthy_hashedFilename n f : Js.truthy (hashedFilename n f) = true.
Proof. unfold hashedFilename, Js.truthy. by destruct n. Qed.

Lemma cacheHit_Some c v :
  cacheHit c = Some v -> c = Some v /\ truthyValue v = true.
Proof.
  unfold cacheHit. destruct c as [v'|]; [|discriminate].
  destruct (truthyValue v') eqn:Ht; [|discriminate]. by intros [= ->].
Qed.

Lemma cacheHit_truthy v : truthyValue v = true -> cacheHit (Some v) = Some v.
Proof. unfold cacheHit. by intros ->. Qed.

Lemma getHandler_own handlers n id :
  handlers !! n = Some id -> getHandler handlers n = Some (VString id).
Proof. unfold getHandler. by intros ->. Qed.

Lemma getHandler_empty n : getHandler ∅ n = objectPrototype !! n.
Proof. unfold getHandler. by rewrite lookup_empty. Qed.

(** What a plain object inherits is a function, hence truthy. *)
Lemma objectPrototype_function n v :
  objectPrototype !! n = Some v -> isFunction v = true /\ truthyValue v = true.
Proof.
  unfold objectPrototype. intros H.
  repeat (apply lookup_insert_Some in H as [[_ <-]|[_ H]]; [by split|]).
  by apply lookup_singleton_Some in H as [_ <-].
Qed.

Lemma locator_Some url u : locator url = Some u -> url = Some u /\ Js.truthy u = true.
Proof.
  unfold locator. destruct url as [u'|]; [|discriminate].
  destruct (Js.truthy u') eqn:Ht; [|discriminate]. by intros [= ->].
Qed.

(** C5 (amended). When the modification time a registration obtains for its
    locator (the per-process memo, or the file system when the memo has no
    entry) differs from the time recorded in the loaded cache, the whole
    handler sub-map of the file is dropped before the lookup, whatever the
    handler name: no lookup gives an id, the lookup misses for every name
    under which a plain object inherits nothing, and once the registration
    of such a name is done the sub-map holds the new id alone. *)
Theorem C5_stale_entry_is_discarded w fnName f u st e m :
  locator (Some u) = Some u ->
  observedMtime w st u = Some m ->
  files (cache (snd (loadCacheOnce w st))) !! u = Some e ->
  mtimeMs e <> m ->
  (forall anyName,
     files (cache (snd ((loadCacheOnce w ;;
                         lookupCachedFilename w anyName (Some u)) st))) !! u
     = Some {| mtimeMs := m; handlersOf := ∅ |}
     /\ (forall id : string,
           cachedFilenameAt w anyName (Some u) st <> Some (VString id))
     /\ (plainName anyName ->
         cachedFilenameAt w anyName (Some u) st = None))
  /\ (plainName fnName ->
      exists this st',
        runs (ClientFunction w fnName (VFunction f) (Some u)) st this st'
        /\ files (cache st') !! u =
             Some {| mtimeMs := m;
                     handlersOf := {[ fnName := hashedFilename fnName f ]} |}).
Proof.
  intros Hloc Hobs He Hne.
  destruct (loadCacheOnce_returns w st) as (st0 & R0 & _ & M0 & _ & _ & _).
  pose proof R0 as R0'. unfold runs in R0'. rewrite R0' in He. simpl in He.
  assert (Hobs0 : observedMtime w st0 u = Some m).
  { unfold observedMtime in *. by rewrite M0. }
  assert (Hlook : forall anyName, exists st1,
    runs (lookupCachedFilename w anyName (Some u)) st0
         (objectPrototype !! anyName, Some m) st1
    /\ files (cache st1) =
         <[u := {| mtimeMs := m; handlersOf := ∅ |}]> (files (cache st0))).
  { intros anyName.
    destruct (lookupCachedFilename_runs w anyName (Some u) u st0 Hloc)
      as (c & st1 & R1 & _ & _ & _ & _ & _ & _ & Hcase).
    rewrite Hobs0 in R1, Hcase. rewrite He in Hcase.
    rewrite (entryAfterLookup_stale _ _ Hne) in Hcase.
    destruct Hcase as [F1 ->]. simpl in R1. rewrite getHandler_empty in R1.
    by exists st1. }
  split.
  { intros anyName. destruct (Hlook anyName) as (st1 & R1 & F1).
    pose proof (cachedFilenameAt_runs _ _ _ _ _ _ _ _ R0 R1) as Hc.
    split; [|split].
    - rewrite (bind_runs _ _ _ _ _ R0). unfold runs in R1. rewrite R1.
      cbn [snd]. by rewrite F1, lookup_insert_eq.
    - intros id Hid. rewrite Hc in Hid.
      by destruct (objectPrototype_function _ _ Hid) as [? _].
    - intros [Hown _]. by rewrite Hc. }
  intros [Hown _].
  destruct (Hlook fnName) as (st1 & R1 & F1). rewrite Hown in R1.
  destruct (resolveFilename_miss fnName f (Some u) None (Some m) st1 eq_refl)
    as (st2 & R2 & _ & _ & _ & _ & F2).
  destruct (finishConstruction_runs fnName f (Some u) (hashedFilename fnName f) st2)
    as (st3 & R3 & [_ K3 _ _ _] & _).
  destruct (registration_runs _ _ _ _ _ _ _ _ _ _ _ _ _ R0 R1 R2 R3)
    as [_ Rnew].
  exists (wrapperOf fnName f (Some u) (hashedFilename fnName f)), st3.
  split; [exact Rnew|].
  rewrite K3, F2, Hloc, F1, lookup_insert_eq. simpl.
  rewrite lookup_insert_eq. reflexivity.
Qed.
(** The state a registration leaves for its locator once a modification
    time [m] was obtained: the memo holds [m], the cache entry of the file
    records [m] and maps the handler name to the resolved id. *)
Lemma first_registration w n f u st m :
  locator (Some u) = Some u ->
  observedMtime w st u = Some m ->
  exists id mid this st',
    runs (resolvedId w n f (Some u)) st id mid
    /\ runs (ClientFunction w n (VFunction f) (Some u)) st this st'
    /\ this = wrapperOf n f (Some u) id
    /\ truthyValue id = true
    /\ cacheLoaded st' = true
    /\ sourceFileMtimeMemo st' !! u = Some (Some m)
    /\ exists e, files (cache st') !! u = Some e
         /\ mtimeMs e = m /\ getHandler (handlersOf e) n = Some id.
Proof.
  intros Hloc Hobs.
  destruct (loadCacheOnce_returns w st) as (st0 & R0 & L0 & M0 & _ & _ & _).
  assert (Hobs0 : observedMtime w st0 u = Some m).
  { unfold observedMtime in *. by rewrite M0. }
  destruct (lookupCachedFilename_runs w n (Some u) u st0 Hloc)
    as (c & st1 & R1 & L1 & _ & M1 & _ & _ & _ & Hcase).
  rewrite Hobs0 in R1, M1, Hcase. destruct Hcase as [F1 Hc].
  set (e1 := entryAfterLookup m (files (cache st0) !! u)) in *.
  assert (Hm1 : mtimeMs e1 = m) by apply entryAfterLookup_mtime.
  destruct (cacheHit c) as [s|] eqn:Hhit.
  - (* the lookup hits *)
    pose proof (resolveFilename_hit n f (Some u) c (Some m) s st1 Hhit) as R2.
    destruct (finishConstruction_runs n f (Some u) s st1)
      as (st3 & R3 & [L3 K3 M3 _ _] & _).
    destruct (registration_runs _ _ _ _ _ _ _ _ _ _ _ _ _ R0 R1 R2 R3)
      as [Rid Rnew].
    destruct (cacheHit_Some _ _ Hhit) as [-> Hs].
    exists s, st1, (wrapperOf n f (Some u) s), st3.
    split; [exact Rid|]. split; [exact Rnew|]. split; [reflexivity|].
    split; [exact Hs|]. split; [congruence|]. split; [by rewrite M3|].
    exists e1. rewrite K3, F1, lookup_insert_eq. by repeat split.
  - (* the lookup misses: the id is hashed and stored *)
    destruct (resolveFilename_miss n f (Some u) c (Some m) st1 Hhit)
      as (st2 & R2 & L2 & M2 & _ & _ & F2).
    destruct (finishConstruction_runs n f (Some u) (hashedFilename n f) st2)
      as (st3 & R3 & [L3 K3 M3 _ _] & _).
    destruct (registration_runs _ _ _ _ _ _ _ _ _ _ _ _ _ R0 R1 R2 R3)
      as [Rid Rnew].
    exists (hashedFilename n f), st2, (wrapperOf n f (Some u) (hashedFilename n f)), st3.
    split; [exact Rid|]. split; [exact Rnew|]. split; [reflexivity|].
    split; [apply truthy_hashedFilename|]. split; [congruence|].
    split; [by rewrite M3, M2|].
    rewrite Hloc, F1, lookup_insert_eq in F2. simpl in F2.
    eexists. rewrite K3, F2, lookup_insert_eq. split; [reflexivity|].
    simpl. split; [exact Hm1|apply getHandler_own, lookup_insert_eq].
Qed.

(** A registration that finds the memo and a cache entry in agreement, and
    something truthy under its name, takes it and neither reads the file
    system nor hashes. *)
Lemma registration_served w n f u st m e v :
  locator (Some u) = Some u ->
  cacheLoaded st = true ->
  sourceFileMtimeMemo st !! u = Some (Some m) ->
  files (cache st) !! u = Some e ->
  mtimeMs e = m ->
  getHandler (handlersOf e) n = Some v ->
  truthyValue v = true ->
  exists st',
    cachedFilenameAt w n (Some u) st = Some v
    /\ runs (resolvedId w n f (Some u)) st v st
    /\ runs (ClientFunction w n (VFunction f) (Some u)) st
            (wrapperOf n f (Some u) v) st'
    /\ same_naming st st'.
Proof.
  intros Hloc Hl Hmemo He Hm Hid Ht.
  destruct (loadCacheOnce_returns w st) as (st0 & R0 & _ & _ & _ & _ & Hsame).
  rewrite (Hsame Hl) in R0. clear st0 Hsame.
  assert (Hobs : observedMtime w st u = Some m).
  { unfold observedMtime. by rewrite Hmemo. }
  assert (R1 : runs (lookupCachedFilename w n (Some u)) st (Some v, Some m) st).
  { unfold lookupCachedFilename. rewrite Hloc.
    eapply runs_bind; [by apply getSourceFileMtimeMs_memo|]. cbv beta iota.
    unfold runs, bind, get, ret. rewrite He.
    rewrite Hm, Z.eqb_refl. by rewrite He, Hid. }
  pose proof (resolveFilename_hit n f (Some u) (Some v) (Some m) v st
                (cacheHit_truthy _ Ht)) as R2.
  destruct (finishConstruction_runs n f (Some u) v st) as (st3 & R3 & N3 & _).
  destruct (registration_runs _ _ _ _ _ _ _ _ _ _ _ _ _ R0 R1 R2 R3)
    as [Rid Rnew].
  exists st3.
  split; [exact (cachedFilenameAt_runs _ _ _ _ _ _ _ _ R0 R1)|].
  split; [exact Rid|]. split; [exact Rnew|exact N3].
Qed.

(** The same for an id the cache entry holds. *)
Lemma registration_hit w n f u st m e id :
  locator (Some u) = Some u ->
  cacheLoaded st = true ->
  sourceFileMtimeMemo st !! u = Some (Some m) ->
  files (cache st) !! u = Some e ->
  mtimeMs e = m ->
  handlersOf e !! n = Some id ->
  Js.truthy id = true ->
  exists st',
    cachedFilenameAt w n (Some u) st = Some (VString id)
    /\ runs (resolvedId w n f (Some u)) st id st
    /\ runs (ClientFunction w n (VFunction f) (Some u)) st
            (wrapperOf n f (Some u) id) st'
    /\ same_naming st st'.
Proof.
  intros Hloc Hl Hmemo He Hm Hid Ht.
  apply (registration_served w n f u st m e (VString id)); auto.
  by apply getHandler_own.
Qed.
(** ** The memo of modification times *)

Lemma naming_invariant_initial : naming_invariant initialState.
Proof.
  constructor; simpl.
  - intros u. rewrite lookup_empty. split; [by intros ?%elem_of_nil|by intros [? ?]].
  - constructor.
  - reflexivity.
  - intros u m. by rewrite lookup_empty.
Qed.

Lemma naming_invariant_same st st' :
  cacheLoaded st' = cacheLoaded st ->
  files (cache st') = files (cache st) ->
  sourceFileMtimeMemo st' = sourceFileMtimeMemo st ->
  statCalls st' = statCalls st ->
  naming_invariant st -> naming_invariant st'.
Proof.
  intros L K M S [I1 I2 I3 I4].
  constructor; rewrite ?L, ?K, ?M, ?S; assumption.
Qed.

Lemma naming_invariant_same_naming st st' :
  same_naming st st' -> naming_invariant st -> naming_invariant st'.
Proof. intros [L K M S _]. apply naming_invariant_same; congruence. Qed.

Lemma loadCacheOnce_invariant w st st' :
  runs (loadCacheOnce w) st tt st' ->
  naming_invariant st -> naming_invariant st'.
Proof.
  intros R Hinv.
  destruct (loadCacheOnce_returns w st) as (st0 & R0 & L0 & M0 & _ & S0 & Hsame).
  destruct (runs_det _ _ _ _ _ _ R R0) as [_ ->]. clear R.
  destruct (cacheLoaded st) eqn:Hl.
  - by rewrite (Hsame eq_refl).
  - destruct Hinv as [I1 I2 I3 I4].
    constructor.
    + intros u. rewrite M0, S0. apply I1.
    + by rewrite S0.
    + intros Hf. congruence.
    + intros u m. rewrite M0, (I3 Hl), lookup_empty. discriminate.
Qed.

Lemma lookupCachedFilename_invariant w n url st c m st' :
  runs (lookupCachedFilename w n url) st (c, m) st' ->
  cacheLoaded st = true ->
  naming_invariant st -> naming_invariant st'.
Proof.
  intros R Hl [I1 I2 I3 I4].
  destruct (locator url) as [u|] eqn:Hloc.
  - destruct (lookupCachedFilename_runs w n url u st Hloc)
      as (c' & st1 & R1 & L1 & _ & M1 & Mo1 & Same1 & Fresh1 & Hcase).
    destruct (runs_det _ _ _ _ _ _ R R1) as [_ ->]. clear R.
    assert (Hfiles : forall u', u' <> u ->
              files (cache st1) !! u' = files (cache st) !! u').
    { intros u' Hne. destruct (observedMtime w st u).
      - destruct Hcase as [-> _]. by rewrite lookup_insert_ne.
      - by destruct Hcase as [_ ->]. }
    constructor.
    + intros u'. destruct (sourceFileMtimeMemo st !! u) as [v|] eqn:Hmemo.
      * destruct (Same1 (mk_is_Some _ _ eq_refl)) as [-> ->]. apply I1.
      * destruct (Fresh1 eq_refl) as [-> ->].
        rewrite elem_of_app, list_elem_of_singleton, I1.
        destruct (decide (u' = u)) as [-> | Hne].
        -- rewrite lookup_insert_eq. split; [by eauto|by right].
        -- rewrite lookup_insert_ne by done. split; [by intros [?|?]|by left].
    + destruct (sourceFileMtimeMemo st !! u) as [v|] eqn:Hmemo.
      * by destruct (Same1 (mk_is_Some _ _ eq_refl)) as [-> _].
      * destruct (Fresh1 eq_refl) as [-> _].
        apply NoDup_app. split; [exact I2|]. split; [|apply NoDup_singleton].
        intros x Hx ->%list_elem_of_singleton.
        apply I1 in Hx. rewrite Hmemo in Hx. by destruct Hx.
    + congruence.
    + intros u' m'. destruct (decide (u' = u)) as [-> | Hne].
      * rewrite M1. intros [= Hobs]. rewrite Hobs in Hcase.
        destruct Hcase as [-> _]. rewrite lookup_insert_eq.
        eexists. split; [reflexivity|apply entryAfterLookup_mtime].
      * rewrite (Mo1 _ Hne), (Hfiles _ Hne). apply I4.
  - pose proof (lookupCachedFilename_no_locator w n url st Hloc) as R1.
    destruct (runs_det _ _ _ _ _ _ R R1) as [_ ->]. by constructor.
Qed.

Lemma resolveFilename_invariant n f url c m st id st' :
  runs (resolveFilename n f url c m) st id st' ->
  naming_invariant st -> naming_invariant st'.
Proof.
  intros R Hinv.
  destruct (cacheHit c) as [s|] eqn:Hhit.
  - pose proof (resolveFilename_hit n f url c m s st Hhit) as R1.
    by destruct (runs_det _ _ _ _ _ _ R R1) as [_ ->].
  - destruct (resolveFilename_miss n f url c m st Hhit)
      as (st1 & R1 & L1 & M1 & S1 & _ & F1).
    destruct (runs_det _ _ _ _ _ _ R R1) as [_ ->]. clear R.
    destruct Hinv as [I1 I2 I3 I4].
    constructor; rewrite ?L1, ?M1, ?S1; auto.
    intros u' m' Hmemo. destruct (I4 _ _ Hmemo) as (e & He & Hm).
    rewrite F1. destruct (locator url) as [u|]; [destruct m as [mt|]|]; eauto.
    destruct (decide (u' = u)) as [-> | Hne].
    + rewrite lookup_insert_eq, He. simpl. eauto.
    + rewrite lookup_insert_ne by done. eauto.
Qed.
Lemma getImportRegistry_registryOf url st st' key :
  runs (getImportRegistry url) st key st' ->
  key = default "__global__" url
  /\ registryOf st' key = registryOf st key
  /\ transformCalls st' = transformCalls st
  /\ console st' = console st
  /\ functionName st' = functionName st.
Proof.
  unfold runs, getImportRegistry, registryOf. unfold_m.
  destruct (importsBySourceFileUrl st !! default "__global__" url) eqn:Hreg.
  - intros [= <- <-]. by rewrite Hreg.
  - intros [= <- <-]. simpl. by rewrite lookup_insert_eq, Hreg.
Qed.

Lemma buildCodeMethod_runs w this st :
  let functionCode :=
    functionCodeOf this
      (registryOf st (default "__global__" (optProp this "sourceFileUrl"))) in
  exists st',
    runs (buildCodeMethod w this) st
      (default functionCode (esbuildTransform w functionCode buildCodeOptions))
      st'
    /\ cacheLoaded st' = cacheLoaded st /\ cache st' = cache st
    /\ sourceFileMtimeMemo st' = sourceFileMtimeMemo st
    /\ statCalls st' = statCalls st
    /\ handlers st' = handlers st
    /\ transformCalls st' =
         transformCalls st ++ [(functionCode, buildCodeOptions)].
Proof.
  intros functionCode.
  destruct (getImportRegistry_runs (optProp this "sourceFileUrl")
    (with_console
       (console st ++
          [["Building code for handler: ";
            match this !! "fn" with
            | Some (VFunction f) => default "undefined" (functionName st !! fn_ref f)
            | _ => "undefined"
            end]]) st)) as (st1 & R1 & [L1 K1 M1 S1 C1] & H1).
  destruct (getImportRegistry_registryOf _ _ _ _ R1) as (_ & Hreg & T1 & _ & _).
  change (registryOf (with_console _ st)
            (default "__global__" (optProp this "sourceFileUrl")))
    with (registryOf st (default "__global__" (optProp this "sourceFileUrl")))
    in Hreg.
  unfold buildCodeMethod, runs. unfold bind at 1, get at 1.
  unfold bind at 1, modify at 1.
  rewrite (bind_runs _ _ _ _ _ R1).
  unfold bind at 1, get at 1. rewrite Hreg. fold functionCode.
  unfold_m.
  destruct (esbuildTransform w functionCode buildCodeOptions) as [code|];
    (eexists; split; [reflexivity|]); simpl;
    repeat split; try assumption; by rewrite T1.
Qed.

Lemma registerMethod_runs this target st :
  exists st', runs (registerMethod this target) st this st'
              /\ same_naming st st'.
Proof.
  unfold registerMethod.
  destruct (getImportRegistry_runs (Some target) st) as (st1 & R1 & N1 & _).
  destruct (registrySet_runs target (strProp this "fnName")
              (prop this "filename") st1) as (st2 & R2 & N2 & _).
  exists st2. split.
  - eapply runs_bind; [exact R1|]. eapply runs_bind; [exact R2|]. reflexivity.
  - eapply same_naming_trans; eassumption.
Qed.

(** A method call on a wrapper: the method of the class, or a [TypeError]
    that leaves the state as it is when the wrapper owns a property of that
    name. *)
Lemma methodShadowed_None this name :
  this !! name = None -> methodShadowed this name = false.
Proof. unfold methodShadowed. intros ->. by rewrite bool_decide_eq_false; intros [? ?]. Qed.


Lemma register_method this target :
  this !! "register" = None -> register this target = registerMethod this target.
Proof. intros H. unfold register. by rewrite (methodShadowed_None _ _ H). Qed.


Lemma buildCode_method w this :
  this !! "buildCode" = None -> buildCode w this = buildCodeMethod w this.
Proof. intros H. unfold buildCode. by rewrite (methodShadowed_None _ _ H). Qed.


Lemma register_cases this target st :
  (exists e, register this target st = (Throw e, st))
  \/ register this target st = registerMethod this target st.
Proof.
  unfold register. destruct (methodShadowed this "register"); [left|right];
    [by eexists|reflexivity].
Qed.

Lemma buildCode_cases w this st :
  (exists e, buildCode w this st = (Throw e, st))
  \/ buildCode w this st = buildCodeMethod w this st.
Proof.
  unfold buildCode. destruct (methodShadowed this "buildCode"); [left|right];
    [by eexists|reflexivity].
Qed.


Lemma register_runs this target st :
  this !! "register" = None ->
  exists st', runs (register this target) st this st' /\ same_naming st st'.
Proof.
  intros H. rewrite (register_method this target H). apply registerMethod_runs.
Qed.

(** Whatever they come to, neither call touches the naming cache. *)
Lemma register_same_naming this target st :
  same_naming st (snd (register this target st)).
Proof.
  destruct (register_cases this target st) as [[e ->] | ->].
  - apply same_naming_refl.
  - destruct (registerMethod_runs this target st) as (st1 & R1 & N1).
    unfold runs in R1. by rewrite R1.
Qed.

Lemma buildCode_same_naming w this st :
  let st' := snd (buildCode w this st) in
  cacheLoaded st' = cacheLoaded st /\ cache st' = cache st
  /\ sourceFileMtimeMemo st' = sourceFileMtimeMemo st
  /\ statCalls st' = statCalls st.
Proof.
  destruct (buildCode_cases w this st) as [[e ->] | ->]; [by repeat split|].
  destruct (buildCodeMethod_runs w this st) as (st1 & R1 & L1 & K1 & M1 & S1 & _).
  unfold runs in R1. rewrite R1. by repeat split.
Qed.

Lemma runCacheFlush_runs w st :
  exists st', runs (runCacheFlush w) st tt st'
    /\ cacheLoaded st' = cacheLoaded st /\ cache st' = cache st
    /\ sourceFileMtimeMemo st' = sourceFileMtimeMemo st
    /\ statCalls st' = statCalls st /\ console st' = console st.
Proof.
  unfold runs, runCacheFlush. unfold_m. simpl.
  destruct (negb (cacheDirty st)); [|destruct (writeCacheFile w)];
    (eexists; split; [reflexivity|]); by repeat split.
Qed.

Lemma ClientFunction_invariant w n v url st out st' :
  ClientFunction w n v url st = (out, st') ->
  naming_invariant st -> naming_invariant st'.
Proof.
  intros Hrun Hinv.
  destruct v as [|s|f]; try (injection Hrun as _ <-; exact Hinv).
  destruct (loadCacheOnce_returns w st) as (st0 & R0 & L0 & _).
  pose proof (loadCacheOnce_invariant _ _ _ R0 Hinv) as Hinv0.
  assert (Hlook : exists c m st1,
            runs (lookupCachedFilename w n url) st0 (c, m) st1).
  { destruct (locator url) as [u|] eqn:Hloc.
    - destruct (lookupCachedFilename_runs w n url u st0 Hloc)
        as (c & st1 & R1 & _). eauto.
    - eauto using lookupCachedFilename_no_locator. }
  destruct Hlook as (c & m & st1 & R1).
  pose proof (lookupCachedFilename_invariant _ _ _ _ _ _ _ R1 L0 Hinv0) as Hinv1.
  assert (Hres : exists id st2, runs (resolveFilename n f url c m) st1 id st2).
  { destruct (cacheHit c) as [s|] eqn:Hhit.
    - eauto using resolveFilename_hit.
    - destruct (resolveFilename_miss n f url c m st1 Hhit) as (st2 & R2 & _).
      eauto. }
  destruct Hres as (id & st2 & R2).
  pose proof (resolveFilename_invariant _ _ _ _ _ _ _ _ R2 Hinv1) as Hinv2.
  destruct (finishConstruction_runs n f url id st2) as (st3 & R3 & N3 & _).
  destruct (registration_runs _ _ _ _ _ _ _ _ _ _ _ _ _ R0 R1 R2 R3)
    as [_ Rnew].
  unfold runs in Rnew. rewrite Rnew in Hrun. injection Hrun as _ <-.
  exact (naming_invariant_same_naming _ _ N3 Hinv2).
Qed.

Lemma step_invariant st st' :
  step st st' -> naming_invariant st -> naming_invariant st'.
Proof.
  intros Hstep Hinv. destruct Hstep as
    [w n v url st out st' Hrun | this target st out st' Hrun
    | w this st out st' Hrun | w st out st' _ Hrun].
  - eauto using ClientFunction_invariant.
  - pose proof (register_same_naming this target st) as N1.
    rewrite Hrun in N1.
    exact (naming_invariant_same_naming _ _ N1 Hinv).
  - pose proof (buildCode_same_naming w this st) as (L1 & K1 & M1 & S1).
    rewrite Hrun in L1, K1, M1, S1. cbn [snd] in *.
    apply (naming_invariant_same st); congruence.
  - destruct (runCacheFlush_runs w st) as (st1 & R1 & L1 & K1 & M1 & S1 & _).
    unfold runs in R1. rewrite R1 in Hrun. injection Hrun as _ <-.
    apply (naming_invariant_same st); congruence.
Qed.

Lemma reachable_invariant st : reachable st -> naming_invariant st.
Proof.
  unfold reachable. revert st.
  apply (rtc_ind_r (fun st => naming_invariant st) initialState).
  - exact naming_invariant_initial.
  - intros st st' _ Hstep Hinv. exact (step_invariant _ _ Hstep Hinv).
Qed.
(** Hashing a new id overwrites no usable id of the cache, provided the
    cached filename it was given is the one the cache holds. *)
Lemma resolveFilename_keeps_ids n f url c m st id st' :
  runs (resolveFilename n f url c m) st id st' ->
  (forall u mt, locator url = Some u -> m = Some mt ->
     exists e0, files (cache st) !! u = Some e0
                /\ c = getHandler (handlersOf e0) n) ->
  cacheLoaded st' = cacheLoaded st
  /\ statCalls st' = statCalls st
  /\ sourceFileMtimeMemo st' = sourceFileMtimeMemo st
  /\ forall u e, files (cache st) !! u = Some e ->
       exists e', files (cache st') !! u = Some e'
         /\ mtimeMs e' = mtimeMs e
         /\ (forall name id0, handlersOf e !! name = Some id0 ->
               Js.truthy id0 = true -> handlersOf e' !! name = Some id0)
         /\ (forall name v, getHandler (handlersOf e) name = Some v ->
               truthyValue v = true ->
               getHandler (handlersOf e') name = Some v).
Proof.
  intros R Hc.
  destruct (cacheHit c) as [s|] eqn:Hhit.
  - pose proof (resolveFilename_hit n f url c m s st Hhit) as R1.
    destruct (runs_det _ _ _ _ _ _ R R1) as [_ ->]. eauto 10.
  - destruct (resolveFilename_miss n f url c m st Hhit)
      as (st1 & R1 & L1 & M1 & S1 & _ & F1).
    destruct (runs_det _ _ _ _ _ _ R R1) as [_ ->]. clear R.
    split; [exact L1|]. split; [exact S1|]. split; [exact M1|].
    intros u e He. rewrite F1.
    destruct (locator url) as [u0|] eqn:Hloc; [destruct m as [mt|]|]; eauto.
    destruct (Hc u0 mt eq_refl eq_refl) as (e0 & He0 & ->).
    destruct (decide (u = u0)) as [-> | Hne].
    + rewrite He0 in He. injection He as ->.
      rewrite lookup_insert_eq, He0. simpl. eexists. split; [reflexivity|].
      split; [reflexivity|]. simpl. split.
      * intros name id0 Hid0 Ht.
        destruct (decide (name = n)) as [-> | Hname].
        -- rewrite (getHandler_own _ _ _ Hid0) in Hhit.
           by rewrite (cacheHit_truthy (VString id0) Ht) in Hhit.
        -- by rewrite lookup_insert_ne.
      * intros name v Hv Ht.
        destruct (decide (name = n)) as [-> | Hname].
        -- rewrite Hv in Hhit. by rewrite (cacheHit_truthy _ Ht) in Hhit.
        -- unfold getHandler in *. by rewrite lookup_insert_ne.
    + rewrite lookup_insert_ne by done. eauto 10.
Qed.

(** A registration for a locator that the memo already knows: no file
    system read, and the cache entry of the file keeps its recorded time
    and every usable id. *)
Lemma registration_memoized w n f u v st :
  naming_invariant st ->
  sourceFileMtimeMemo st !! u = Some v ->
  exists this st',
    runs (ClientFunction w n (VFunction f) (Some u)) st this st'
    /\ statCalls st' = statCalls st
    /\ sourceFileMtimeMemo st' = sourceFileMtimeMemo st
    /\ forall e, files (cache st) !! u = Some e ->
         exists e', files (cache st') !! u = Some e'
           /\ mtimeMs e' = mtimeMs e
           /\ forall name id, handlersOf e !! name = Some id ->
                Js.truthy id = true -> handlersOf e' !! name = Some id.
Proof.
  intros Hinv Hmemo.
  assert (Hl : cacheLoaded st = true).
  { destruct (cacheLoaded st) eqn:Hl; [reflexivity|].
    rewrite (inv_unloaded _ Hinv Hl), lookup_empty in Hmemo. discriminate. }
  destruct (loadCacheOnce_returns w st) as (st0 & R0 & _ & _ & _ & _ & Hsame).
  rewrite (Hsame Hl) in R0. clear st0 Hsame.
  (* the lookup leaves memo, stat calls and cache as they are *)
  assert (Hlook : exists c m st1,
    runs (lookupCachedFilename w n (Some u)) st (c, m) st1
    /\ statCalls st1 = statCalls st
    /\ sourceFileMtimeMemo st1 = sourceFileMtimeMemo st
    /\ files (cache st1) = files (cache st)
    /\ (forall u0 mt, locator (Some u) = Some u0 -> m = Some mt ->
          exists e0, files (cache st1) !! u0 = Some e0
                     /\ c = getHandler (handlersOf e0) n)).
  { destruct (locator (Some u)) as [u'|] eqn:Hloc.
    - destruct (locator_Some _ _ Hloc) as [[= <-] _].
      destruct (lookupCachedFilename_runs w n (Some u) u st Hloc)
        as (c & st1 & R1 & _ & _ & _ & _ & Same1 & _ & Hcase).
      assert (Hobs : observedMtime w st u = v).
      { unfold observedMtime. by rewrite Hmemo. }
      rewrite Hobs in R1, Hcase.
      destruct (Same1 (mk_is_Some _ _ Hmemo)) as [S1 M1].
      exists c, v, st1. split; [exact R1|]. split; [exact S1|].
      split; [exact M1|].
      destruct v as [m|].
      + destruct (inv_memo_cache _ Hinv _ _ Hmemo) as (e0 & He0 & Hm0).
        rewrite He0, (entryAfterLookup_same _ _ Hm0) in Hcase.
        destruct Hcase as [F1 Hc].
        assert (F1' : files (cache st1) = files (cache st))
          by (by rewrite F1, insert_id).
        split; [exact F1'|].
        intros u0 mt [= <-] _. exists e0. by rewrite F1'.
      + destruct Hcase as [-> F1]. split; [exact F1|]. by intros.
    - exists None, None, st.
      split; [by apply lookupCachedFilename_no_locator|].
      repeat split. by intros. }
  destruct Hlook as (c & m & st1 & R1 & S1 & M1 & F1 & Hc).
  assert (Hres : exists id st2, runs (resolveFilename n f (Some u) c m) st1 id st2).
  { destruct (cacheHit c) as [s|] eqn:Hhit.
    - eauto using resolveFilename_hit.
    - destruct (resolveFilename_miss n f (Some u) c m st1 Hhit)
        as (st2 & R2 & _). eauto. }
  destruct Hres as (id & st2 & R2).
  destruct (resolveFilename_keeps_ids _ _ _ _ _ _ _ _ R2 Hc)
    as (_ & S2 & M2 & Hkeep).
  destruct (finishConstruction_runs n f (Some u) id st2)
    as (st3 & R3 & [_ K3 M3 S3 _] & _).
  destruct (registration_runs _ _ _ _ _ _ _ _ _ _ _ _ _ R0 R1 R2 R3)
    as [_ Rnew].
  exists (wrapperOf n f (Some u) id), st3.
  split; [exact Rnew|]. split; [congruence|]. split; [congruence|].
  intros e He. rewrite K3.
  destruct (Hkeep u e) as (e' & He' & Hm' & Hown & _); [by rewrite F1|].
  eauto.
Qed.

(** A registration under a locator leaves the modification time it
    obtained in the memo, reading the file system exactly when the memo had
    no entry, and touches no other entry of the memo. *)
Lemma registration_memoizes w n f u st :
  locator (Some u) = Some u ->
  exists this st',
    runs (ClientFunction w n (VFunction f) (Some u)) st this st'
    /\ sourceFileMtimeMemo st' !! u = Some (observedMtime w st u)
    /\ (sourceFileMtimeMemo st !! u = None ->
          statCalls st' = statCalls st ++ [u])
    /\ (is_Some (sourceFileMtimeMemo st !! u) ->
          statCalls st' = statCalls st).
Proof.
  intros Hloc.
  destruct (loadCacheOnce_returns w st) as (st0 & R0 & _ & M0 & _ & S0 & _).
  destruct (lookupCachedFilename_runs w n (Some u) u st0 Hloc)
    as (c & st1 & R1 & _ & _ & M1 & _ & Same1 & Fresh1 & _).
  assert (Hres : exists id st2,
            runs (resolveFilename n f (Some u) c (observedMtime w st0 u)) st1
                 id st2
            /\ sourceFileMtimeMemo st2 = sourceFileMtimeMemo st1
            /\ statCalls st2 = statCalls st1).
  { destruct (cacheHit c) as [s|] eqn:Hhit.
    - exists s, st1. split; [by apply resolveFilename_hit|by split].
    - destruct (resolveFilename_miss n f (Some u) c (observedMtime w st0 u)
                  st1 Hhit) as (st2 & R2 & _ & M2 & S2 & _). eauto. }
  destruct Hres as (id & st2 & R2 & M2 & S2).
  destruct (finishConstruction_runs n f (Some u) id st2)
    as (st3 & R3 & [_ _ M3 S3 _] & _).
  destruct (registration_runs _ _ _ _ _ _ _ _ _ _ _ _ _ R0 R1 R2 R3)
    as [_ Rnew].
  assert (Hobs : observedMtime w st0 u = observedMtime w st u).
  { unfold observedMtime. by rewrite M0. }
  exists (wrapperOf n f (Some u) id), st3. split; [exact Rnew|].
  rewrite M3, M2, S3, S2, <- Hobs. split; [exact M1|].
  rewrite <- M0, <- S0. split.
  - intros Hnone. by destruct (Fresh1 Hnone).
  - intros Hsome. by destruct (Same1 Hsome).
Qed.

(** An entry of the memo is never changed or removed. *)
Lemma ClientFunction_keeps_memo w n v url st out st' u x :
  ClientFunction w n v url st = (out, st') ->
  sourceFileMtimeMemo st !! u = Some x ->
  sourceFileMtimeMemo st' !! u = Some x.
Proof.
  intros Hrun Hmemo.
  destruct v as [|s|f]; try (injection Hrun as _ <-; exact Hmemo).
  destruct (loadCacheOnce_returns w st) as (st0 & R0 & _ & M0 & _ & _ & _).
  assert (Hlook : exists c m st1,
            runs (lookupCachedFilename w n url) st0 (c, m) st1
            /\ sourceFileMtimeMemo st1 !! u = Some x).
  { destruct (locator url) as [u0|] eqn:Hloc.
    - destruct (lookupCachedFilename_runs w n url u0 st0 Hloc)
        as (c & st1 & R1 & _ & _ & _ & Mo1 & Same1 & _).
      exists c, (observedMtime w st0 u0), st1. split; [exact R1|].
      destruct (decide (u = u0)) as [-> | Hne].
      + destruct Same1 as [_ ->]; [by rewrite M0; eexists|]. by rewrite M0.
      + rewrite (Mo1 u Hne). by rewrite M0.
    - exists None, None, st0.
      split; [by apply lookupCachedFilename_no_locator|]. by rewrite M0. }
  destruct Hlook as (c & m & st1 & R1 & M1).
  assert (Hres : exists id st2,
            runs (resolveFilename n f url c m) st1 id st2
            /\ sourceFileMtimeMemo st2 = sourceFileMtimeMemo st1).
  { destruct (cacheHit c) as [s|] eqn:Hhit.
    - exists s, st1. split; [by apply resolveFilename_hit|reflexivity].
    - destruct (resolveFilename_miss n f url c m st1 Hhit)
        as (st2 & R2 & _ & M2 & _). eauto. }
  destruct Hres as (id & st2 & R2 & M2).
  destruct (finishConstruction_runs n f url id st2)
    as (st3 & R3 & [_ _ M3 _ _] & _).
  destruct (registration_runs _ _ _ _ _ _ _ _ _ _ _ _ _ R0 R1 R2 R3)
    as [_ Rnew].
  unfold runs in Rnew. rewrite Rnew in Hrun. injection Hrun as _ <-.
  by rewrite M3, M2.
Qed.

Lemma step_keeps_memo st st' u x :
  step st st' ->
  sourceFileMtimeMemo st !! u = Some x ->
  sourceFileMtimeMemo st' !! u = Some x.
Proof.
  intros Hstep Hmemo. destruct Hstep as
    [w n v url st out st' Hrun | this target st out st' Hrun
    | w this st out st' Hrun | w st out st' _ Hrun].
  - eauto using ClientFunction_keeps_memo.
  - pose proof (register_same_naming this target st) as [_ _ M1 _ _].
    rewrite Hrun in M1. cbn [snd] in M1. by rewrite M1.
  - pose proof (buildCode_same_naming w this st) as (_ & _ & M1 & _).
    rewrite Hrun in M1. cbn [snd] in M1. by rewrite M1.
  - destruct (runCacheFlush_runs w st) as (st1 & R1 & _ & _ & M1 & _).
    unfold runs in R1. rewrite R1 in Hrun. injection Hrun as _ <-.
    by rewrite M1.
Qed.

Lemma steps_keep_memo st st' u x :
  rtc step st st' ->
  sourceFileMtimeMemo st !! u = Some x ->
  sourceFileMtimeMemo st' !! u = Some x.
Proof.
  intros Hsteps. induction Hsteps as [|st st1 st' Hstep _ IH]; [done|].
  intros Hmemo. apply IH. exact (step_keeps_memo _ _ _ _ Hstep Hmemo).
Qed.

(** C9. In every state a process can reach, no locator was passed to
    [Deno.statSync] twice, and each one that was has its result in the
    memo. A registration under a locator leaves what it obtained for it (a
    time or a failure) in the memo, reading the file system once when the
    memo had no entry and not at all when it had one, and that entry stays
    as it is whatever the process does afterwards. Once the memo has an
    entry for a locator, [getSourceFileMtimeMs] returns it without reading
    the file system whatever the file has become, and a further
    registration under that locator reads nothing and invalidates nothing:
    the cache entry of the file keeps its recorded time and every usable
    id. *)
Theorem C9_mtime_is_memoized_per_process st :
  reachable st ->
  NoDup (statCalls st)
  /\ (forall u, u ∈ statCalls st -> is_Some (sourceFileMtimeMemo st !! u))
  /\ (forall w fnName f u,
        locator (Some u) = Some u ->
        exists this st',
          runs (ClientFunction w fnName (VFunction f) (Some u)) st this st'
          /\ sourceFileMtimeMemo st' !! u = Some (observedMtime w st u)
          /\ (sourceFileMtimeMemo st !! u = None ->
                statCalls st' = statCalls st ++ [u]
                /\ sourceFileMtimeMemo st' !! u = Some (statMtime w u))
          /\ (is_Some (sourceFileMtimeMemo st !! u) ->
                statCalls st' = statCalls st)
          /\ forall st'', rtc step st' st'' ->
               sourceFileMtimeMemo st'' !! u = sourceFileMtimeMemo st' !! u)
  /\ forall w u v,
       sourceFileMtimeMemo st !! u = Some v ->
       runs (getSourceFileMtimeMs w u) st v st
       /\ forall fnName f, exists this st',
            runs (ClientFunction w fnName (VFunction f) (Some u)) st this st'
            /\ statCalls st' = statCalls st
            /\ sourceFileMtimeMemo st' = sourceFileMtimeMemo st
            /\ forall e, files (cache st) !! u = Some e ->
                 exists e', files (cache st') !! u = Some e'
                   /\ mtimeMs e' = mtimeMs e
                   /\ forall name id, handlersOf e !! name = Some id ->
                        Js.truthy id = true ->
                        handlersOf e' !! name = Some id.
Proof.
  intros Hreach. pose proof (reachable_invariant _ Hreach) as Hinv.
  split; [exact (inv_stat_nodup _ Hinv)|].
  split; [intros u; apply (inv_stat_memo _ Hinv)|].
  split.
  { intros w fnName f u Hloc.
    destruct (registration_memoizes w fnName f u st Hloc)
      as (this & st' & Rnew & Hmemo & Hfresh & Hsame).
    exists this, st'. split; [exact Rnew|]. split; [exact Hmemo|].
    split.
    { intros Hnone. split; [by apply Hfresh|].
      rewrite Hmemo. unfold observedMtime. by rewrite Hnone. }
    split; [exact Hsame|].
    intros st'' Hsteps. rewrite Hmemo.
    exact (steps_keep_memo _ _ _ _ Hsteps Hmemo). }
  intros w u v Hmemo.
  split; [by apply getSourceFileMtimeMs_memo|].
  intros fnName f. by apply (registration_memoized w fnName f u v).
Qed.
(** ** What the cache serves for a name stays *)

Lemma lookupCachedFilename_keeps_served w n' url' st c m' st1 u n id :
  runs (lookupCachedFilename w n' url') st (c, m') st1 ->
  servedFor u n id st ->
  servedFor u n id st1
  /\ forall u0 mt, locator url' = Some u0 -> m' = Some mt ->
       exists e0, files (cache st1) !! u0 = Some e0
                  /\ c = getHandler (handlersOf e0) n'.
Proof.
  intros R (Hl & m & e & Hmemo & He & Hm & Hid).
  destruct (locator url') as [u0|] eqn:Hloc.
  - destruct (lookupCachedFilename_runs w n' url' u0 st Hloc)
      as (c' & st' & R1 & L1 & _ & _ & Mo1 & Same1 & _ & Hcase).
    destruct (runs_det _ _ _ _ _ _ R R1) as [[= -> ->] ->]. clear R.
    split.
    + split; [congruence|]. exists m, e.
      destruct (decide (u0 = u)) as [-> | Hne].
      * destruct (Same1 (mk_is_Some _ _ Hmemo)) as [_ M1].
        assert (Hobs : observedMtime w st u = Some m).
        { unfold observedMtime. by rewrite Hmemo. }
        rewrite Hobs, He, (entryAfterLookup_same _ _ Hm) in Hcase.
        destruct Hcase as [F1 _].
        rewrite M1, F1, lookup_insert_eq. by repeat split.
      * rewrite (Mo1 u) by done. repeat split; auto.
        destruct (observedMtime w st u0).
        -- destruct Hcase as [-> _]. by rewrite lookup_insert_ne.
        -- destruct Hcase as [_ ->]. exact He.
    + intros u1 mt [= <-] Hobs. rewrite Hobs in Hcase.
      destruct Hcase as [F1 Hc]. eexists. by rewrite F1, lookup_insert_eq.
  - pose proof (lookupCachedFilename_no_locator w n' url' st Hloc) as R1.
    destruct (runs_det _ _ _ _ _ _ R R1) as [_ ->].
    split; [by split; eauto 10|]. intros; discriminate.
Qed.

Lemma servedFor_same u n id st st' :
  cacheLoaded st' = cacheLoaded st ->
  cache st' = cache st ->
  sourceFileMtimeMemo st' = sourceFileMtimeMemo st ->
  servedFor u n id st -> servedFor u n id st'.
Proof. unfold servedFor. by intros -> -> ->. Qed.

Lemma ClientFunction_keeps_served w n' v url' st out st' u n id :
  truthyValue id = true ->
  ClientFunction w n' v url' st = (out, st') ->
  servedFor u n id st -> servedFor u n id st'.
Proof.
  intros Ht Hrun Hcached.
  destruct v as [|s|f]; try (injection Hrun as _ <-; exact Hcached).
  destruct (loadCacheOnce_returns w st) as (st0 & R0 & _ & _ & _ & _ & Hsame).
  rewrite (Hsame (proj1 Hcached)) in R0. clear st0 Hsame.
  assert (Hlook : exists c m st1,
            runs (lookupCachedFilename w n' url') st (c, m) st1).
  { destruct (locator url') as [u0|] eqn:Hloc.
    - destruct (lookupCachedFilename_runs w n' url' u0 st Hloc)
        as (c & st1 & R1 & _). eauto.
    - eauto using lookupCachedFilename_no_locator. }
  destruct Hlook as (c & m & st1 & R1).
  destruct (lookupCachedFilename_keeps_served _ _ _ _ _ _ _ u n id R1 Hcached)
    as [(L1 & m1 & e1 & Hmemo1 & He1 & Hm1 & Hid1) Hc].
  assert (Hres : exists id' st2, runs (resolveFilename n' f url' c m) st1 id' st2).
  { destruct (cacheHit c) as [s|] eqn:Hhit.
    - eauto using resolveFilename_hit.
    - destruct (resolveFilename_miss n' f url' c m st1 Hhit) as (st2 & R2 & _).
      eauto. }
  destruct Hres as (id' & st2 & R2).
  destruct (resolveFilename_keeps_ids _ _ _ _ _ _ _ _ R2 Hc)
    as (L2 & _ & M2 & Hkeep).
  destruct (Hkeep _ _ He1) as (e2 & He2 & Hm2 & _ & Hids).
  destruct (finishConstruction_runs n' f url' id' st2)
    as (st3 & R3 & [L3 K3 M3 _ _] & _).
  destruct (registration_runs _ _ _ _ _ _ _ _ _ _ _ _ _ R0 R1 R2 R3)
    as [_ Rnew].
  unfold runs in Rnew. rewrite Rnew in Hrun. injection Hrun as _ <-.
  split; [congruence|]. exists m1, e2.
  rewrite M3, M2, K3. repeat split; auto; congruence.
Qed.

Lemma step_keeps_served u n id st st' :
  truthyValue id = true ->
  step st st' -> servedFor u n id st -> servedFor u n id st'.
Proof.
  intros Ht Hstep Hcached. destruct Hstep as
    [w n' v url' st out st' Hrun | this target st out st' Hrun
    | w this st out st' Hrun | w st out st' _ Hrun].
  - eauto using ClientFunction_keeps_served.
  - pose proof (register_same_naming this target st) as [L1 K1 M1 _ _].
    rewrite Hrun in L1, K1, M1. cbn [snd] in *.
    by apply (servedFor_same _ _ _ st).
  - pose proof (buildCode_same_naming w this st) as (L1 & K1 & M1 & _).
    rewrite Hrun in L1, K1, M1. cbn [snd] in *.
    by apply (servedFor_same _ _ _ st).
  - destruct (runCacheFlush_runs w st) as (st1 & R1 & L1 & K1 & M1 & _).
    unfold runs in R1. rewrite R1 in Hrun. injection Hrun as _ <-.
    by apply (servedFor_same _ _ _ st).
Qed.

Lemma steps_keep_served u n id st st' :
  truthyValue id = true ->
  rtc step st st' -> servedFor u n id st -> servedFor u n id st'.
Proof.
  intros Ht Hsteps. induction Hsteps as [|st st1 st' Hstep _ IH]; [done|].
  intros Hcached. apply IH. exact (step_keeps_served _ _ _ _ _ Ht Hstep Hcached).
Qed.

(** C7 (amended). A function is registered under a name and a locator for
    which the registration obtains a modification time, and later in the
    process, whatever happened in between, it is registered again under
    the same name and locator. Both registrations resolve to the same id
    and build the same wrapper; the second finds the id in the cache, reads
    no modification time and logs no hashing. The world of the second
    registration is arbitrary, since the memoized time is what it uses. *)
Theorem C7_second_registration_hits w1 fnName f u st m :
  locator (Some u) = Some u ->
  observedMtime w1 st u = Some m ->
  exists id mid1 this st1,
    runs (resolvedId w1 fnName f (Some u)) st id mid1
    /\ runs (ClientFunction w1 fnName (VFunction f) (Some u)) st this st1
    /\ cacheHit (Some id) = Some id
    /\ forall w2 st1', rtc step st1 st1' ->
         cachedFilenameAt w2 fnName (Some u) st1' = Some id
         /\ runs (resolvedId w2 fnName f (Some u)) st1' id st1'
         /\ exists st2,
              runs (ClientFunction w2 fnName (VFunction f) (Some u)) st1'
                   this st2
              /\ console st2 = console st1'
              /\ statCalls st2 = statCalls st1'.
Proof.
  intros Hloc Hobs.
  destruct (first_registration w1 fnName f u st m Hloc Hobs)
    as (id & mid & this1 & st1 & Rid1 & Rnew1 & -> & Ht & Hl & Hmemo
        & e & He & Hm & Hid).
  exists id, mid, (wrapperOf fnName f (Some u) id), st1.
  split; [exact Rid1|]. split; [exact Rnew1|].
  split; [by apply cacheHit_truthy|].
  intros w2 st1' Hsteps.
  assert (Hcached : servedFor u fnName id st1) by (split; eauto 10).
  destruct (steps_keep_served _ _ _ _ _ Ht Hsteps Hcached)
    as (Hl' & m' & e' & Hmemo' & He' & Hm' & Hid').
  destruct (registration_served w2 fnName f u st1' m' e' id
              Hloc Hl' Hmemo' He' Hm' Hid' Ht)
    as (st2 & Hc2 & Rid2 & Rnew2 & [_ _ _ S2 C2]).
  split; [exact Hc2|]. split; [exact Rid2|].
  exists st2. by repeat split.
Qed.
(** C4: the failing input. A fresh process, whose cache file is missing,
    registers a handler named [toString] in [pageUrl], a readable file. The
    cache has no id for that name, neither before nor after, but
    [handlers[fnName]] finds the [toString] that the plain object inherits:
    the registration takes this function as the cached file name, computes
    no hash and logs none, and the wrapper, its invocation string and the
    import registry are built from the function, not from
    [toString_5d48cb26]. *)
Theorem C4_inherited_name_is_not_hashed :
  let w := worldAt (Some 5%Z) in
  let inheritedToString := nativeFunction 1008 "toString" in
  let run :=
    ClientFunction w "toString" (VFunction pingFunction) (Some pageUrl)
      initialState in
  files (cache initialState) !! pageUrl = None
  /\ handlersOf <$> files (cache (snd run)) !! pageUrl = Some ∅
  /\ hashedFilename "toString" pingFunction = "toString_5d48cb26"
  /\ cachedFilenameAt w "toString" (Some pageUrl) initialState
     = Some inheritedToString
  /\ fst (resolvedId w "toString" pingFunction (Some pageUrl) initialState)
     = Return inheritedToString
  /\ fst (resolvedId w "toString" pingFunction (Some pageUrl) initialState)
     <> Return (VString "toString_5d48cb26")
  /\ console (snd run) = []
  /\ registryOf (snd run) pageUrl = [("toString", inheritedToString)]
  /\ exists this,
       fst run = Return this
       /\ this !! "filename" = Some inheritedToString
       /\ this !! "toString"
          = Some (VString
                    "handlers.function toString() { [native code] }(this, event)").
Proof.
  split; [reflexivity|].
  split; [vm_compute; reflexivity|].
  split; [vm_compute; reflexivity|].
  split; [vm_compute; reflexivity|].
  split; [vm_compute; reflexivity|].
  split; [vm_compute; discriminate|].
  split; [vm_compute; reflexivity|].
  split; [vm_compute; reflexivity|].
  exists (wrapperOf "toString" pingFunction (Some pageUrl)
            (nativeFunction 1008 "toString")).
  split; [vm_compute; reflexivity|].
  split; vm_compute; reflexivity.
Qed.

(** C5 on a fresh process whose cache file records the time 1 for
    [pageUrl], which now has the time 5. *)
Lemma C5_witness :
  plainName "ping"
  /\ (forall anyName,
        files (cache (snd ((loadCacheOnce worldWithOldCache ;;
                            lookupCachedFilename worldWithOldCache anyName
                              (Some pageUrl)) initialState))) !! pageUrl
        = Some {| mtimeMs := 5; handlersOf := ∅ |}
        /\ (forall id : string,
              cachedFilenameAt worldWithOldCache anyName (Some pageUrl)
                initialState <> Some (VString id))
        /\ (plainName anyName ->
            cachedFilenameAt worldWithOldCache anyName (Some pageUrl)
              initialState = None))
  /\ exists this st',
       runs (ClientFunction worldWithOldCache "ping" (VFunction pingFunction)
               (Some pageUrl)) initialState this st'
       /\ files (cache st') !! pageUrl =
            Some {| mtimeMs := 5;
                    handlersOf := {[ "ping" := hashedFilename "ping" pingFunction ]} |}.
Proof.
  assert (Hplain : plainName "ping") by (split; [reflexivity|discriminate]).
  split; [exact Hplain|].
  destruct (C5_stale_entry_is_discarded worldWithOldCache "ping" pingFunction
              pageUrl initialState
              {| mtimeMs := 1;
                 handlersOf := {[ "ping" := "ping_old"; "pong" := "pong_old" ]} |}
              5%Z) as [Hall Hreg].
  - reflexivity.
  - reflexivity.
  - vm_compute. reflexivity.
  - simpl. lia.
  - split; [exact Hall|exact (Hreg Hplain)].
Defined.

(** C5, as stated, fails inside one process. [ping] was registered while
    the page had the modification time 5, which the cache records; the page
    is then edited (time 9). A later registration under the same locator
    finds the cached id of [ping] (the lookup hits), and after the
    registration of [pong] the sub-map of the page still holds [ping] under
    the recorded time 5. *)
Lemma C5_counterexample :
  statMtime (worldAt (Some 9%Z)) pageUrl = Some 9%Z
  /\ mtimeMs <$> files (cache afterPing) !! pageUrl = Some 5%Z
  /\ cachedFilenameAt (worldAt (Some 9%Z)) "ping" (Some pageUrl) afterPing
     = Some (VString "ping_5d48cb26")
  /\ cachedFilenameAt (worldAt (Some 9%Z)) "ping" (Some pageUrl) afterPing
     <> None
  /\ files (cache (snd (ClientFunction (worldAt (Some 9%Z)) "pong"
                          (VFunction pongFunction) (Some pageUrl) afterPing)))
       !! pageUrl
     = Some {| mtimeMs := 5;
               handlersOf := {[ "ping" := "ping_5d48cb26";
                                "pong" := hashedFilename "pong" pongFunction ]} |}.
Proof.
  split; [reflexivity|].
  split; [vm_compute; reflexivity|].
  split; [vm_compute; reflexivity|].
  split; [vm_compute; discriminate|].
  vm_compute. reflexivity.
Qed.

(** C7 on the registration of [ping] in [pageUrl] by a fresh process. *)
Lemma C7_witness :
  exists id mid1 this st1,
    runs (resolvedId (worldAt (Some 5%Z)) "ping" pingFunction (Some pageUrl))
         initialState id mid1
    /\ runs (ClientFunction (worldAt (Some 5%Z)) "ping" (VFunction pingFunction)
               (Some pageUrl)) initialState this st1
    /\ cacheHit (Some id) = Some id
    /\ forall w2 st1', rtc step st1 st1' ->
         cachedFilenameAt w2 "ping" (Some pageUrl) st1' = Some id
         /\ runs (resolvedId w2 "ping" pingFunction (Some pageUrl)) st1' id st1'
         /\ exists st2,
              runs (ClientFunction w2 "ping" (VFunction pingFunction)
                      (Some pageUrl)) st1' this st2
              /\ console st2 = console st1'
              /\ statCalls st2 = statCalls st1'.
Proof.
  apply (C7_second_registration_hits (worldAt (Some 5%Z)) "ping" pingFunction
           pageUrl initialState 5%Z).
  - reflexivity.
  - reflexivity.
Defined.

(** C7, as stated, fails when the memo holds a failure. The page could not
    be read when the process first registered a handler in it; it exists
    afterwards, with the modification time 5 throughout. [ping] is then
    registered twice: the second registration finds nothing in the cache
    and hashes again. *)
Lemma C7_counterexample :
  let w := worldAt (Some 5%Z) in
  let st1 := snd (ClientFunction w "ping" (VFunction pingFunction)
                    (Some pageUrl) afterUnreadable) in
  let st2 := snd (ClientFunction w "ping" (VFunction pingFunction)
                    (Some pageUrl) st1) in
  statMtime w pageUrl = Some 5%Z
  /\ cachedFilenameAt w "ping" (Some pageUrl) st1 = None
  /\ console st2 = console st1 ++ [hashingLine "ping"]
  /\ console st2 <> console st1.
Proof.
  split; [reflexivity|].
  split; [vm_compute; reflexivity|].
  split; [vm_compute; reflexivity|].
  vm_compute. discriminate.
Qed.

(** The state after one registration is a state of a process. *)
Lemma afterPing_reachable : reachable afterPing.
Proof.
  apply rtc_once.
  eapply (step_ClientFunction (worldAt (Some 5%Z)) "ping"
            (VFunction pingFunction) (Some pageUrl)).
  apply surjective_pairing.
Defined.

(** C9 on the process that has registered [ping] in [pageUrl]: the page
    was read once, and the memo holds its time. *)
Lemma C9_witness :
  statCalls afterPing = [pageUrl]
  /\ sourceFileMtimeMemo afterPing !! pageUrl = Some (Some 5%Z)
  /\ NoDup (statCalls afterPing)
  /\ (forall u, u ∈ statCalls afterPing ->
        is_Some (sourceFileMtimeMemo afterPing !! u))
  /\ (forall w fnName f u,
        locator (Some u) = Some u ->
        exists this st',
          runs (ClientFunction w fnName (VFunction f) (Some u)) afterPing
               this st'
          /\ sourceFileMtimeMemo st' !! u = Some (observedMtime w afterPing u)
          /\ (sourceFileMtimeMemo afterPing !! u = None ->
                statCalls st' = statCalls afterPing ++ [u]
                /\ sourceFileMtimeMemo st' !! u = Some (statMtime w u))
          /\ (is_Some (sourceFileMtimeMemo afterPing !! u) ->
                statCalls st' = statCalls afterPing)
          /\ forall st'', rtc step st' st'' ->
               sourceFileMtimeMemo st'' !! u = sourceFileMtimeMemo st' !! u)
  /\ forall w u v,
       sourceFileMtimeMemo afterPing !! u = Some v ->
       runs (getSourceFileMtimeMs w u) afterPing v afterPing
       /\ forall fnName f, exists this st',
            runs (ClientFunction w fnName (VFunction f) (Some u)) afterPing
                 this st'
            /\ statCalls st' = statCalls afterPing
            /\ sourceFileMtimeMemo st' = sourceFileMtimeMemo afterPing
            /\ forall e, files (cache afterPing) !! u = Some e ->
                 exists e', files (cache st') !! u = Some e'
                   /\ mtimeMs e' = mtimeMs e
                   /\ forall name id, handlersOf e !! name = Some id ->
                        Js.truthy id = true ->
                        handlersOf e' !! name = Some id.
Proof.
  split; [reflexivity|]. split; [reflexivity|].
  exact (C9_mtime_is_memoized_per_process afterPing afterPing_reachable).
Defined.

(** C3: the failing input. A handler named [filename] resolves to
    [filename_5d48cb26], but the assignment of the property named after the
    handler overwrites the [filename] field: the field no longer holds the
    resolved id, the property is not the invocation string of the field,
    and the import registry records the invocation string as the id. *)
Theorem C3_handler_named_filename :
  let run :=
    ClientFunction (worldAt None) "filename" (VFunction pingFunction) None
      initialState in
  fst (resolvedId (worldAt None) "filename" pingFunction None initialState)
  = Return (VString "filename_5d48cb26")
  /\ exists this,
       fst run = Return this
       /\ this !! "filename"
          = Some (VString "handlers.filename_5d48cb26(this, event)")
       /\ strProp this "filename" <> "filename_5d48cb26"
       /\ this !! "filename"
          <> Some (VString (invocationString (strProp this "filename")))
       /\ registryOf (snd run) "__global__"
          = [("filename", VString "handlers.filename_5d48cb26(this, event)")].
Proof.
  split; [vm_compute; reflexivity|].
  exists (wrapperOf "filename" pingFunction None "filename_5d48cb26").
  split; [vm_compute; reflexivity|].
  split; [vm_compute; reflexivity|].
  split; [vm_compute; discriminate|].
  split; [vm_compute; discriminate|].
  vm_compute. reflexivity.
Qed.

(** Away from that name the property is the invocation string of the
    field: for every handler name other than [filename], the wrapper has a
    property of that name holding ["handlers.<id>(this, event)"], [<id>]
    being both the resolved id and the [filename] field. *)
Lemma invocation_string_of_filename w fnName f sourceFileUrl st :
  fnName <> "filename" ->
  exists id mid this st',
    runs (resolvedId w fnName f sourceFileUrl) st id mid
    /\ runs (ClientFunction w fnName (VFunction f) sourceFileUrl) st this st'
    /\ this !! "filename" = Some id
    /\ this !! fnName
       = Some (VString ("handlers." +:+ strProp this "filename" +:+ "(this, event)")).
Proof.
  intros Hname.
  destruct (loadCacheOnce_returns w st) as (st0 & R0 & _).
  assert (Hlook : exists c m st1,
            runs (lookupCachedFilename w fnName sourceFileUrl) st0 (c, m) st1).
  { destruct (locator sourceFileUrl) as [u|] eqn:Hloc.
    - destruct (lookupCachedFilename_runs w fnName sourceFileUrl u st0 Hloc)
        as (c & st1 & R1 & _). eauto.
    - eauto using lookupCachedFilename_no_locator. }
  destruct Hlook as (c & m & st1 & R1).
  assert (Hres : exists id st2,
            runs (resolveFilename fnName f sourceFileUrl c m) st1 id st2).
  { destruct (cacheHit c) as [s|] eqn:Hhit.
    - eauto using resolveFilename_hit.
    - destruct (resolveFilename_miss fnName f sourceFileUrl c m st1 Hhit)
        as (st2 & R2 & _). eauto. }
  destruct Hres as (id & st2 & R2).
  destruct (finishConstruction_runs fnName f sourceFileUrl id st2)
    as (st3 & R3 & _).
  destruct (registration_runs _ _ _ _ _ _ _ _ _ _ _ _ _ R0 R1 R2 R3)
    as [Rid Rnew].
  exists id, st2, (wrapperOf fnName f sourceFileUrl id), st3.
  split; [exact Rid|]. split; [exact Rnew|].
  pose proof (wrapperOf_filename fnName f sourceFileUrl id Hname) as Hfile.
  split; [exact Hfile|].
  rewrite strProp_toStr. unfold prop. rewrite Hfile. apply wrapperOf_invocation.
Qed.
(** ** The handler compiler *)

(** When the transpiler rejects the composite source, the method
    [buildCode] still returns: its result is the import lines joined by
    newlines, a newline, and ["export default "] followed by
    [this.fn.toString()]. On a wrapper whose [buildCode] and [fn] are what
    the class and the constructor made them, this is what the call returns,
    and it ends with the source text of the wrapped function. *)
Lemma fallback_is_composite_source w this st :
  let registry :=
    registryOf st (default "__global__" (optProp this "sourceFileUrl")) in
  esbuildTransform w (functionCodeOf this registry) buildCodeOptions = None ->
  (exists st',
     runs (buildCodeMethod w this) st
       (Js.join Js.newline (importLines this registry) +:+
        Js.newline +:+ "export default " +:+ strProp this "fn")
       st'
     /\ (this !! "buildCode" = None ->
         runs (buildCode w this) st
           (Js.join Js.newline (importLines this registry) +:+
            Js.newline +:+ "export default " +:+ strProp this "fn")
           st'))
  /\ forall f, this !! "fn" = Some (VFunction f) -> strProp this "fn" = fn_text f.
Proof.
  intros registry Hfail.
  destruct (buildCodeMethod_runs w this st) as (st' & R & _).
  fold registry in R. rewrite Hfail in R.
  split.
  - exists st'. split; [exact R|]. intros H. by rewrite (buildCode_method w this H).
  - intros f Hfn. unfold strProp. by rewrite Hfn.
Qed.

(** C6: the failing inputs. The transpiler rejects everything. For a
    handler named [fn], the property named after the handler has
    overwritten the [fn] field of the wrapper: [buildCode] returns a
    newline and ["export default "] followed by the invocation string, not
    by the source text of the function. For a handler named [buildCode],
    the property shadows the method, and the call throws. *)
Theorem C6_handler_named_fn :
  let w := worldAt None in
  let registered :=
    ClientFunction w "fn" (VFunction pingFunction) None initialState in
  let shadowed :=
    ClientFunction w "buildCode" (VFunction pingFunction) None initialState in
  (forall code options, esbuildTransform w code options = None)
  /\ fn_text pingFunction = "function(){return 1}"
  /\ (exists this,
        fst registered = Return this
        /\ this !! "fn" = Some (VString "handlers.fn_5d48cb26(this, event)")
        /\ fst (buildCode w this (snd registered))
           = Return (String "010"%char
                       "export default handlers.fn_5d48cb26(this, event)")
        /\ fst (buildCode w this (snd registered))
           <> Return (String "010"%char "export default function(){return 1}"))
  /\ exists this,
       fst shadowed = Return this
       /\ this !! "buildCode"
          = Some (VString "handlers.buildCode_5d48cb26(this, event)")
       /\ buildCode w this (snd shadowed)
          = (Throw "TypeError: this.buildCode is not a function", snd shadowed).
Proof.
  split; [reflexivity|]. split; [reflexivity|]. split.
  - exists (wrapperOf "fn" pingFunction None (VString "fn_5d48cb26")).
    split; [vm_compute; reflexivity|].
    split; [vm_compute; reflexivity|].
    split; [vm_compute; reflexivity|].
    vm_compute. discriminate.
  - exists (wrapperOf "buildCode" pingFunction None (VString "buildCode_5d48cb26")).
    split; [vm_compute; reflexivity|].
    split; [vm_compute; reflexivity|].
    vm_compute. reflexivity.
Qed.

(** C2. The handler step of the build gives its [minify] flag to
    [buildCode], which declares no parameter: the step does the same
    whatever the flag, and the one request the method [buildCode] sends to
    the transpiler asks for the [esm] format, the [esnext] target and no
    source map, and carries no [minify] option, so that nothing is
    minified. *)
Theorem C2_minify_flag_is_dropped w (minifyFlag : bool) handler dir st :
  Build.buildHandler w minifyFlag handler dir st
  = Build.buildHandler w (negb minifyFlag) handler dir st
  /\ exists code st' functionCode,
       runs (buildCodeMethod w handler) st code st'
       /\ transformCalls st' =
            transformCalls st ++ [(functionCode, buildCodeOptions)]
       /\ format buildCodeOptions = "esm"
       /\ target buildCodeOptions = ["esnext"]
       /\ sourcemap buildCodeOptions = false
       /\ minify buildCodeOptions = None
       /\ minifies buildCodeOptions = false.
Proof.
  split; [reflexivity|].
  destruct (buildCodeMethod_runs w handler st)
    as (st' & R & _ & _ & _ & _ & _ & T).
  eexists _, st', _. split; [exact R|]. split; [exact T|]. by repeat split.
Qed.

(** The failing input of C2: a build with [minify] set, one handler to
    build, an empty output directory. The one request to the transpiler
    carries no [minify] option. *)
Lemma C2_failing_input :
  transformCalls
    (snd (Build.buildHandler (worldAt (Some 5%Z)) true pongWrapper ∅
            afterPingPong))
  = [(functionCodeOf pongWrapper (registryOf afterPingPong pageUrl),
      {| loader := "ts"; format := "esm"; target := ["esnext"];
         sourcemap := false; minify := None |})].
Proof. vm_compute. reflexivity. Qed.
(** ** The cleanup of the output directory *)





(** ** The handler proxy *)

Lemma get_unloaded p name :
  Client.inTarget p name = false ->
  Client.get p (Client.KString name) =
  (Some (Client.Deferred (length (Client.imports p))),
   {| Client.basePath := Client.basePath p;
      Client.target := Client.target p;
      Client.imports :=
        Client.imports p ++
        [{| Client.specifier := Client.basePath p +:+ "/" +:+ name +:+ ".js";
            Client.callFunctionName := name;
            Client.settled := Client.Pending |}] |}).
Proof. intros Hnone. unfold Client.get. by rewrite Hnone. Qed.

Lemma invokeByName_unloaded p name args :
  Client.inTarget p name = false ->
  exists p',
    Client.invokeByName p name args
    = (Client.Awaits (length (Client.imports p)), p')
    /\ Client.target p' = Client.target p
    /\ Client.basePath p' = Client.basePath p
    /\ Client.imports p' =
         Client.imports p ++
         [{| Client.specifier := Client.basePath p +:+ "/" +:+ name +:+ ".js";
             Client.callFunctionName := name;
             Client.settled := Client.Pending |}].
Proof.
  intros Hnone. unfold Client.invokeByName. rewrite (get_unloaded _ _ Hnone).
  eexists. split.
  - unfold Client.invoke. cbn [Client.imports].
    rewrite lookup_app_r, Nat.sub_diag by lia. reflexivity.
  - by repeat split.
Qed.

Lemma invokeAll_unloaded name calls : forall p,
  Client.inTarget p name = false ->
  exists p',
    invokeAll p name calls
    = (map Client.Awaits (seq (length (Client.imports p)) (length calls)), p')
    /\ Client.target p' = Client.target p
    /\ Client.imports p' =
         Client.imports p ++
         replicate (length calls)
           {| Client.specifier := Client.basePath p +:+ "/" +:+ name +:+ ".js";
              Client.callFunctionName := name;
              Client.settled := Client.Pending |}.
Proof.
  induction calls as [|args calls IH]; intros p Hnone.
  - exists p. cbn. by rewrite app_nil_r.
  - destruct (invokeByName_unloaded p name args Hnone)
      as (p1 & R1 & T1 & B1 & I1).
    destruct (IH p1) as (p2 & R2 & T2 & I2);
      [by unfold Client.inTarget in *; rewrite T1|].
    exists p2. cbn [invokeAll]. rewrite R1, R2.
    split; [|split; [congruence|]].
    + rewrite I1, length_app. cbn [length seq map].
      by rewrite Nat.add_1_r.
    + rewrite I2, I1, B1, <- app_assoc. reflexivity.
Qed.

Lemma loadsOf_app p name extra :
  Client.loadsOf
    {| Client.basePath := Client.basePath p; Client.target := Client.target p;
       Client.imports := Client.imports p ++ extra |} name
  = Client.loadsOf p name ++ filter (fun i => Client.callFunctionName i = name) extra.
Proof. unfold Client.loadsOf. cbn. apply filter_app. Qed.

(** C1 (amended). Every access of a name that is not in [target] (its
    module is not loaded yet, and a plain object inherits nothing under
    it) evaluates [import()] once: [n] invocations [handlers.name(...)]
    made before a load resolves start [n] imports of the one specifier
    [<basePath>/<name>.js], the i-th invocation awaiting the import of its
    own access. What a single access returned is one callable bound to one
    import: all its invocations await that import, and receive the function
    it resolves to, called with the first argument as receiver and the
    others as arguments. *)
Theorem C1_one_import_per_access p name calls :
  Client.inTarget p name = false ->
  (exists p',
     invokeAll p name calls
     = (map Client.Awaits (seq (length (Client.imports p)) (length calls)), p')
     /\ Client.imports p' =
          Client.imports p ++
          replicate (length calls)
            {| Client.specifier := Client.basePath p +:+ "/" +:+ name +:+ ".js";
               Client.callFunctionName := name;
               Client.settled := Client.Pending |}
     /\ length (Client.loadsOf p' name)
        = length (Client.loadsOf p name) + length calls)
  /\ exists c p1,
       Client.get p (Client.KString name) = (Some c, p1)
       /\ length (Client.imports p1) = S (length (Client.imports p))
       /\ (forall args,
             Client.invoke p1 c args = Client.Awaits (length (Client.imports p)))
       /\ forall scriptContent args,
            Client.invoke
              (Client.settle p1 (length (Client.imports p)) (Some scriptContent))
              c args
            = Client.Calls scriptContent (hd VUndefined args) (tl args).
Proof.
  intros Hnone. split.
  - destruct (invokeAll_unloaded name calls p Hnone) as (p' & R & T & I).
    exists p'. split; [exact R|]. split; [exact I|].
    unfold Client.loadsOf. rewrite I, filter_app, length_app. f_equal.
    clear. induction (length calls) as [|k IH]; [reflexivity|].
    cbn [replicate]. rewrite filter_cons_True by reflexivity.
    cbn [length]. by rewrite IH.
  - rewrite (get_unloaded _ _ Hnone). eexists _, _. split; [reflexivity|].
    split; [cbn; rewrite length_app; cbn; lia|].
    split.
    + intros args. unfold Client.invoke. cbn [Client.imports].
      by rewrite lookup_app_r, Nat.sub_diag by lia.
    + intros scriptContent args. unfold Client.settle, Client.invoke.
      cbn [Client.imports].
      rewrite lookup_app_r, Nat.sub_diag by lia. cbn.
      rewrite list_lookup_insert_eq by (rewrite length_app; cbn; lia).
      reflexivity.
Qed.

(** C1 on two invocations of [foo] through a new proxy. *)
Lemma C1_witness :
  let p := Client.createHandlerProxy "." in
  exists p',
    invokeAll p "foo" [[VUndefined]; [VUndefined]]
    = ([Client.Awaits 0; Client.Awaits 1], p')
    /\ length (Client.loadsOf p' "foo") = 2.
Proof.
  intros p.
  destruct (C1_one_import_per_access p "foo" [[VUndefined]; [VUndefined]]
              eq_refl) as [(p' & R & _ & L) _].
  exists p'. split; [exact R|exact L].
Defined.

(** C1, as stated, fails: two invocations of an unloaded name made before
    anything resolves evaluate [import("./foo.js")] twice, and they await
    different imports. *)
Lemma C1_counterexample :
  let p := Client.createHandlerProxy "." in
  let run := invokeAll p "foo" [[VString "button"]; [VString "button"]] in
  fst run = [Client.Awaits 0; Client.Awaits 1]
  /\ map Client.specifier (Client.loadsOf (snd run) "foo")
     = ["./foo.js"; "./foo.js"]
  /\ length (Client.loadsOf (snd run) "foo") <> 1.
Proof.
  intros p run.
  split; [vm_compute; reflexivity|].
  split; [vm_compute; reflexivity|].
  vm_compute. discriminate.
Qed.
(** ** More on the hash *)

Section HashFacts.
Local Open Scope Z_scope.

Lemma hashCode_spec_wraps codes : forall h p,
  Js.toInt32 h = Js.toInt32 p ->
  fold_left hashStep_spec codes (Js.toInt32 h)
  = Js.toInt32 (fold_left (fun h c => h * 31 + c) codes p).
Proof.
  induction codes as [|c codes IH]; intros h p Hhp; cbn [fold_left].
  - by rewrite Hhp.
  - assert (Hstep : hashStep_spec (Js.toInt32 h) c = Js.toInt32 (p * 31 + c)).
    { unfold hashStep_spec. rewrite Hhp. apply toInt32_congr.
      rewrite Z.add_mod, Z.mul_mod, toInt32_mod by lia.
      by rewrite <- Z.mul_mod, <- Z.add_mod by lia. }
    rewrite Hstep.
    rewrite <- (toInt32_idem (p * 31 + c)).
    apply IH. by rewrite toInt32_idem.
Qed.

(** X1. The wrap-around of the hash loop can be put off to the end: the
    hash of a text is the polynomial in 31 of its code units, computed in
    the integers and wrapped to 32 bits once. Hence the hash of a
    concatenation is got from the hashes of the parts. *)
Theorem hash_wraps_once codes :
  hashCode codes = Js.toInt32 (hashPolynomial codes)
  /\ forall more,
       hashCode (codes ++ more)
       = Js.toInt32 (hashCode codes * 31 ^ Z.of_nat (length more)
                     + hashPolynomial more).
Proof.
  assert (Hwrap : forall l, hashCode l = Js.toInt32 (hashPolynomial l)).
  { intros l. rewrite hashCode_is_spec. unfold hashCode_spec, hashPolynomial.
    rewrite <- (toInt32_small 0) at 1 by lia.
    by apply hashCode_spec_wraps. }
  split; [apply Hwrap|].
  intros more. rewrite !Hwrap. apply toInt32_congr.
  rewrite Z.add_mod, Z.mul_mod, toInt32_mod, <- Z.mul_mod, <- Z.add_mod by lia.
  f_equal. unfold hashPolynomial. rewrite fold_left_app.
  generalize (fold_left (fun h c => h * 31 + c) codes 0). clear.
  induction more as [|c more IH]; intros h; cbn [fold_left length].
  - rewrite Z.pow_0_r. lia.
  - rewrite IH, (IH (0 * 31 + c)), Nat2Z.inj_succ, Z.pow_succ_r by lia. lia.
Qed.

(** X2. From a 32-bit hash and a UTF-16 code unit, the value computed
    before [|= 0] stays far inside the range where JavaScript numbers are
    exact integers, and the step gives a 32-bit value again. *)
Theorem hash_step_is_exact h c :
  - 2 ^ 31 <= h < 2 ^ 31 ->
  0 <= c < 2 ^ 16 ->
  - 2 ^ 53 < Js.shl h 5 - h + c < 2 ^ 53
  /\ - 2 ^ 31 <= hashStep h c < 2 ^ 31.
Proof.
  intros Hh Hc. split.
  - rewrite shl_5. pose proof (toInt32_range (h * 32)). lia.
  - rewrite hashStep_is_spec. apply toInt32_range.
Qed.

Lemma hash_step_is_exact_witness :
  - 2 ^ 53 < Js.shl 2147483647 5 - 2147483647 + 65535 < 2 ^ 53
  /\ - 2 ^ 31 <= hashStep 2147483647 65535 < 2 ^ 31.
Proof. apply hash_step_is_exact; lia. Defined.

End HashFacts.
(** ** The flushing of the cache *)

Lemma snd_bind {A B} (m : M A) (k : A -> M B) st :
  snd (bind m k st) =
  match m st with
  | (Return a, st1) => snd (k a st1)
  | (Throw _, st1) => st1
  end.
Proof. unfold bind. by destruct (m st) as [[a|e] st1]. Qed.

(** A relation between the states before and after that holds of two
    pieces holds of their sequence. *)
Lemma rel_bind {A B} (R : State -> State -> Prop) (m : M A) (k : A -> M B) :
  (forall st1 st2 st3, R st1 st2 -> R st2 st3 -> R st1 st3) ->
  (forall st, R st (snd (m st))) ->
  (forall a st, R st (snd (k a st))) ->
  forall st, R st (snd (bind m k st)).
Proof.
  intros Htrans Hm Hk st. rewrite snd_bind.
  specialize (Hm st). destruct (m st) as [[a|e] st1]; simpl in Hm; [|exact Hm].
  exact (Htrans _ _ _ Hm (Hk a st1)).
Qed.

Lemma marks_refl st : marks st st.
Proof. constructor; auto. Qed.

Lemma marks_trans st1 st2 st3 : marks st1 st2 -> marks st2 st3 -> marks st1 st3.
Proof.
  intros [L1 W1 V1 F1] [L2 W2 V2 F2].
  constructor; try congruence.
  destruct F1 as [(K1 & D1 & S1 & M1) | (D1 & S1 & M1)];
    destruct F2 as [(K2 & D2 & S2 & M2) | (D2 & S2 & M2)].
  - left. repeat split; congruence.
  - right. rewrite S1, M1 in M2. auto.
  - right. repeat split; congruence.
  - right. rewrite S1 in M2. repeat split; congruence.
Qed.

Lemma marks_bind {A B} (m : M A) (k : A -> M B) :
  (forall st, marks st (snd (m st))) ->
  (forall a st, marks st (snd (k a st))) ->
  forall st, marks st (snd (bind m k st)).
Proof. apply rel_bind, marks_trans. Qed.

Lemma loadCacheOnce_loaded w st :
  cacheLoaded st = true -> loadCacheOnce w st = (Return tt, st).
Proof. intros Hl. unfold loadCacheOnce, bind, get. by rewrite Hl. Qed.

Lemma scheduleCacheFlush_marks st : marks st (snd (scheduleCacheFlush st)).
Proof.
  unfold scheduleCacheFlush. unfold_m.
  destruct (cacheDirty st) eqn:Hd; [|apply marks_refl].
  destruct (cacheFlushScheduled st) eqn:Hs; [apply marks_refl|].
  simpl. constructor; simpl; auto. right. by rewrite Hs.
Qed.

Lemma store_entry_marks u e st :
  marks st
    (snd ((setFileEntry u e ;; modify (with_cacheDirty true) ;;
           scheduleCacheFlush) st)).
Proof.
  unfold setFileEntry, scheduleCacheFlush. unfold_m. simpl.
  destruct (cacheFlushScheduled st) eqn:Hs; simpl;
    (constructor; simpl; auto; right; by rewrite Hs).
Qed.

Lemma getSourceFileMtimeMs_marks w u st :
  marks st (snd (getSourceFileMtimeMs w u st)).
Proof.
  unfold getSourceFileMtimeMs. unfold_m.
  destruct (sourceFileMtimeMemo st !! u); simpl; constructor; simpl; auto.
Qed.

Lemma lookupCachedFilename_marks w n url st :
  marks st (snd (lookupCachedFilename w n url st)).
Proof.
  unfold lookupCachedFilename.
  destruct (locator url) as [u|]; [|apply marks_refl].
  revert st. apply marks_bind; [apply getSourceFileMtimeMs_marks|].
  intros [m|] st; [|apply marks_refl].
  revert st. apply marks_bind; [intros; apply marks_refl|].
  intros st0 st. apply marks_bind; [|intros; apply marks_refl].
  clear st. intros st.
  destruct (files (cache st0) !! u) as [e|];
    [destruct (mtimeMs e =? m)%Z; [apply marks_refl|]|];
    apply store_entry_marks.
Qed.

Lemma resolveFilename_marks n f url c m st :
  marks st (snd (resolveFilename n f url c m st)).
Proof.
  unfold resolveFilename.
  destruct (cacheHit c); [apply marks_refl|].
  revert st. apply marks_bind.
  { intros st. constructor; simpl; auto. }
  intros _ st. destruct (locator url) as [u|]; [destruct m as [mt|]|];
    try apply marks_refl.
  revert st. apply marks_bind; [intros; apply marks_refl|].
  intros st0 st.
  pose proof (store_entry_marks u
    {| mtimeMs := mtimeMs (default {| mtimeMs := mt; handlersOf := ∅ |}
                             (files (cache st0) !! u));
       handlersOf := <[n := hashedFilename n f]>
         (handlersOf (default {| mtimeMs := mt; handlersOf := ∅ |}
                        (files (cache st0) !! u))) |} st) as Hstore.
  revert Hstore. unfold bind.
  destruct (setFileEntry _ _ st) as [[[]|] st1]; [|done].
  destruct (modify (with_cacheDirty true) st1) as [[[]|] st2]; [|done].
  by destruct (scheduleCacheFlush st2) as [[[]|] st3].
Qed.

Lemma finishConstruction_marks n f url id st :
  marks st (snd (finishConstruction n f url id st)).
Proof.
  unfold finishConstruction, getImportRegistry, registrySet. unfold_m. simpl.
  destruct (importsBySourceFileUrl st !! default "__global__" url);
    simpl; constructor; simpl; auto.
Qed.
Lemma same_flush_marks st st' : same_flush st st' -> marks st st'.
Proof. intros [L K D S M W]. constructor; try congruence. left. auto. Qed.

Lemma finishConstruction_same_flush n f url id st :
  same_flush st (snd (finishConstruction n f url id st)).
Proof.
  unfold finishConstruction, getImportRegistry, registrySet. unfold_m. simpl.
  by destruct (importsBySourceFileUrl st !! default "__global__" url).
Qed.

Lemma register_same_flush this target st :
  same_flush st (snd (register this target st)).
Proof.
  unfold register. destruct (methodShadowed this "register"); [done|].
  unfold registerMethod, getImportRegistry, registrySet. unfold_m. simpl.
  by destruct (importsBySourceFileUrl st !! target).
Qed.

Lemma buildCode_same_flush w this st :
  same_flush st (snd (buildCode w this st)).
Proof.
  unfold buildCode. destruct (methodShadowed this "buildCode"); [done|].
  unfold buildCodeMethod, getImportRegistry. unfold_m. simpl.
  destruct (importsBySourceFileUrl st !! _); simpl;
    by destruct (esbuildTransform w _ _).
Qed.

Lemma loadCacheOnce_snd w st :
  loadCacheOnce w st = (Return tt, snd (loadCacheOnce w st)).
Proof.
  destruct (loadCacheOnce_returns w st) as (st0 & R0 & _). by rewrite R0.
Qed.

Lemma registration_snd w n f url st :
  snd (ClientFunction w n (VFunction f) url st)
  = snd ((let! (cachedFilename, sourceMtimeMs) :=
            lookupCachedFilename w n url in
          let! resolvedFilename :=
            resolveFilename n f url cachedFilename sourceMtimeMs in
          finishConstruction n f url resolvedFilename)
           (snd (loadCacheOnce w st))).
Proof.
  unfold ClientFunction. rewrite snd_bind, (loadCacheOnce_snd w st). reflexivity.
Qed.

(** From the state the lazy load leaves, a registration either leaves the
    cache and its flushing alone or marks the cache dirty with a flush
    queued. *)
Lemma registration_marks w n f url st :
  marks (snd (loadCacheOnce w st))
        (snd (ClientFunction w n (VFunction f) url st)).
Proof.
  rewrite registration_snd. generalize (snd (loadCacheOnce w st)).
  apply marks_bind; [apply lookupCachedFilename_marks|].
  intros [c m]. apply marks_bind; [apply resolveFilename_marks|].
  intros id st0. apply finishConstruction_marks.
Qed.

Lemma validCache_version parsed c : validCache parsed = Some c -> version c = 1%Z.
Proof.
  unfold validCache.
  destruct (parsed_version parsed) as [v|]; [|discriminate].
  destruct (parsed_files parsed) as [fs|]; [|discriminate].
  destruct (Z.eqb_spec v 1); [|discriminate]. by intros [= <-].
Qed.

Lemma flush_invariant_initial : flush_invariant initialState.
Proof. constructor; simpl; auto. discriminate. Qed.

Lemma loadCacheOnce_flush_invariant w st :
  flush_invariant st -> flush_invariant (snd (loadCacheOnce w st)).
Proof.
  intros Hinv.
  destruct (cacheLoaded st) eqn:Hl.
  { by rewrite (loadCacheOnce_loaded w st Hl). }
  destruct Hinv as [I1 I2 I3 I4 I5].
  destruct (I2 Hl) as (Hw & Hs & Hd).
  unfold loadCacheOnce. unfold_m. rewrite Hl.
  destruct (readCacheFile w) as [parsed|];
    [destruct (validCache parsed) as [c|] eqn:Hvalid|]; simpl;
    constructor; simpl; auto; try discriminate.
  - rewrite Hw. discriminate.
  - exact (validCache_version _ _ Hvalid).
Qed.

Lemma marks_flush_invariant st st' :
  cacheLoaded st = true ->
  marks st st' -> flush_invariant st -> flush_invariant st'.
Proof.
  intros Hl [L W V F] [I1 I2 I3 I4 I5].
  constructor.
  - destruct F as [(K & D & S & M) | (D & S & M)].
    + by rewrite M, S.
    + rewrite S, M. rewrite I1. by destruct (cacheFlushScheduled st).
  - rewrite L, Hl. discriminate.
  - destruct F as [(K & D & S & M) | (D & S & M)].
    + rewrite D, W, K. exact I3.
    + rewrite D. discriminate.
  - by rewrite V.
  - by rewrite W.
Qed.

Lemma same_flush_invariant st st' :
  same_flush st st' -> flush_invariant st -> flush_invariant st'.
Proof.
  intros [L K D S M W] [I1 I2 I3 I4 I5].
  constructor; rewrite ?L, ?K, ?D, ?S, ?M, ?W; assumption.
Qed.

Lemma runCacheFlush_flush_invariant w st :
  (0 < microtasks st)%nat ->
  flush_invariant st -> flush_invariant (snd (runCacheFlush w st)).
Proof.
  intros Hpos [I1 I2 I3 I4 I5].
  assert (Hs : cacheFlushScheduled st = true).
  { destruct (cacheFlushScheduled st); [reflexivity|]. rewrite I1 in Hpos. lia. }
  assert (Hl : cacheLoaded st = true).
  { destruct (cacheLoaded st) eqn:Hl; [reflexivity|].
    destruct (I2 eq_refl) as (_ & Hs' & _). congruence. }
  rewrite Hs in I1.
  unfold runCacheFlush. unfold_m. simpl.
  destruct (cacheDirty st) eqn:Hd; simpl;
    [destruct (writeCacheFile w); simpl|];
    constructor; simpl; rewrite ?I1; auto; try congruence.
  - intros _ c. rewrite last_snoc. by intros [= <-].
  - apply Forall_app. split; [exact I5|]. by constructor.
Qed.

Lemma step_flush_invariant st st' :
  step st st' -> flush_invariant st -> flush_invariant st'.
Proof.
  intros Hstep Hinv. destruct Hstep as
    [w n v url st out st' Hrun | this target st out st' Hrun
    | w this st out st' Hrun | w st out st' Hpos Hrun].
  - destruct v as [|s|f]; try (injection Hrun as _ <-; exact Hinv).
    replace st' with (snd (ClientFunction w n (VFunction f) url st))
      by (by rewrite Hrun).
    eapply marks_flush_invariant; [|apply registration_marks|].
    + by destruct (loadCacheOnce_returns w st) as (st0 & -> & L0 & _).
    + by apply loadCacheOnce_flush_invariant.
  - replace st' with (snd (register this target st)) by (by rewrite Hrun).
    eapply same_flush_invariant; [apply register_same_flush|exact Hinv].
  - replace st' with (snd (buildCode w this st)) by (by rewrite Hrun).
    eapply same_flush_invariant; [apply buildCode_same_flush|exact Hinv].
  - replace st' with (snd (runCacheFlush w st)) by (by rewrite Hrun).
    by apply runCacheFlush_flush_invariant.
Qed.

Lemma reachable_flush_invariant st : reachable st -> flush_invariant st.
Proof.
  unfold reachable. revert st.
  apply (rtc_ind_r (fun st => flush_invariant st) initialState).
  - exact flush_invariant_initial.
  - intros st st' _ Hstep Hinv. exact (step_flush_invariant _ _ Hstep Hinv).
Qed.

Lemma clean_cache_version st c :
  reachable st -> last (cacheWrites st) = Some c -> version c = 1%Z.
Proof.
  intros Hreach Hlast.
  pose proof (fi_written _ (reachable_flush_invariant _ Hreach)) as Hall.
  rewrite Forall_forall in Hall. apply Hall.
  destruct (cacheWrites st) as [|c0 l] using rev_ind; [discriminate|].
  rewrite last_snoc in Hlast. injection Hlast as ->.
  apply elem_of_app. right. by left.
Qed.

(** X3. Flushes are coalesced: at any moment of a process at most one
    flush of the cache is queued, and one is queued exactly when
    [cacheFlushScheduled] is set, however many registrations have marked the
    cache dirty since the last flush ran. *)
Theorem flush_is_coalesced st :
  reachable st ->
  (microtasks st <= 1)%nat
  /\ (microtasks st = 1%nat <-> cacheFlushScheduled st = true).
Proof.
  intros Hreach.
  pose proof (fi_microtasks _ (reachable_flush_invariant _ Hreach)) as Hm.
  rewrite Hm. destruct (cacheFlushScheduled st); split; try lia; by split.
Qed.

(** X4. The dirty flag is sound: whenever it is clear and the process has
    written the cache file, the last document written is the cache in
    memory. Every document written has version 1, as the cache itself
    always has. *)
Theorem clean_cache_is_on_disk st :
  reachable st ->
  (cacheDirty st = false ->
   forall c, last (cacheWrites st) = Some c -> c = cache st)
  /\ version (cache st) = 1%Z
  /\ Forall (fun c => version c = 1%Z) (cacheWrites st).
Proof.
  intros Hreach. destruct (reachable_flush_invariant _ Hreach) as [_ _ I3 I4 I5].
  auto.
Qed.

(** X5. In a process, a registration writes nothing itself, and whenever
    it changes the cache (the cache after the lazy load being the
    reference) it leaves the cache marked dirty with a flush queued. *)
Theorem cache_change_schedules_flush w fnName f sourceFileUrl st :
  reachable st ->
  let st0 := snd (loadCacheOnce w st) in
  let st' := snd (ClientFunction w fnName (VFunction f) sourceFileUrl st) in
  cacheWrites st' = cacheWrites st
  /\ (cache st' <> cache st0 ->
      cacheDirty st' = true /\ cacheFlushScheduled st' = true
      /\ (0 < microtasks st')%nat).
Proof.
  intros Hreach st0 st'.
  pose proof (fi_microtasks _
    (loadCacheOnce_flush_invariant w _ (reachable_flush_invariant _ Hreach)))
    as Hmicro. fold st0 in Hmicro.
  destruct (registration_marks w fnName f sourceFileUrl st) as [_ W _ F].
  fold st0 st' in W, F. split.
  - rewrite W. subst st0. clear.
    unfold loadCacheOnce. unfold_m.
    destruct (cacheLoaded st); [reflexivity|].
    by destruct (readCacheFile w) as [p|]; [destruct (validCache p)|].
  - intros Hchange. destruct F as [(K & _) | (D & S & M)]; [done|].
    repeat split; auto. rewrite M, Hmicro.
    destruct (cacheFlushScheduled st0); lia.
Qed.
Lemma flush_is_coalesced_witness :
  (microtasks afterPing <= 1)%nat
  /\ (microtasks afterPing = 1%nat <-> cacheFlushScheduled afterPing = true).
Proof. exact (flush_is_coalesced afterPing afterPing_reachable). Defined.

Lemma afterPingFlushed_reachable : reachable afterPingFlushed.
Proof.
  eapply rtc_r; [exact afterPing_reachable|].
  eapply (step_runCacheFlush (worldAt (Some 5%Z)) afterPing).
  - vm_compute. lia.
  - apply surjective_pairing.
Defined.

Lemma clean_cache_is_on_disk_witness :
  (cacheDirty afterPingFlushed = false ->
   forall c, last (cacheWrites afterPingFlushed) = Some c ->
   c = cache afterPingFlushed)
  /\ version (cache afterPingFlushed) = 1%Z
  /\ Forall (fun c => version c = 1%Z) (cacheWrites afterPingFlushed).
Proof. exact (clean_cache_is_on_disk afterPingFlushed afterPingFlushed_reachable). Defined.

Lemma initialState_reachable : reachable initialState.
Proof. apply rtc_refl. Defined.

Lemma cache_change_schedules_flush_witness :
  let st0 := snd (loadCacheOnce (worldAt (Some 5%Z)) initialState) in
  let st' := afterPing in
  cache st' <> cache st0
  /\ cacheWrites st' = cacheWrites initialState
  /\ cacheDirty st' = true /\ cacheFlushScheduled st' = true
  /\ (0 < microtasks st')%nat.
Proof.
  intros st0 st'.
  assert (Hchange : cache st' <> cache st0) by (vm_compute; discriminate).
  split; [exact Hchange|].
  destruct (cache_change_schedules_flush (worldAt (Some 5%Z)) "ping"
              pingFunction (Some pageUrl) initialState initialState_reachable)
    as [W F].
  split; [exact W|]. exact (F Hchange).
Defined.

(** ** Loading the cache file *)

(** X6. A cache file that is missing or unparsable, whose version is not
    1, or that has no [files], is ignored: the first registration goes on
    with the cache it had, nothing is thrown, and the file is not read
    again whatever it becomes. *)
Theorem invalid_cache_file_is_ignored w st :
  cacheLoaded st = false ->
  match readCacheFile w with
  | None => True
  | Some parsed =>
      parsed_version parsed <> Some 1%Z \/ parsed_files parsed = None
  end ->
  loadCacheOnce w st = (Return tt, with_cacheLoaded true st)
  /\ forall w',
       loadCacheOnce w' (with_cacheLoaded true st)
       = (Return tt, with_cacheLoaded true st).
Proof.
  intros Hl Hinvalid. split.
  - unfold loadCacheOnce. unfold_m. rewrite Hl.
    destruct (readCacheFile w) as [parsed|]; [|reflexivity].
    unfold validCache.
    destruct (parsed_version parsed) as [v|]; [|reflexivity].
    destruct (parsed_files parsed) as [fs|]; [|reflexivity].
    destruct (Z.eqb_spec v 1) as [-> | Hv]; [|reflexivity].
    by destruct Hinvalid.
  - intros w'. by apply loadCacheOnce_loaded.
Qed.

Lemma invalid_cache_file_is_ignored_witness :
  loadCacheOnce worldWithForeignCache initialState
  = (Return tt, with_cacheLoaded true initialState)
  /\ forall w',
       loadCacheOnce w' (with_cacheLoaded true initialState)
       = (Return tt, with_cacheLoaded true initialState).
Proof.
  apply invalid_cache_file_is_ignored.
  - reflexivity.
  - simpl. left. discriminate.
Defined.

(** ** A registration served from the cache *)

Lemma getSourceFileMtimeMs_same_flush w u st :
  same_flush st (snd (getSourceFileMtimeMs w u st)).
Proof.
  unfold getSourceFileMtimeMs. unfold_m.
  by destruct (sourceFileMtimeMemo st !! u).
Qed.

(** The lookup when the cache entry of the file records the time
    obtained: nothing is invalidated. *)
Lemma lookupCachedFilename_matching w n u st e :
  locator (Some u) = Some u ->
  files (cache st) !! u = Some e ->
  observedMtime w st u = Some (mtimeMs e) ->
  lookupCachedFilename w n (Some u) st
  = (Return (getHandler (handlersOf e) n, Some (mtimeMs e)),
     snd (getSourceFileMtimeMs w u st)).
Proof.
  intros Hloc He Hobs.
  destruct (getSourceFileMtimeMs_runs w u st) as (st1 & R1 & _ & K1 & _).
  rewrite Hobs in R1. unfold lookupCachedFilename. rewrite Hloc.
  rewrite (bind_runs _ _ _ _ _ R1). unfold runs in R1. rewrite R1. simpl.
  unfold bind, get, ret. rewrite K1, He, Z.eqb_refl. by rewrite K1, He.
Qed.

Lemma registration_from_cache w n f u st e id :
  locator (Some u) = Some u ->
  cacheLoaded st = true ->
  files (cache st) !! u = Some e ->
  observedMtime w st u = Some (mtimeMs e) ->
  handlersOf e !! n = Some id ->
  Js.truthy id = true ->
  let st1 := snd (getSourceFileMtimeMs w u st) in
  cachedFilenameAt w n (Some u) st = Some (VString id)
  /\ exists st',
       runs (ClientFunction w n (VFunction f) (Some u)) st
            (wrapperOf n f (Some u) id) st'
       /\ same_flush st st'
       /\ console st' = console st
       /\ statCalls st' = statCalls st1
       /\ sourceFileMtimeMemo st' = sourceFileMtimeMemo st1.
Proof.
  intros Hloc Hl He Hobs Hid Ht st1.
  pose proof (loadCacheOnce_loaded w st Hl) as R0.
  pose proof (lookupCachedFilename_matching w n u st e Hloc He Hobs) as R1.
  rewrite (getHandler_own _ _ _ Hid) in R1. fold st1 in R1.
  pose proof (resolveFilename_hit n f (Some u) (Some (VString id))
                (Some (mtimeMs e)) id st1 (cacheHit_truthy (VString id) Ht))
    as R2.
  destruct (finishConstruction_runs n f (Some u) id st1)
    as (st3 & R3 & [_ _ M3 S3 C3] & _).
  destruct (registration_runs _ _ _ _ _ _ _ _ _ _ _ _ _ R0 R1 R2 R3)
    as [_ Rnew].
  split; [exact (cachedFilenameAt_runs _ _ _ _ _ _ _ _ R0 R1)|].
  exists st3. split; [exact Rnew|].
  pose proof (finishConstruction_same_flush n f (Some u) id st1) as F3.
  unfold runs in R3. rewrite R3 in F3. simpl in F3.
  pose proof (getSourceFileMtimeMs_same_flush w u st) as F1. fold st1 in F1.
  destruct F1, F3.
  split; [constructor; congruence|].
  split; [|by split].
  rewrite C3. subst st1. clear.
  unfold getSourceFileMtimeMs. unfold_m.
  by destruct (sourceFileMtimeMemo st !! u).
Qed.

(** X7. A registration served from the cache changes nothing but the
    registries: when the memo and the cache entry of the file agree and the
    entry has a usable id for the name, the wrapper is built from that id
    and the cache, the dirty flag, the queue of flushes, the documents
    written, the memo, the stat calls and the console are all as
    before. *)
Theorem cache_hit_changes_only_registries w fnName f u id st :
  locator (Some u) = Some u ->
  Js.truthy id = true ->
  cachedFor u fnName id st ->
  exists st',
    runs (ClientFunction w fnName (VFunction f) (Some u)) st
         (wrapperOf fnName f (Some u) id) st'
    /\ same_flush st st'
    /\ same_naming st st'.
Proof.
  intros Hloc Ht (Hl & m & e & Hmemo & He & Hm & Hid).
  assert (Hobs : observedMtime w st u = Some (mtimeMs e)).
  { unfold observedMtime. by rewrite Hmemo, Hm. }
  destruct (registration_from_cache w fnName f u st e id Hloc Hl He Hobs Hid Ht)
    as (_ & st' & Rnew & F & C & S & M).
  assert (Hst1 : snd (getSourceFileMtimeMs w u st) = st).
  { by rewrite (getSourceFileMtimeMs_memo w u st _ Hmemo). }
  rewrite Hst1 in S, M.
  exists st'. split; [exact Rnew|]. split; [exact F|].
  destruct F. by constructor.
Qed.

Lemma afterPing_cachedFor : cachedFor pageUrl "ping" "ping_5d48cb26" afterPing.
Proof.
  split; [reflexivity|].
  exists 5%Z, {| mtimeMs := 5; handlersOf := {[ "ping" := "ping_5d48cb26" ]} |}.
  repeat split; vm_compute; reflexivity.
Defined.

Lemma cache_hit_changes_only_registries_witness :
  exists st',
    runs (ClientFunction (worldAt (Some 9%Z)) "ping" (VFunction pongFunction)
            (Some pageUrl)) afterPing
         (wrapperOf "ping" pongFunction (Some pageUrl) "ping_5d48cb26") st'
    /\ same_flush afterPing st'
    /\ same_naming afterPing st'.
Proof.
  apply cache_hit_changes_only_registries.
  - reflexivity.
  - reflexivity.
  - exact afterPing_cachedFor.
Defined.

(** X8. What a process leaves on disk serves the next one. A process reads
    the cache file last written by an earlier process, the page having the
    modification time that document records; its first registration of a
    name the document has a usable id for takes that id: one read of the
    modification time, no hashing, and the cache, equal to the document, is
    neither dirty nor queued for a flush. *)
Theorem restart_reuses_written_cache st1 c w u e fnName id f :
  reachable st1 ->
  last (cacheWrites st1) = Some c ->
  files c !! u = Some e ->
  handlersOf e !! fnName = Some id ->
  Js.truthy id = true ->
  locator (Some u) = Some u ->
  readCacheFile w = Some (writtenDocument c) ->
  statMtime w u = Some (mtimeMs e) ->
  cachedFilenameAt w fnName (Some u) initialState = Some (VString id)
  /\ exists st',
       runs (ClientFunction w fnName (VFunction f) (Some u)) initialState
            (wrapperOf fnName f (Some u) id) st'
       /\ cache st' = c
       /\ cacheDirty st' = false /\ microtasks st' = 0%nat
       /\ console st' = [] /\ statCalls st' = [u].
Proof.
  intros Hreach Hlast He Hid Ht Hloc Hread Hstat.
  assert (Hv : version c = 1%Z).
  { destruct (clean_cache_version st1 c Hreach Hlast). reflexivity. }
  set (st0 := with_cache c (with_cacheLoaded true initialState)).
  assert (R0 : runs (loadCacheOnce w) initialState tt st0).
  { unfold runs, loadCacheOnce. unfold_m. simpl. rewrite Hread.
    unfold validCache, writtenDocument. simpl. rewrite Hv. simpl.
    subst st0. destruct c as [v fs]. simpl in Hv. by subst v. }
  assert (Hobs : observedMtime w st0 u = Some (mtimeMs e)).
  { unfold observedMtime. simpl. by rewrite lookup_empty. }
  destruct (registration_from_cache w fnName f u st0 e id Hloc eq_refl He Hobs
              Hid Ht) as (Hc & st' & Rnew & [_ K D _ Mi _] & C & S & _).
  assert (Hnew : forall A (k : unit -> M A),
            bind (loadCacheOnce w) k initialState = k tt st0).
  { intros A k. exact (bind_runs _ _ _ _ _ R0). }
  split.
  - unfold cachedFilenameAt in *. rewrite Hnew.
    by rewrite (bind_runs _ _ _ _ _ (loadCacheOnce_loaded w st0 eq_refl)) in Hc.
  - exists st'. split.
    + unfold runs, ClientFunction in *. rewrite Hnew.
      by rewrite (bind_runs _ _ _ _ _ (loadCacheOnce_loaded w st0 eq_refl)) in Rnew.
    + rewrite K, D, Mi, C, S. by repeat split.
Qed.
Lemma restart_reuses_written_cache_witness :
  cachedFilenameAt worldAfterRestart "ping" (Some pageUrl) initialState
  = Some (VString "ping_5d48cb26")
  /\ exists st',
       runs (ClientFunction worldAfterRestart "ping" (VFunction pingFunction)
               (Some pageUrl)) initialState
            (wrapperOf "ping" pingFunction (Some pageUrl) "ping_5d48cb26") st'
       /\ cache st' = cache afterPing
       /\ cacheDirty st' = false /\ microtasks st' = 0%nat
       /\ console st' = [] /\ statCalls st' = [pageUrl].
Proof.
  apply (restart_reuses_written_cache afterPingFlushed (cache afterPing)
           worldAfterRestart pageUrl
           {| mtimeMs := 5; handlersOf := {[ "ping" := "ping_5d48cb26" ]} |}).
  - exact afterPingFlushed_reachable.
  - vm_compute. reflexivity.
  - vm_compute. reflexivity.
  - reflexivity.
  - reflexivity.
  - reflexivity.
  - reflexivity.
  - reflexivity.
Defined.

(** ** The registries *)

Section MapSet.
Context {K V : Type} `{EqDecision K}.
Implicit Types (m : list (K * V)).

Lemma set_fresh k v m : k ∉ m.*1 -> JsMap.set k v m = m ++ [(k, v)].
Proof.
  induction m as [|[k' v'] m IH]; intros Hk; [reflexivity|].
  cbn [JsMap.set]. rewrite fmap_cons, not_elem_of_cons in Hk.
  destruct Hk as [Hne Hk]. cbn [fst] in Hne.
  rewrite decide_False by congruence. by rewrite IH.
Qed.

Lemma set_keys_existing k v m : k ∈ m.*1 -> (JsMap.set k v m).*1 = m.*1.
Proof.
  induction m as [|[k' v'] m IH]; intros Hk; [by apply elem_of_nil in Hk|].
  cbn [JsMap.set]. destruct (decide (k' = k)) as [-> | Hne]; [reflexivity|].
  rewrite !fmap_cons. f_equal. apply IH.
  rewrite fmap_cons, elem_of_cons in Hk. destruct Hk as [-> | Hk]; [done|exact Hk].
Qed.

Lemma set_elem_of k v m : (k, v) ∈ JsMap.set k v m.
Proof.
  induction m as [|[k' v'] m IH]; cbn [JsMap.set]; [by left|].
  destruct (decide (k' = k)); [by left|by right].
Qed.

Lemma set_elem_of_ne k v k' v' m :
  k' <> k -> (k', v') ∈ JsMap.set k v m <-> (k', v') ∈ m.
Proof.
  intros Hne. induction m as [|[k0 v0] m IH]; cbn [JsMap.set].
  - rewrite list_elem_of_singleton. split; [by intros [= ? ?]|by intros ?%elem_of_nil].
  - destruct (decide (k0 = k)) as [-> | Hk0].
    + rewrite !elem_of_cons. split; (intros [[= ? ?] | ?]; [done|by right]).
    + rewrite !elem_of_cons, IH. reflexivity.
Qed.

End MapSet.

Lemma same_registries_refl st : same_registries st st.
Proof. by constructor. Qed.

Lemma same_registries_trans st1 st2 st3 :
  same_registries st1 st2 -> same_registries st2 st3 -> same_registries st1 st3.
Proof. intros [] []. constructor; congruence. Qed.

Lemma loadCacheOnce_same_registries w st :
  same_registries st (snd (loadCacheOnce w st)).
Proof.
  unfold loadCacheOnce. unfold_m.
  destruct (cacheLoaded st); [by constructor|].
  by destruct (readCacheFile w) as [p|]; [destruct (validCache p)|].
Qed.

Lemma store_entry_same_registries u e st :
  same_registries st
    (snd ((setFileEntry u e ;; modify (with_cacheDirty true) ;;
           scheduleCacheFlush) st)).
Proof.
  unfold setFileEntry, scheduleCacheFlush. unfold_m. simpl.
  by destruct (cacheFlushScheduled st).
Qed.

Lemma lookupCachedFilename_same_registries w n url st :
  same_registries st (snd (lookupCachedFilename w n url st)).
Proof.
  unfold lookupCachedFilename.
  destruct (locator url) as [u|]; [|apply same_registries_refl].
  revert st. apply rel_bind; [apply same_registries_trans| |].
  { intros st. unfold getSourceFileMtimeMs. unfold_m.
    by destruct (sourceFileMtimeMemo st !! u). }
  intros [m|] st; [|apply same_registries_refl].
  revert st. apply rel_bind; [apply same_registries_trans| |].
  { intros; apply same_registries_refl. }
  intros st0 st. apply rel_bind; [apply same_registries_trans| |].
  - clear st. intros st.
    destruct (files (cache st0) !! u) as [e|];
      [destruct (mtimeMs e =? m)%Z; [apply same_registries_refl|]|];
      apply store_entry_same_registries.
  - intros; apply same_registries_refl.
Qed.

Lemma resolveFilename_same_registries n f url c m st :
  same_registries st (snd (resolveFilename n f url c m st)).
Proof.
  unfold resolveFilename.
  destruct (cacheHit c); [apply same_registries_refl|].
  revert st. apply rel_bind; [apply same_registries_trans| |].
  { intros st. by constructor. }
  intros _ st. destruct (locator url) as [u|]; [destruct m as [mt|]|];
    try apply same_registries_refl.
  revert st. apply rel_bind; [apply same_registries_trans| |].
  { intros; apply same_registries_refl. }
  intros st0 st.
  pose proof (store_entry_same_registries u
    {| mtimeMs := mtimeMs (default {| mtimeMs := mt; handlersOf := ∅ |}
                             (files (cache st0) !! u));
       handlersOf := <[n := hashedFilename n f]>
         (handlersOf (default {| mtimeMs := mt; handlersOf := ∅ |}
                        (files (cache st0) !! u))) |} st) as Hstore.
  revert Hstore. unfold bind.
  destruct (setFileEntry _ _ st) as [[[]|] st1]; [|done].
  destruct (modify (with_cacheDirty true) st1) as [[[]|] st2]; [|done].
  by destruct (scheduleCacheFlush st2) as [[[]|] st3].
Qed.

Lemma finishConstruction_registries n f url id st :
  let this := wrapperOf n f url id in
  let key := default "__global__" url in
  let st' := snd (finishConstruction n f url id st) in
  handlers st' = JsMap.set (fn_ref f) this (handlers st)
  /\ importsBySourceFileUrl st' =
       <[key := JsMap.set n (prop this "filename") (registryOf st key)]>
         (importsBySourceFileUrl st)
  /\ functionName st' = <[fn_ref f := n]> (functionName st).
Proof.
  intros this key st'. subst st'.
  unfold finishConstruction. cbv zeta.
  rewrite strProp_wrapper_filename. fold (wrapperOf n f url id). fold this.
  unfold getImportRegistry, registrySet, registryOf. unfold_m. simpl.
  fold key.
  destruct (importsBySourceFileUrl st !! key) eqn:Hreg; simpl.
  - by rewrite Hreg.
  - by rewrite lookup_insert_eq, insert_insert_eq.
Qed.

(** What a registration does to the registries, by the id it resolves. *)
Lemma registration_registries w fnName f sourceFileUrl st :
  let key := default "__global__" sourceFileUrl in
  exists id mid st',
    runs (resolvedId w fnName f sourceFileUrl) st id mid
    /\ runs (ClientFunction w fnName (VFunction f) sourceFileUrl) st
            (wrapperOf fnName f sourceFileUrl id) st'
    /\ handlers st' =
         JsMap.set (fn_ref f) (wrapperOf fnName f sourceFileUrl id) (handlers st)
    /\ importsBySourceFileUrl st' =
         <[key := JsMap.set fnName
                    (prop (wrapperOf fnName f sourceFileUrl id) "filename")
                    (registryOf st key)]> (importsBySourceFileUrl st)
    /\ functionName st' = <[fn_ref f := fnName]> (functionName st).
Proof.
  intros key.
  destruct (loadCacheOnce_returns w st) as (st0 & R0 & _).
  pose proof (loadCacheOnce_same_registries w st) as G0.
  pose proof R0 as R0'. unfold runs in R0'. rewrite R0' in G0. simpl in G0.
  assert (Hlook : exists c m st1,
            runs (lookupCachedFilename w fnName sourceFileUrl) st0 (c, m) st1).
  { destruct (locator sourceFileUrl) as [u|] eqn:Hloc.
    - destruct (lookupCachedFilename_runs w fnName sourceFileUrl u st0 Hloc)
        as (c & st1 & R1 & _). eauto.
    - eauto using lookupCachedFilename_no_locator. }
  destruct Hlook as (c & m & st1 & R1).
  pose proof (lookupCachedFilename_same_registries w fnName sourceFileUrl st0) as G1.
  pose proof R1 as R1'. unfold runs in R1'. rewrite R1' in G1. simpl in G1.
  assert (Hres : exists id st2,
            runs (resolveFilename fnName f sourceFileUrl c m) st1 id st2).
  { destruct (cacheHit c) as [s|] eqn:Hhit.
    - eauto using resolveFilename_hit.
    - destruct (resolveFilename_miss fnName f sourceFileUrl c m st1 Hhit)
        as (st2 & R2 & _). eauto. }
  destruct Hres as (id & st2 & R2).
  pose proof (resolveFilename_same_registries fnName f sourceFileUrl c m st1) as G2.
  pose proof R2 as R2'. unfold runs in R2'. rewrite R2' in G2. simpl in G2.
  destruct (finishConstruction_runs fnName f sourceFileUrl id st2)
    as (st3 & R3 & _).
  destruct (finishConstruction_registries fnName f sourceFileUrl id st2)
    as (H3 & I3 & N3).
  pose proof R3 as R3'. unfold runs in R3'. rewrite R3' in H3, I3, N3.
  simpl in H3, I3, N3. fold key in I3.
  destruct (registration_runs _ _ _ _ _ _ _ _ _ _ _ _ _ R0 R1 R2 R3)
    as [Rid Rnew].
  destruct (same_registries_trans _ _ _ G0 (same_registries_trans _ _ _ G1 G2))
    as [Hh Hi Hn].
  assert (Hreg : registryOf st2 key = registryOf st key).
  { unfold registryOf. by rewrite Hi. }
  rewrite Hh in H3. rewrite Hi, Hreg in I3. rewrite Hn in N3.
  exists id, st2, st3. by repeat split.
Qed.

(** X9. A registration records the wrapper in [handlers] under the
    function object, a new function going last and a function registered
    before keeping its place (its wrapper being replaced); it records the
    name with the wrapper's [filename] in the import registry of the
    defining file (the shared registry without a locator), leaving the
    other names of that registry and the other registries alone; and it
    sets the [name] of the function object. *)
Theorem registration_is_recorded w fnName f sourceFileUrl st :
  let key := default "__global__" sourceFileUrl in
  exists this st',
    runs (ClientFunction w fnName (VFunction f) sourceFileUrl) st this st'
    /\ (fn_ref f, this) ∈ handlers st'
    /\ (fn_ref f ∉ (handlers st).*1 ->
        handlers st' = handlers st ++ [(fn_ref f, this)])
    /\ (fn_ref f ∈ (handlers st).*1 -> (handlers st').*1 = (handlers st).*1)
    /\ (fnName, prop this "filename") ∈ registryOf st' key
    /\ (forall name id, name <> fnName ->
          (name, id) ∈ registryOf st' key <-> (name, id) ∈ registryOf st key)
    /\ (forall key', key' <> key -> registryOf st' key' = registryOf st key')
    /\ functionName st' !! fn_ref f = Some fnName.
Proof.
  intros key.
  destruct (registration_registries w fnName f sourceFileUrl st)
    as (id & _ & st3 & _ & Rnew & H3 & I3 & N3). fold key in I3.
  set (this := wrapperOf fnName f sourceFileUrl id) in *.
  assert (Hkey : registryOf st3 key
                 = JsMap.set fnName (prop this "filename") (registryOf st key)).
  { unfold registryOf at 1. by rewrite I3, lookup_insert_eq. }
  exists this, st3. split; [exact Rnew|].
  split; [rewrite H3; apply set_elem_of|].
  split; [intros Hnew; rewrite H3; by apply set_fresh|].
  split; [intros Hold; rewrite H3; by apply set_keys_existing|].
  split; [rewrite Hkey; apply set_elem_of|].
  split; [intros name id' Hne; rewrite Hkey; by apply set_elem_of_ne|].
  split; [|by rewrite N3, lookup_insert_eq].
  intros key' Hne. unfold registryOf. by rewrite I3, lookup_insert_ne.
Qed.


(** ** Strings *)

Lemma length_append s t :
  String.length (s +:+ t) = String.length s + String.length t.
Proof. induction s as [|c s IH]; simpl; [reflexivity|]. by rewrite IH. Qed.

Lemma append_empty_r s : s +:+ EmptyString = s.
Proof.
  induction s as [|c s IH]; [reflexivity|].
  change (String c (s +:+ EmptyString) = String c s). by f_equal.
Qed.

Lemma append_assoc s t u : (s +:+ t) +:+ u = s +:+ t +:+ u.
Proof.
  induction s as [|c s IH]; [reflexivity|].
  change (String c ((s +:+ t) +:+ u) = String c (s +:+ t +:+ u)). by f_equal.
Qed.

Lemma substring_all s : String.substring 0 (String.length s) s = s.
Proof. induction s as [|c s IH]; simpl; [reflexivity|]. by rewrite IH. Qed.

Lemma substring_prefix s t :
  String.substring 0 (String.length s) (s +:+ t) = s.
Proof.
  induction s as [|c s IH]; simpl; [by destruct t|]. by rewrite IH.
Qed.

Lemma substring_suffix s t :
  String.substring (String.length s) (String.length t) (s +:+ t) = t.
Proof. induction s as [|c s IH]; simpl; [apply substring_all|exact IH]. Qed.

Lemma substring_split s i :
  i <= String.length s ->
  s = String.substring 0 i s +:+ String.substring i (String.length s - i) s.
Proof.
  revert i. induction s as [|c s IH]; intros i Hi.
  - simpl in Hi. assert (i = 0) as -> by lia. reflexivity.
  - destruct i as [|i]; simpl.
    + by rewrite substring_all.
    + change (String c s = String c (String.substring 0 i s +:+
                String.substring i (String.length s - i) s)).
      f_equal. apply IH. simpl in Hi. lia.
Qed.

Lemma endsWith_append s t : Js.endsWith (s +:+ t) t = true.
Proof.
  unfold Js.endsWith. rewrite length_append.
  replace (String.length s + String.length t - String.length t)
    with (String.length s) by lia.
  rewrite substring_suffix, String.eqb_refl, andb_true_r.
  apply Nat.leb_le. lia.
Qed.

Lemma endsWith_inv s t :
  Js.endsWith s t = true ->
  s = Script.dropLast (String.length t) s +:+ t.
Proof.
  unfold Js.endsWith, Script.dropLast. intros H.
  apply andb_true_iff in H as [Hle Heq].
  apply Nat.leb_le in Hle. apply String.eqb_eq in Heq.
  rewrite (substring_split s (String.length s - String.length t)) at 1 by lia.
  replace (String.length s - (String.length s - String.length t))
    with (String.length t) by lia.
  by rewrite Heq.
Qed.

Lemma dropLast_append s t : Script.dropLast (String.length t) (s +:+ t) = s.
Proof.
  unfold Script.dropLast. rewrite length_append.
  replace (String.length s + String.length t - String.length t)
    with (String.length s) by lia.
  apply substring_prefix.
Qed.

Lemma prefix_append s t : String.prefix s (s +:+ t) = true.
Proof. apply String.prefix_correct, substring_prefix. Qed.

Lemma list_ascii_append s t :
  list_ascii_of_string (s +:+ t)
  = list_ascii_of_string s ++ list_ascii_of_string t.
Proof. induction s as [|c s IH]; simpl; [reflexivity|]. by rewrite IH. Qed.

(** Two texts that end in different characters are different. *)
Lemma append_last_ne s t (a b : ascii) :
  a <> b ->
  s +:+ String a EmptyString <> t +:+ String b EmptyString.
Proof.
  intros Hab Heq. apply (f_equal list_ascii_of_string) in Heq.
  rewrite !list_ascii_append in Heq. simpl in Heq.
  by apply app_inj_tail in Heq as [_ ?].
Qed.

Lemma toLowerCase_append s t :
  Script.toLowerCase (s +:+ t) = Script.toLowerCase s +:+ Script.toLowerCase t.
Proof. induction s as [|c s IH]; simpl; [reflexivity|]. by rewrite IH. Qed.

Lemma endsWith_ts_not_tsx s : Js.endsWith (s +:+ ".ts") ".tsx" = false.
Proof.
  destruct (Js.endsWith (s +:+ ".ts") ".tsx") eqn:H; [|reflexivity].
  apply endsWith_inv in H. exfalso. revert H.
  generalize (Script.dropLast (String.length ".tsx") (s +:+ ".ts")). intros r H.
  change ".ts" with (".t" +:+ String "s"%char EmptyString) in H.
  change ".tsx" with (".ts" +:+ String "x"%char EmptyString) in H.
  rewrite <- !append_assoc in H.
  by apply append_last_ne in H.
Qed.



(** ** The imports of a handler module *)





(** ** The handler files *)


(** ** The client scripts *)

(** X13. A client script whose output is not older than it (equal times
    included) is skipped: the task returns the base name at once, calls no
    transpiler and writes nothing. *)
Theorem transpile_skips_up_to_date env fileName clientDir publicDir
    (verbose minifyFlag : bool) s o :
  let outPath :=
    publicDir +:+ "/" +:+ Script.stripScriptExtension fileName +:+ ".js" in
  Script.stat env (clientDir +:+ "/" +:+ fileName) = Some (Some s) ->
  Script.stat env outPath = Some (Some o) ->
  (s <= o)%Z ->
  Script.transpileClientFile env fileName clientDir publicDir verbose minifyFlag
  = (Return (Script.stripScriptExtension fileName),
     Script.log verbose ["Client script unchanged, skipping: " +:+ outPath]).
Proof.
  intros outPath Hin Hout Hle. unfold Script.transpileClientFile.
  fold outPath. rewrite Hin, Hout.
  by rewrite (proj2 (Z.leb_le s o) Hle).
Qed.

Lemma transpile_skips_up_to_date_witness :
  Script.transpileClientFile (clientEnv (Some (Some 10%Z)) None) "app.tsx"
    "./client" "./public" false true
  = (Return "app", []).
Proof.
  exact (transpile_skips_up_to_date (clientEnv (Some (Some 10%Z)) None)
           "app.tsx" "./client" "./public" false true 10%Z 10%Z
           eq_refl eq_refl ltac:(lia)).
Defined.

(** X14. Whatever the file system and the transpiler do,
    [transpileClientFile] resolves only to the base name of the script;
    every request it sends to the transpiler is the text of the script with
    the loader of its extension and the [minify] flag it was given; the only
    thing it ever writes is what the transpiler returned for that request,
    at [publicDir/<base>.js], and never when it is rejected; and a script
    that cannot be stat'ed rejects it before anything is done. *)
Theorem transpile_writes_only_transpiled_output env fileName clientDir
    publicDir (verbose minifyFlag : bool) :
  let inPath := clientDir +:+ "/" +:+ fileName in
  let outPath :=
    publicDir +:+ "/" +:+ Script.stripScriptExtension fileName +:+ ".js" in
  let options := Script.scriptOptions (Script.loaderOf fileName) minifyFlag in
  let run :=
    Script.transpileClientFile env fileName clientDir publicDir verbose
      minifyFlag in
  (forall r, fst run = Return r -> r = Script.stripScriptExtension fileName)
  /\ (forall code o, Script.Transform code o ∈ snd run ->
        Script.readTextFile env inPath = Some code /\ o = options
        /\ minifies o = minifyFlag)
  /\ (forall path content, Script.WriteTextFile path content ∈ snd run ->
        path = outPath
        /\ (exists code, Script.readTextFile env inPath = Some code
                         /\ Script.transform env code options = Some content)
        /\ fst run = Return (Script.stripScriptExtension fileName))
  /\ (Script.stat env inPath = None -> exists e, run = (Throw e, [])).
Proof.
  intros inPath outPath options run. subst run.
  unfold Script.transpileClientFile. fold inPath outPath options.
  assert (Hlog : forall args x, x ∈ Script.log verbose args ->
                 exists a, x = Script.Log a).
  { intros args x. unfold Script.log. destruct verbose.
    - intros ->%list_elem_of_singleton. eauto.
    - by intros ?%elem_of_nil. }
  destruct (Script.stat env inPath) as [sourceMtimeMs|]; cbn [fst snd].
  2: { split; [by intros r [=]|]. split; [by intros * ?%elem_of_nil|].
       split; [by intros * ?%elem_of_nil|eauto]. }
  match goal with |- context [if ?b then _ else _] => destruct b end.
  { cbn [fst snd]. split; [by intros r [= <-]|].
    split; [intros * Hx; by destruct (Hlog _ _ Hx)|].
    split; [intros * Hx; by destruct (Hlog _ _ Hx)|done]. }
  destruct (Script.readTextFile env inPath) as [inputCode|]; cbn [fst snd].
  2: { split; [by intros r [=]|]. split; [by intros * ?%elem_of_nil|].
       split; [by intros * ?%elem_of_nil|done]. }
  destruct (Script.transform env inputCode options) as [code|] eqn:Htr.
  - destruct (Script.writeTextFile env outPath code); cbn [fst snd app].
    + split; [by intros r [= <-]|]. split.
      * intros c o. rewrite !elem_of_cons.
        intros [[= -> ->] | [? | Hx]]; [done|done|by destruct (Hlog _ _ Hx)].
      * split; [|done]. intros path content. rewrite !elem_of_cons.
        intros [? | [[= -> ->] | Hx]]; [done| |by destruct (Hlog _ _ Hx)].
        split; [reflexivity|]. split; [eauto|reflexivity].
    + split; [by intros r [=]|]. split.
      * intros c o Hx%list_elem_of_singleton. by injection Hx as -> ->.
      * split; [|done]. by intros * ?%list_elem_of_singleton.
  - cbn [fst snd]. split; [by intros r [=]|]. split.
    + intros c o Hx%list_elem_of_singleton. by injection Hx as -> ->.
    + split; [|done]. by intros * ?%list_elem_of_singleton.
Qed.
Lemma stripScriptExtension_ts base :
  Script.stripScriptExtension (base +:+ ".ts") = base
  /\ Script.loaderOf (base +:+ ".ts") = "ts".
Proof.
  unfold Script.stripScriptExtension, Script.loaderOf.
  rewrite toLowerCase_append.
  change (Script.toLowerCase ".ts") with ".ts".
  rewrite endsWith_ts_not_tsx, endsWith_append.
  split; [|reflexivity]. exact (dropLast_append base ".ts").
Qed.

Lemma stripScriptExtension_tsx base :
  Script.stripScriptExtension (base +:+ ".tsx") = base
  /\ Script.loaderOf (base +:+ ".tsx") = "tsx".
Proof.
  unfold Script.stripScriptExtension, Script.loaderOf.
  rewrite toLowerCase_append.
  change (Script.toLowerCase ".tsx") with ".tsx".
  rewrite endsWith_append.
  split; [|reflexivity]. exact (dropLast_append base ".tsx").
Qed.

(** X15. The scan keeps the regular files of [clientDir] named [*.ts] or
    [*.tsx] and nothing else, and a directory that cannot be read gives no
    script. For each script it keeps, the output base name is the name
    without that extension, so that the name is got back by appending it,
    and the loader is [tsx] exactly for the [*.tsx] names. *)
Theorem scanned_scripts_lose_their_extension entries name :
  name ∈ Script.scanClientFiles (Some entries) ->
  (name, true) ∈ entries
  /\ ((name = Script.stripScriptExtension name +:+ ".ts"
       /\ Script.loaderOf name = "ts")
      \/ (name = Script.stripScriptExtension name +:+ ".tsx"
          /\ Script.loaderOf name = "tsx"))
  /\ Script.scanClientFiles None = [].
Proof.
  unfold Script.scanClientFiles. intros Hin.
  apply list_elem_of_In, in_map_iff in Hin as ([n isFile] & Hn & Hin).
  cbn in Hn. subst n.
  apply filter_In in Hin as [Hin Hkeep]. cbn in Hkeep.
  apply andb_true_iff in Hkeep as [-> Hext].
  split; [by apply list_elem_of_In|]. split; [|reflexivity].
  apply orb_true_iff in Hext as [Hts | Htsx].
  - left. apply endsWith_inv in Hts.
    set (base := Script.dropLast (String.length ".ts") name) in *.
    rewrite Hts. by destruct (stripScriptExtension_ts base) as [-> ->].
  - right. apply endsWith_inv in Htsx.
    set (base := Script.dropLast (String.length ".tsx") name) in *.
    rewrite Htsx. by destruct (stripScriptExtension_tsx base) as [-> ->].
Qed.

Lemma scanned_scripts_lose_their_extension_witness :
  ("app.tsx", true)
    ∈ [("app.tsx", true); ("notes.md", true); ("lib.ts", false)]
  /\ (("app.tsx" = Script.stripScriptExtension "app.tsx" +:+ ".ts"
       /\ Script.loaderOf "app.tsx" = "ts")
      \/ ("app.tsx" = Script.stripScriptExtension "app.tsx" +:+ ".tsx"
          /\ Script.loaderOf "app.tsx" = "tsx"))
  /\ Script.scanClientFiles None = [].
Proof.
  apply (scanned_scripts_lose_their_extension
           [("app.tsx", true); ("notes.md", true); ("lib.ts", false)]).
  vm_compute. by left.
Defined.

(** ** The bootstrap module *)

(** X16. The bootstrap task is skipped, with no transpiler call and no
    write, whenever the existing [clientFunctions.js] starts with the marker
    of the current version, whatever follows the marker; and what the task
    writes when it does build starts with that marker, so that the next
    build skips it. *)
Theorem bootstrap_is_built_once_per_version env pkg publicDir
    (verbose minifyFlag : bool) version :
  Script.packageVersion pkg = Some version ->
  let out := publicDir +:+ "/clientFunctions.js" in
  let skipped :=
    (Return "clientFunctions",
     Script.log verbose ["clientFunctions.js already up to date (v" +:+
                         version +:+ "), skipping."]) in
  (forall rest,
     Script.readTextFile env out
     = Some (Script.versionComment version +:+ rest) ->
     Script.buildClientFunctions env pkg publicDir verbose minifyFlag = skipped)
  /\ forall path content,
       Script.WriteTextFile path content
         ∈ snd (Script.buildClientFunctions env pkg publicDir verbose minifyFlag) ->
       path = out
       /\ forall env',
            Script.readTextFile env' out = Some content ->
            Script.buildClientFunctions env' pkg publicDir verbose minifyFlag
            = skipped.
Proof.
  intros Hv out skipped.
  assert (Hskip : forall env' rest,
    Script.readTextFile env' out = Some (Script.versionComment version +:+ rest) ->
    Script.buildClientFunctions env' pkg publicDir verbose minifyFlag = skipped).
  { intros env' rest Hread. unfold Script.buildClientFunctions.
    fold out. by rewrite Hv, Hread, prefix_append. }
  split; [apply Hskip|].
  intros path content Hin.
  enough (path = out /\ exists code,
            content = Script.versionComment version +:+ Js.newline +:+ code)
    as (-> & code & ->).
  { split; [reflexivity|]. intros env' Hread. exact (Hskip env' _ Hread). }
  revert Hin. unfold Script.buildClientFunctions. fold out. rewrite Hv.
  assert (Hlog : forall args x, x ∈ Script.log verbose args ->
                 exists a, x = Script.Log a).
  { intros args x. unfold Script.log. destruct verbose.
    - intros ->%list_elem_of_singleton. eauto.
    - by intros ?%elem_of_nil. }
  match goal with |- context [if ?b then _ else _] => destruct b end.
  { cbn [snd]. intros Hx. by destruct (Hlog _ _ Hx). }
  destruct (Script.clientSource pkg) as [inputCode|];
    [|by intros ?%elem_of_nil].
  destruct (Script.transform env inputCode _) as [code|];
    [|by intros ?%list_elem_of_singleton].
  destruct (Script.writeTextFile env out _); cbn [snd app];
    [|by intros ?%list_elem_of_singleton].
  rewrite !elem_of_cons. intros [? | [[= -> ->] | Hx]];
    [done| |by destruct (Hlog _ _ Hx)].
  eauto.
Qed.

Lemma bootstrap_is_built_once_per_version_witness :
  Script.buildClientFunctions (clientEnv None None) examplePackage "./public"
    false true
  = (Return "clientFunctions",
     [Script.Transform "setupHandlers();" (Script.scriptOptions "ts" true);
      Script.WriteTextFile "./public/clientFunctions.js"
        ("// @reece/client-functions v0.1.0" +:+ Js.newline +:+
         "setupHandlers();")])
  /\ Script.buildClientFunctions
       (clientEnv None
          (Some ("// @reece/client-functions v0.1.0" +:+ Js.newline +:+
                 "setupHandlers();")))
       examplePackage "./public" false true
     = (Return "clientFunctions", []).
Proof.
  split; [vm_compute; reflexivity|].
  destruct (bootstrap_is_built_once_per_version (clientEnv None None)
              examplePackage "./public" false true "0.1.0" eq_refl)
    as [_ Hwritten].
  refine (proj2 (Hwritten "./public/clientFunctions.js"
                   ("// @reece/client-functions v0.1.0" +:+ Js.newline +:+
                    "setupHandlers();") _) _ _).
  - vm_compute. right. by left.
  - reflexivity.
Defined.

(** ** More on the cleanup *)




(** ** More on the handler proxy *)

Lemma settle_pending p load i result :
  Client.imports p !! load = Some i ->
  Client.settled i = Client.Pending ->
  Client.settle p load result
  = {| Client.basePath := Client.basePath p;
       Client.target :=
         match result with
         | Some f => <[Client.callFunctionName i := f]> (Client.target p)
         | None => Client.target p
         end;
       Client.imports :=
         <[load := {| Client.specifier := Client.specifier i;
                      Client.callFunctionName := Client.callFunctionName i;
                      Client.settled :=
                        match result with
                        | Some f => Client.Fulfilled f
                        | None => Client.Rejected
                        end |}]> (Client.imports p) |}.
Proof.
  intros Hi Hp. unfold Client.settle. rewrite Hi, Hp. by destruct result.
Qed.

Lemma inTarget_own p name :
  is_Some (Client.target p !! name) -> Client.inTarget p name = true.
Proof.
  intros H. unfold Client.inTarget. by rewrite bool_decide_eq_true_2.
Qed.

(** X19. A name that is not in [target] is accessed, and its import is
    fulfilled. From then on the name is served from the proxy: the function
    is stored under the name, and every later invocation
    [handlers.name(...)] calls it at once, with the first argument as
    receiver and the others as arguments, evaluating no [import()] and
    leaving the proxy as it is. *)
Theorem loaded_handler_is_called_directly p name scriptContent :
  Client.inTarget p name = false ->
  let load := length (Client.imports p) in
  let p1 := snd (Client.get p (Client.KString name)) in
  let p2 := Client.settle p1 load (Some scriptContent) in
  Client.target p2 !! name = Some scriptContent
  /\ Client.get p2 (Client.KString name) = (Some (Client.Direct name), p2)
  /\ forall args,
       Client.invokeByName p2 name args
       = (Client.Calls scriptContent (hd VUndefined args) (tl args), p2).
Proof.
  intros Hnone load p1 p2.
  assert (Htarget : Client.target p2 !! name = Some scriptContent).
  { subst p2 p1. rewrite (get_unloaded _ _ Hnone). cbn [snd].
    erewrite settle_pending;
      [|cbn; by rewrite lookup_app_r, Nat.sub_diag by lia|reflexivity].
    cbn. apply lookup_insert_eq. }
  assert (Hget : Client.get p2 (Client.KString name)
                 = (Some (Client.Direct name), p2)).
  { unfold Client.get. rewrite inTarget_own; [reflexivity|].
    rewrite Htarget. by eexists. }
  split; [exact Htarget|]. split; [exact Hget|].
  intros args. unfold Client.invokeByName. rewrite Hget.
  unfold Client.invoke, Client.reflectGet. by rewrite Htarget.
Qed.

Lemma loaded_handler_is_called_directly_witness :
  let p1 := snd (Client.get (Client.createHandlerProxy ".") (Client.KString "foo")) in
  let p2 := Client.settle p1 0 (Some 7) in
  Client.target p2 !! "foo" = Some 7
  /\ Client.get p2 (Client.KString "foo") = (Some (Client.Direct "foo"), p2)
  /\ forall args,
       Client.invokeByName p2 "foo" args
       = (Client.Calls 7 (hd VUndefined args) (tl args), p2).
Proof.
  exact (loaded_handler_is_called_directly (Client.createHandlerProxy ".")
           "foo" 7 eq_refl).
Defined.

(** X20. A failed load is not remembered: when a name that is not in
    [target] is accessed and its import is rejected, nothing is stored
    under the name, the invocations bound to that import fail, and the next
    invocation [handlers.name(...)] evaluates [import()] again, for the
    same specifier. *)
Theorem rejected_load_is_tried_again p name :
  Client.inTarget p name = false ->
  let load := length (Client.imports p) in
  let p1 := snd (Client.get p (Client.KString name)) in
  let p2 := Client.settle p1 load None in
  Client.target p2 !! name = None
  /\ (forall args, Client.invoke p2 (Client.Deferred load) args = Client.Fails)
  /\ forall args, exists p3,
       Client.invokeByName p2 name args = (Client.Awaits (S load), p3)
       /\ Client.imports p3 =
            Client.imports p2 ++
            [{| Client.specifier := Client.basePath p +:+ "/" +:+ name +:+ ".js";
                Client.callFunctionName := name;
                Client.settled := Client.Pending |}].
Proof.
  intros Hnone load p1 p2.
  assert (Hp2 : p2 =
    {| Client.basePath := Client.basePath p;
       Client.target := Client.target p;
       Client.imports :=
         Client.imports p ++
         [{| Client.specifier := Client.basePath p +:+ "/" +:+ name +:+ ".js";
             Client.callFunctionName := name;
             Client.settled := Client.Rejected |}] |}).
  { subst p2 p1 load. rewrite (get_unloaded _ _ Hnone). cbn [snd].
    erewrite settle_pending;
      [|cbn; by rewrite lookup_app_r, Nat.sub_diag by lia|reflexivity].
    cbn. f_equal.
    rewrite insert_app_r_alt, Nat.sub_diag by lia. reflexivity. }
  assert (Hin : Client.inTarget p2 name = false) by (by rewrite Hp2).
  assert (Htarget : Client.target p2 !! name = None).
  { rewrite Hp2. cbn. unfold Client.inTarget in Hnone.
    apply orb_false_elim in Hnone as [Hown _].
    apply bool_decide_eq_false in Hown.
    destruct (Client.target p !! name); [|reflexivity].
    exfalso. apply Hown. by eexists. }
  split; [exact Htarget|]. split.
  - intros args. rewrite Hp2. unfold Client.invoke. cbn.
    by rewrite lookup_app_r, Nat.sub_diag by lia.
  - intros args.
    destruct (invokeByName_unloaded p2 name args Hin)
      as (p3 & R & _ & _ & I).
    exists p3. split; [|by rewrite I, Hp2].
    rewrite R. do 2 f_equal. rewrite Hp2. cbn. rewrite length_app. cbn.
    subst load. lia.
Qed.

Lemma rejected_load_is_tried_again_witness :
  let p1 := snd (Client.get (Client.createHandlerProxy ".") (Client.KString "foo")) in
  let p2 := Client.settle p1 0 None in
  Client.target p2 !! "foo" = None
  /\ (forall args, Client.invoke p2 (Client.Deferred 0) args = Client.Fails)
  /\ forall args, exists p3,
       Client.invokeByName p2 "foo" args = (Client.Awaits 1, p3)
       /\ Client.imports p3 =
            Client.imports p2 ++
            [{| Client.specifier := "./foo.js";
                Client.callFunctionName := "foo";
                Client.settled := Client.Pending |}].
Proof.
  exact (rejected_load_is_tried_again (Client.createHandlerProxy ".") "foo"
           eq_refl).
Defined.

(** What holds of a proxy created with the base path [b], whatever was
    accessed and settled since. *)
Lemma proxy_invariant_step b p p' :
  proxyStep p p' ->
  (Client.basePath p = b
   /\ (forall k i, Client.imports p !! k = Some i ->
         Client.specifier i = b +:+ "/" +:+ Client.callFunctionName i +:+ ".js")
   /\ (forall name f, Client.target p !! name = Some f ->
         exists k i, Client.imports p !! k = Some i
                     /\ Client.callFunctionName i = name
                     /\ Client.settled i = Client.Fulfilled f)) ->
  Client.basePath p' = b
  /\ (forall k i, Client.imports p' !! k = Some i ->
        Client.specifier i = b +:+ "/" +:+ Client.callFunctionName i +:+ ".js")
  /\ (forall name f, Client.target p' !! name = Some f ->
        exists k i, Client.imports p' !! k = Some i
                    /\ Client.callFunctionName i = name
                    /\ Client.settled i = Client.Fulfilled f).
Proof.
  intros Hstep (Hb & Hspec & Htarget).
  destruct Hstep as [p prop | p load result].
  - (* an access *)
    destruct prop as [name | id]; [|by repeat split].
    unfold Client.get. destruct (Client.inTarget p name) eqn:Hname;
      [by repeat split|].
    cbn. split; [exact Hb|]. split.
    + intros k i Hk. apply lookup_app_Some in Hk as [Hk | [_ Hk]]; [eauto|].
      apply list_lookup_singleton_Some in Hk as [_ <-]. cbn. by rewrite Hb.
    + intros name' f Hf. destruct (Htarget _ _ Hf) as (k & i & Hk & Hi).
      exists k, i. split; [|exact Hi]. by apply lookup_app_l_Some.
  - (* a settlement *)
    unfold Client.settle.
    destruct (Client.imports p !! load) as [i|] eqn:Hload; [|by repeat split].
    destruct (Client.settled i) eqn:Hsettled; try by repeat split.
    assert (Hlt : load < length (Client.imports p))
      by (by eapply lookup_lt_Some).
    assert (Hkeep : forall (s : Client.PromiseState) k i',
      <[load := {| Client.specifier := Client.specifier i;
                   Client.callFunctionName := Client.callFunctionName i;
                   Client.settled := s |}]> (Client.imports p) !! k = Some i' ->
      Client.specifier i'
      = b +:+ "/" +:+ Client.callFunctionName i' +:+ ".js").
    { intros s k i' Hk. destruct (decide (k = load)) as [-> | Hne].
      - rewrite list_lookup_insert_eq in Hk by done. injection Hk as <-.
        cbn. by apply (Hspec load).
      - rewrite list_lookup_insert_ne in Hk by done. eauto. }
    assert (Hold : forall (s : Client.PromiseState) name f,
      Client.target p !! name = Some f ->
      exists k i',
        <[load := {| Client.specifier := Client.specifier i;
                     Client.callFunctionName := Client.callFunctionName i;
                     Client.settled := s |}]> (Client.imports p) !! k = Some i'
        /\ Client.callFunctionName i' = name
        /\ Client.settled i' = Client.Fulfilled f).
    { intros s name f Hf. destruct (Htarget _ _ Hf) as (k & i' & Hk & Hn & Hs).
      exists k, i'. split; [|by split].
      rewrite list_lookup_insert_ne; [exact Hk|].
      intros <-. rewrite Hk in Hload. injection Hload as ->. congruence. }
    destruct result as [f|]; cbn.
    + split; [exact Hb|]. split; [apply Hkeep|].
      intros name f' Hf. destruct (decide (Client.callFunctionName i = name))
        as [<- | Hne].
      * rewrite lookup_insert_eq in Hf. injection Hf as <-.
        eexists load, _. rewrite list_lookup_insert_eq by done. by repeat split.
      * rewrite lookup_insert_ne in Hf by done. by apply Hold.
    + split; [exact Hb|]. split; [apply Hkeep|apply Hold].
Qed.

(** X21. Whatever was accessed and settled on a proxy created with a base
    path, its base path is that one, every [import()] it evaluated was
    for [<basePath>/<name>.js] with [name] the property accessed, and every
    function it serves under a name is what a fulfilled import for that
    name resolved to. *)
Theorem proxy_serves_only_what_it_imported b p :
  rtc proxyStep (Client.createHandlerProxy b) p ->
  Client.basePath p = b
  /\ (forall k i, Client.imports p !! k = Some i ->
        Client.specifier i = b +:+ "/" +:+ Client.callFunctionName i +:+ ".js")
  /\ (forall name f, Client.target p !! name = Some f ->
        exists k i, Client.imports p !! k = Some i
                    /\ Client.callFunctionName i = name
                    /\ Client.settled i = Client.Fulfilled f).
Proof.
  revert p. apply rtc_ind_r.
  - split; [reflexivity|]. split.
    + intros k i Hk. cbn in Hk. by rewrite lookup_nil in Hk.
    + intros name f Hf. cbn in Hf. by rewrite lookup_empty in Hf.
  - intros p p' _ Hstep IH. exact (proxy_invariant_step b p p' Hstep IH).
Qed.
Lemma proxy_serves_only_what_it_imported_witness :
  let p :=
    Client.settle
      (snd (Client.get (Client.createHandlerProxy "/static")
              (Client.KString "foo"))) 0 (Some 7) in
  Client.basePath p = "/static"
  /\ (forall k i, Client.imports p !! k = Some i ->
        Client.specifier i
        = "/static" +:+ "/" +:+ Client.callFunctionName i +:+ ".js")
  /\ (forall name f, Client.target p !! name = Some f ->
        exists k i, Client.imports p !! k = Some i
                    /\ Client.callFunctionName i = name
                    /\ Client.settled i = Client.Fulfilled f).
Proof.
  intros p. apply proxy_serves_only_what_it_imported.
  eapply rtc_l; [apply (proxyStep_get _ (Client.KString "foo"))|].
  eapply rtc_l; [apply (proxyStep_settle _ 0 (Some 7))|].
  apply rtc_refl.
Defined.

(** ** The shape of a hashed id *)

Section IdShape.
Local Open Scope Z_scope.

Lemma hexDigits_length_le fuel : forall n acc (k : nat),
  0 <= n < 16 ^ Z.of_nat k -> (1 <= k)%nat ->
  (String.length (Js.hexDigits fuel n acc) <= k + String.length acc)%nat.
Proof.
  induction fuel as [|fuel IH]; intros n acc k Hn Hk; cbn [Js.hexDigits].
  - lia.
  - destruct (n <? 16) eqn:Hlt; [cbn [String.length]; lia|].
    apply Z.ltb_ge in Hlt.
    destruct k as [|[|k]]; [lia|cbn in Hn; lia|].
    specialize (IH (n / 16) (String (Js.hexDigit (n mod 16)) acc) (S k)).
    cbn [String.length] in IH.
    assert (0 <= n / 16 < 16 ^ Z.of_nat (S k)).
    { split; [apply Z.div_pos; lia|].
      apply Z.div_lt_upper_bound; [lia|].
      rewrite (Nat2Z.inj_succ (S k)), Z.pow_succ_r in Hn by lia. lia. }
    specialize (IH ltac:(assumption) ltac:(lia)). lia.
Qed.

Lemma hexDigits_length_ge fuel n acc :
  (String.length acc <= String.length (Js.hexDigits fuel n acc))%nat.
Proof.
  revert n acc. induction fuel as [|fuel IH]; intros n acc; cbn [Js.hexDigits].
  - lia.
  - destruct (n <? 16); [cbn [String.length]; lia|].
    specialize (IH (n / 16) (String (Js.hexDigit (n mod 16)) acc)).
    cbn [String.length] in IH. lia.
Qed.

Lemma parseHex_chars s : forall a v,
  Js.parseHex a s = Some v -> Forall isHexDigit (list_ascii_of_string s).
Proof.
  induction s as [|c s IH]; intros a v Hparse; cbn; [constructor|].
  cbn [Js.parseHex] in Hparse.
  destruct (Js.hexValue c) as [d|] eqn:Hd; [|discriminate].
  constructor; [unfold isHexDigit; by rewrite Hd|eauto].
Qed.

(** X22. An id made by hashing is the handler name, an underscore and
    between one and eight lowercase hexadecimal digits, whatever the source
    text: it is never empty, and it is as long as the name plus two to
    nine. *)
Theorem hashed_id_shape fnName f :
  exists hex,
    hashedFilename fnName f = fnName +:+ "_" +:+ hex
    /\ (1 <= String.length hex <= 8)%nat
    /\ Forall isHexDigit (list_ascii_of_string hex)
    /\ String.length (hashedFilename fnName f)
       = (String.length fnName + 1 + String.length hex)%nat
    /\ Js.truthy (hashedFilename fnName f) = true.
Proof.
  set (h := Z.abs (hashCode (Js.charCodes (fn_text f)))).
  assert (Hh : 0 <= h < 16 ^ Z.of_nat 8).
  { subst h. pose proof (hashCode_range (Js.charCodes (fn_text f))).
    change (16 ^ Z.of_nat 8) with (2 ^ 32). lia. }
  exists (Js.toString16 h). split; [reflexivity|].
  split.
  - unfold Js.toString16. destruct (h <? 0) eqn:Hneg;
      [apply Z.ltb_lt in Hneg; lia|].
    split.
    + cbn [Js.hexDigits]. destruct (h <? 16); [cbn; lia|].
      pose proof (hexDigits_length_ge (Z.to_nat (Z.log2 h)) (h / 16)
                    (String (Js.hexDigit (h mod 16)) EmptyString)) as Hge.
      cbn [String.length] in Hge. lia.
    + pose proof (hexDigits_length_le (S (Z.to_nat (Z.log2 h))) h EmptyString 8
                    Hh ltac:(lia)) as Hle.
      cbn [String.length] in Hle. lia.
  - split; [exact (parseHex_chars _ _ _ (parseHex_toString16 h (proj1 Hh)))|].
    split; [|apply truthy_hashedFilename].
    unfold hashedFilename. fold h. rewrite !length_append. cbn. lia.
Qed.

End IdShape.
(** ** Registrations that stay out of the cache *)

Lemma lookupCachedFilename_unreadable w n u st :
  locator (Some u) = Some u ->
  observedMtime w st u = None ->
  lookupCachedFilename w n (Some u) st
  = (Return (None, None), snd (getSourceFileMtimeMs w u st)).
Proof.
  intros Hloc Hobs.
  destruct (getSourceFileMtimeMs_runs w u st) as (st1 & R1 & _).
  rewrite Hobs in R1. unfold lookupCachedFilename. rewrite Hloc.
  rewrite (bind_runs _ _ _ _ _ R1). unfold runs in R1. by rewrite R1.
Qed.

Lemma resolveFilename_uncached n f url st :
  forall m, (locator url = None \/ m = None) ->
  resolveFilename n f url None m st
  = (Return (VString (hashedFilename n f)),
     with_console (console st ++ [hashingLine n]) st).
Proof.
  intros m Hcase. unfold resolveFilename. cbn [cacheHit]. unfold_m.
  fold (hashingLine n).
  destruct Hcase as [-> | ->]; [reflexivity|].
  by destruct (locator url).
Qed.

(** X23. A registration whose locator has no readable modification time,
    as the process sees it, stays out of the cache: it hashes, logs the
    hashing, leaves the cache and its flushing as the lazy load left them,
    and the memo holds the failure, so that the same happens at every later
    registration under that locator, whatever the file has become. *)
Theorem unreadable_file_is_never_cached w fnName f u st :
  locator (Some u) = Some u ->
  observedMtime w st u = None ->
  let st0 := snd (loadCacheOnce w st) in
  exists st',
    runs (ClientFunction w fnName (VFunction f) (Some u)) st
         (wrapperOf fnName f (Some u) (hashedFilename fnName f)) st'
    /\ same_flush st0 st'
    /\ console st' = console st ++ [hashingLine fnName]
    /\ sourceFileMtimeMemo st' !! u = Some None
    /\ forall w', observedMtime w' st' u = None.
Proof.
  intros Hloc Hobs st0.
  destruct (loadCacheOnce_returns w st) as (st0' & R0 & _ & M0 & C0 & _).
  assert (st0 = st0') as -> by (subst st0; unfold runs in R0; by rewrite R0).
  assert (Hobs0 : observedMtime w st0' u = None).
  { unfold observedMtime in *. by rewrite M0. }
  pose proof (lookupCachedFilename_unreadable w fnName u st0' Hloc Hobs0) as R1.
  set (st1 := snd (getSourceFileMtimeMs w u st0')) in *.
  pose proof (resolveFilename_uncached fnName f (Some u) st1
                None (or_intror eq_refl)) as R2.
  set (st2 := with_console (console st1 ++ [hashingLine fnName]) st1) in *.
  destruct (finishConstruction_runs fnName f (Some u) (hashedFilename fnName f) st2)
    as (st3 & R3 & [_ _ M3 _ C3] & _).
  destruct (registration_runs _ _ _ _ _ _ _ _ _ _ _ _ _ R0 R1 R2 R3)
    as [_ Rnew].
  pose proof (finishConstruction_same_flush fnName f (Some u)
                (hashedFilename fnName f) st2) as F3.
  unfold runs in R3. rewrite R3 in F3. cbn [snd] in F3.
  pose proof (getSourceFileMtimeMs_same_flush w u st0') as F1. fold st1 in F1.
  destruct (getSourceFileMtimeMs_runs w u st0')
    as (st1' & R1' & _ & _ & C1 & Hmemo & _).
  assert (st1 = st1') as Hst1 by (subst st1; unfold runs in R1'; by rewrite R1').
  rewrite <- Hst1 in Hmemo, C1. rewrite Hobs0 in Hmemo.
  exists st3. split; [exact Rnew|].
  split; [destruct F1, F3; constructor; simpl in *; congruence|].
  split; [rewrite C3; simpl; congruence|].
  assert (Hm3 : sourceFileMtimeMemo st3 !! u = Some None) by (by rewrite M3).
  split; [exact Hm3|].
  intros w'. unfold observedMtime. by rewrite Hm3.
Qed.

Lemma unreadable_file_is_never_cached_witness :
  let st0 := snd (loadCacheOnce (worldAt None) initialState) in
  exists st',
    runs (ClientFunction (worldAt None) "ping" (VFunction pingFunction)
            (Some pageUrl)) initialState
         (wrapperOf "ping" pingFunction (Some pageUrl)
            (hashedFilename "ping" pingFunction)) st'
    /\ same_flush st0 st'
    /\ console st' = console initialState ++ [hashingLine "ping"]
    /\ sourceFileMtimeMemo st' !! pageUrl = Some None
    /\ forall w', observedMtime w' st' pageUrl = None.
Proof.
  apply unreadable_file_is_never_cached; reflexivity.
Defined.

(** X24. A registration touches the cache entry of its own file only: the
    entry of every other file, stale or not, is after the registration what
    the lazy load left. *)
Theorem registration_leaves_other_files w fnName f sourceFileUrl st u' :
  locator sourceFileUrl <> Some u' ->
  files (cache (snd (ClientFunction w fnName (VFunction f) sourceFileUrl st)))
    !! u'
  = files (cache (snd (loadCacheOnce w st))) !! u'.
Proof.
  intros Hother.
  destruct (loadCacheOnce_returns w st) as (st0 & R0 & _).
  assert (Hlook : exists c m st1,
    runs (lookupCachedFilename w fnName sourceFileUrl) st0 (c, m) st1
    /\ files (cache st1) !! u' = files (cache st0) !! u').
  { destruct (locator sourceFileUrl) as [u|] eqn:Hloc.
    - destruct (lookupCachedFilename_runs w fnName sourceFileUrl u st0 Hloc)
        as (c & st1 & R1 & _ & _ & _ & _ & _ & _ & Hcase).
      exists c, (observedMtime w st0 u), st1. split; [exact R1|].
      destruct (observedMtime w st0 u).
      + destruct Hcase as [-> _]. apply lookup_insert_ne. congruence.
      + by destruct Hcase as [_ ->].
    - exists None, None, st0.
      split; [by apply lookupCachedFilename_no_locator|reflexivity]. }
  destruct Hlook as (c & m & st1 & R1 & F1).
  assert (Hres : exists id st2,
    runs (resolveFilename fnName f sourceFileUrl c m) st1 id st2
    /\ files (cache st2) !! u' = files (cache st1) !! u').
  { destruct (cacheHit c) as [s|] eqn:Hhit.
    - eauto using resolveFilename_hit.
    - destruct (resolveFilename_miss fnName f sourceFileUrl c m st1 Hhit)
        as (st2 & R2 & _ & _ & _ & _ & F2).
      exists (hashedFilename fnName f), st2. split; [exact R2|].
      rewrite F2. destruct (locator sourceFileUrl) as [u|]; [|reflexivity].
      destruct m; [|reflexivity]. apply lookup_insert_ne. congruence. }
  destruct Hres as (id & st2 & R2 & F2).
  destruct (finishConstruction_runs fnName f sourceFileUrl id st2)
    as (st3 & R3 & [_ K3 _ _ _] & _).
  destruct (registration_runs _ _ _ _ _ _ _ _ _ _ _ _ _ R0 R1 R2 R3)
    as [_ Rnew].
  unfold runs in Rnew, R0. rewrite Rnew, R0. cbn [snd]. congruence.
Qed.

Lemma registration_leaves_other_files_witness :
  files (cache (snd (ClientFunction worldWithOldCache "ping"
                       (VFunction pingFunction) (Some "file:///app/other.ts")
                       initialState))) !! pageUrl
  = files (cache (snd (loadCacheOnce worldWithOldCache initialState))) !! pageUrl.
Proof.
  apply registration_leaves_other_files. cbn. discriminate.
Defined.

(** X25. The empty string as locator is no locator for the cache but is
    one for the imports: the registration reads no modification time,
    hashes, stores nothing in the cache, and records the handler in the
    import registry keyed by the empty string, not in the shared one. *)
Theorem empty_locator_has_its_own_registry w fnName f st :
  exists this st',
    runs (ClientFunction w fnName (VFunction f) (Some EmptyString)) st this st'
    /\ this = wrapperOf fnName f (Some EmptyString) (hashedFilename fnName f)
    /\ statCalls st' = statCalls st
    /\ files (cache st') = files (cache (snd (loadCacheOnce w st)))
    /\ (fnName, prop this "filename") ∈ registryOf st' EmptyString
    /\ registryOf st' "__global__" = registryOf st "__global__".
Proof.
  destruct (registration_registries w fnName f (Some EmptyString) st)
    as (id & mid & st' & Rid & Rnew & _ & I & _). cbn [default from_option] in I.
  destruct (loadCacheOnce_returns w st) as (st0 & R0 & _ & _ & _ & S0 & _).
  pose proof (lookupCachedFilename_no_locator w fnName (Some EmptyString) st0
                eq_refl) as R1.
  destruct (resolveFilename_miss fnName f (Some EmptyString) None None st0 eq_refl)
    as (st2 & R2 & _ & _ & S2 & _ & F2). cbn in F2.
  destruct (finishConstruction_runs fnName f (Some EmptyString)
              (hashedFilename fnName f) st2)
    as (st3 & R3 & [_ K3 _ S3 _] & _).
  destruct (registration_runs _ _ _ _ _ _ _ _ _ _ _ _ _ R0 R1 R2 R3)
    as [Rid' Rnew'].
  destruct (runs_det _ _ _ _ _ _ Rid Rid') as [-> ->].
  destruct (runs_det _ _ _ _ _ _ Rnew Rnew') as [_ ->].
  eexists _, st3. split; [exact Rnew|]. split; [reflexivity|].
  split; [congruence|].
  split; [unfold runs in R0; rewrite R0; cbn [snd]; congruence|].
  split.
  - unfold registryOf at 1. rewrite I, lookup_insert_eq. apply set_elem_of.
  - unfold registryOf. by rewrite I, lookup_insert_ne.
Qed.

(** ** A flush that cannot write *)

(** X26. A flush whose write fails throws nothing and writes nothing: the
    cache stays dirty and in memory as it was, and no flush is queued any
    more, so that the cache is written only once a later registration
    changes it again. *)
Theorem failed_flush_leaves_cache_dirty w st :
  reachable st ->
  (0 < microtasks st)%nat ->
  cacheDirty st = true ->
  writeCacheFile w = false ->
  exists st',
    runCacheFlush w st = (Return tt, st')
    /\ cacheDirty st' = true
    /\ cacheFlushScheduled st' = false
    /\ microtasks st' = 0%nat
    /\ cacheWrites st' = cacheWrites st
    /\ cache st' = cache st.
Proof.
  intros Hreach Hpos Hd Hw.
  pose proof (fi_microtasks _ (reachable_flush_invariant _ Hreach)) as Hm.
  assert (Hone : microtasks st = 1%nat).
  { rewrite Hm in *. destruct (cacheFlushScheduled st); [reflexivity|lia]. }
  unfold runCacheFlush. unfold_m. simpl. rewrite Hd, Hw, Hone. simpl.
  eexists. split; [reflexivity|]. by repeat split.
Qed.

Lemma failed_flush_leaves_cache_dirty_witness :
  exists st',
    runCacheFlush
      {| readCacheFile := None; statMtime := fun _ => Some 5%Z;
         writeCacheFile := false; esbuildTransform := fun _ _ => None;
         writeTextFile := fun _ _ => true |}
      afterPing = (Return tt, st')
    /\ cacheDirty st' = true
    /\ cacheFlushScheduled st' = false
    /\ microtasks st' = 0%nat
    /\ cacheWrites st' = cacheWrites afterPing
    /\ cache st' = cache afterPing.
Proof.
  apply failed_flush_leaves_cache_dirty.
  - exact afterPing_reachable.
  - vm_compute. lia.
  - reflexivity.
  - reflexivity.
Defined.
